(** * PicoGL: the Wavefront OBJ loader and its two vertex layouts

    A shallow embedding of [picogl/utils/loader/object.py]: the dataclass
    [ObjectData], the constructor [OBJLoader.__init__] (the line parser) and
    the two conversion methods [to_array_style] and [to_single_index_style].

    Conventions of the embedding.
    - A Python [str] is a [string]; the text is taken to be ASCII, so the
      whitespace of [str.split()] and [str.strip()] is the ASCII whitespace
      and the digits of [int()] are the ASCII digits.
    - A Python [int] is a [Z].
    - The builtin [float()] and the two literals [0.0] and [1.0] form the
      interface [PyFloat]; the loader is generic in it, and [binary64] is a
      concrete instance (IEEE 754 double precision, round to nearest even).
    - A raised exception is the [Raise] case of [outcome].
    - The file is read by the caller: [__init__] receives the lines that
      [for line in f] would yield (each still carrying its newline).
    - The module is taken to load: the names [field] and [Optional] used by
      the dataclass are the ones of [dataclasses] and [typing]. *)

From Stdlib Require Import ZArith Ascii String List Lia Bool.
From Stdlib Require Import Floats.SpecFloat.
From stdpp Require Import base option list gmap strings.

Local Open Scope string_scope.
Local Open Scope list_scope.
Local Open Scope Z_scope.

(** ** Exceptions *)

Inductive exn : Type :=
  | ValueError
  | IndexError
  | KeyError.

Inductive outcome (A : Type) : Type :=
  | Ok (a : A)
  | Raise (e : exn).
Arguments Ok {A} a.
Arguments Raise {A} e.

#[global] Instance outcome_ret : MRet outcome := fun _ a => Ok a.
#[global] Instance outcome_bind : MBind outcome := fun _ _ f m =>
  match m with
  | Ok a => f a
  | Raise e => Raise e
  end.

Definition is_ok {A} (m : outcome A) : bool :=
  match m with Ok _ => true | Raise _ => false end.

(** [for x in xs: st = body st x], stopping at the first exception. *)
Fixpoint for_each {S I : Type} (body : S -> I -> outcome S) (xs : list I) (st : S)
  : outcome S :=
  match xs with
  | [] => Ok st
  | x :: xs' =>
      match body st x with
      | Ok st' => for_each body xs' st'
      | Raise e => Raise e
      end
  end.

(** ** Python builtins on sequences *)

Definition len {A} (l : list A) : Z := Z.of_nat (length l).

(** An index of a slice, clamped as [PySlice_AdjustIndices] does for a
    positive step. *)
Definition clamp_index (n i : Z) : Z :=
  if i <? 0 then Z.max 0 (i + n) else Z.min i n.

(** [l[a:b]] *)
Definition slice {A} (l : list A) (a b : Z) : list A :=
  let a' := clamp_index (len l) a in
  let b' := clamp_index (len l) b in
  take (Z.to_nat (b' - a')) (drop (Z.to_nat a') l).

(** [range(start, stop, step)] for a positive step. *)
Definition range (start stop step : Z) : list Z :=
  if stop <=? start then []
  else (fun k => start + step * Z.of_nat k) <$> seq 0 (Z.to_nat ((stop - start + step - 1) / step)).

(** [a, b, c = l] *)
Definition unpack3 {A} (l : list A) : outcome (A * A * A) :=
  match l with
  | [a; b; c] => Ok (a, b, c)
  | _ => Raise ValueError
  end.

(** ** Python builtins on text *)

Definition isspace (c : ascii) : bool :=
  let n := N_of_ascii c in
  (((9 <=? n) && (n <=? 13)) || ((28 <=? n) && (n <=? 32)))%N.

Definition isdigit (c : ascii) : bool :=
  let n := N_of_ascii c in ((48 <=? n) && (n <=? 57))%N.

Definition digit_value (c : ascii) : Z := Z.of_N (N_of_ascii c) - 48.

Fixpoint lstrip (s : string) : string :=
  match s with
  | String c s' => if isspace c then lstrip s' else s
  | EmptyString => EmptyString
  end.

Fixpoint rstrip (s : string) : string :=
  match s with
  | EmptyString => EmptyString
  | String c s' =>
      match rstrip s' with
      | EmptyString => if isspace c then EmptyString else String c EmptyString
      | r => String c r
      end
  end.

(** [s.strip()] *)
Definition strip (s : string) : string := rstrip (lstrip s).

(** [s.startswith(c)] for a one-character prefix *)
Definition startswith (s : string) (c : ascii) : bool :=
  match s with
  | String d _ => if ascii_dec d c then true else false
  | EmptyString => false
  end.

Definition flush (tok : string) : list string :=
  match tok with
  | EmptyString => []
  | _ => [tok]
  end.

(** [s.split()]: the maximal runs of non-whitespace characters; [tok] is
    the run being read. *)
Fixpoint split_from (tok : string) (s : string) : list string :=
  match s with
  | EmptyString => flush tok
  | String c s' =>
      if isspace c then flush tok ++ split_from EmptyString s'
      else split_from (tok +:+ String c EmptyString) s'
  end.

Definition split (s : string) : list string := split_from EmptyString s.

(** [s.split(sep)] for a one-character separator: empty fields are kept. *)
Fixpoint split_on (sep : ascii) (s : string) : list string :=
  match s with
  | EmptyString => [EmptyString]
  | String c s' =>
      if ascii_dec c sep then EmptyString :: split_on sep s'
      else
        match split_on sep s' with
        | f :: fs => String c f :: fs
        | [] => [String c EmptyString]
        end
  end.

(** The digits of a decimal literal: digits, single underscores allowed
    between two digits. [seen] tells whether the previous character was a
    digit. *)
Fixpoint digits_value (acc : Z) (seen : bool) (s : string) : option Z :=
  match s with
  | EmptyString => if seen then Some acc else None
  | String c s' =>
      if isdigit c then digits_value (10 * acc + digit_value c) true s'
      else if ascii_dec c "_" then
        if seen then digits_value acc false s' else None
      else None
  end.

(** [int(s)] in base 10; [None] is [ValueError]. *)
Definition int (s : string) : option Z :=
  match strip s with
  | String c r =>
      if ascii_dec c "-" then Z.opp <$> digits_value 0 false r
      else if ascii_dec c "+" then digits_value 0 false r
      else digits_value 0 false (String c r)
  | EmptyString => None
  end.

(** ** The builtin [float] *)

(** What the loader needs of Python's floats: the conversion [float(s)]
    ([None] is [ValueError]) and the literals [0.0] and [1.0]. *)
Class PyFloat (F : Type) : Type := {
  float : string -> option F;
  float_0 : F;
  float_1 : F
}.

(** *** IEEE 754 double precision *)

Definition lower (c : ascii) : ascii :=
  let n := N_of_ascii c in
  if ((65 <=? n) && (n <=? 90))%N then ascii_of_N (n + 32) else c.

Fixpoint lowercase (s : string) : string :=
  match s with
  | EmptyString => EmptyString
  | String c s' => String (lower c) (lowercase s')
  end.

(** Reads a run of digits (single underscores allowed between two digits)
    at the head of [s]: the value read on top of [acc], the number of digits
    read on top of [n], and the rest of the text. *)
Fixpoint scan_digits (acc n : Z) (seen : bool) (s : string) : option (Z * Z * string) :=
  match s with
  | EmptyString => Some (acc, n, s)
  | String c s' =>
      if isdigit c then scan_digits (10 * acc + digit_value c) (n + 1) true s'
      else if ascii_dec c "_" then
        match seen, s' with
        | true, String d _ => if isdigit d then scan_digits acc n false s' else None
        | _, _ => None
        end
      else Some (acc, n, s)
  end.

(** The double nearest to [m * 10 ^ e] (ties to even), with sign [sg]. *)
Definition decimal_to_binary64 (sg : bool) (m e : Z) : spec_float :=
  match m with
  | Zpos p =>
      if 0 <=? e then binary_round 53 1024 sg (p * Z.to_pos (10 ^ e))%positive 0
      else
        let '(q, e', l) := SFdiv_core_binary 53 1024 m 0 (10 ^ (- e)) 0 in
        binary_round_aux 53 1024 sg q e' l
  | _ => S754_zero sg
  end.

(** The exponent part of a decimal literal: empty, or [e] or [E], an
    optional sign and at least one digit, up to the end of the text. *)
Definition scan_exponent (s : string) : option Z :=
  match s with
  | EmptyString => Some 0
  | String c r =>
      if ascii_dec (lower c) "e" then
        let '(neg, r) :=
          match r with
          | String "-" r' => (true, r')
          | String "+" r' => (false, r')
          | _ => (false, r)
          end in
        match scan_digits 0 0 false r with
        | Some (v, n, EmptyString) =>
            if 0 <? n then Some (if neg : bool then - v else v) else None
        | _ => None
        end
      else None
  end.

(** An unsigned decimal literal: digits, an optional point and digits, an
    optional exponent; at least one digit before the exponent. *)
Definition scan_decimal (sg : bool) (s : string) : option spec_float :=
  '(m1, n1, r1) ← scan_digits 0 0 false s;
  '(m2, n2, r2) ←
    match r1 with
    | String "." r => scan_digits m1 0 false r
    | _ => Some (m1, 0, r1)
    end;
  if 0 <? n1 + n2 then
    e ← scan_exponent r2;
    Some (decimal_to_binary64 sg m2 (e - n2))
  else None.

Definition float64 (s : string) : option spec_float :=
  let '(sg, r) :=
    match strip s with
    | String "-" r => (true, r)
    | String "+" r => (false, r)
    | r => (false, r)
    end in
  let w := lowercase r in
  if bool_decide (w = "inf" \/ w = "infinity")%string then Some (S754_infinity sg)
  else if bool_decide (w = "nan")%string then Some S754_nan
  else scan_decimal sg r.

#[global] Instance binary64 : PyFloat spec_float := {|
  float := float64;
  float_0 := S754_zero false;
  float_1 := S754_finite false 4503599627370496 (-52)
|}.

(** ** The dataclass [ObjectData] *)

Module ObjectData.
Section ObjectData.
Context {F : Type}.

Record t : Type := mk {
  vertices : list F;
  texcoords : list F;
  normals : list F;
  indices : list Z
}.

(** The generated [__init__] followed by [__post_init__]: when [indices]
    is not provided it becomes [0 .. vertex_count - 1]. *)
Definition new (vertices texcoords normals : list F) (indices : option (list Z)) : t :=
  match indices with
  | Some ix => mk vertices texcoords normals ix
  | None =>
      let vertex_count := len vertices / 3 in
      mk vertices texcoords normals (range 0 vertex_count 1)
  end.
End ObjectData.
Arguments t : clear implicits.
End ObjectData.

(** ** The class [OBJLoader] *)

Module OBJLoader.
Section OBJLoader.
Context {F : Type} `{PyFloat F}.

(** The attributes of a loader. [s], [mtllib] and [usemtl] exist only once
    [setattr] has created them: [None] is an attribute that was never set,
    [Some None] one that was set to Python's [None]. *)
Record t : Type := mk {
  vertices : list F;
  normals : list F;
  texcoords : list F;
  indices : list Z;
  s : option (option string);
  mtllib : option (option string);
  usemtl : option (option string)
}.

Definition set_vertices (self : t) (x : list F) : t :=
  mk x (normals self) (texcoords self) (indices self) (s self) (mtllib self) (usemtl self).
Definition set_normals (self : t) (x : list F) : t :=
  mk (vertices self) x (texcoords self) (indices self) (s self) (mtllib self) (usemtl self).
Definition set_texcoords (self : t) (x : list F) : t :=
  mk (vertices self) (normals self) x (indices self) (s self) (mtllib self) (usemtl self).
Definition set_indices (self : t) (x : list Z) : t :=
  mk (vertices self) (normals self) (texcoords self) x (s self) (mtllib self) (usemtl self).

(** [setattr(self, code, value)] for [code in ("s", "mtllib", "usemtl")] *)
Definition setattr (self : t) (code : string) (value : option string) : t :=
  if bool_decide (code = "s")%string then
    mk (vertices self) (normals self) (texcoords self) (indices self)
       (Some value) (mtllib self) (usemtl self)
  else if bool_decide (code = "mtllib")%string then
    mk (vertices self) (normals self) (texcoords self) (indices self)
       (s self) (Some value) (usemtl self)
  else
    mk (vertices self) (normals self) (texcoords self) (indices self)
       (s self) (mtllib self) (Some value).

(** *** [to_array_style] *)

(** The body of the loop; the state is the three local lists. *)
Definition array_step (self : t) (st : list F * list F * list F) (i : Z)
  : outcome (list F * list F * list F) :=
  let '(vertices_, texcoords_, normals_) := st in
  '(v_idx, t_idx, n_idx) ← unpack3 (slice (indices self) i (i + 3));
  let vertices_ :=
    if 0 <? v_idx then
      let v_start := 3 * (v_idx - 1) in
      vertices_ ++ slice (vertices self) v_start (v_start + 3)
    else vertices_ ++ [float_0; float_0; float_0] in
  let texcoords_ :=
    if (0 <? t_idx) && bool_decide (texcoords self <> []) then
      let t_start := 2 * (t_idx - 1) in
      texcoords_ ++ slice (texcoords self) t_start (t_start + 2)
    else texcoords_ ++ [float_0; float_0] in
  let normals_ :=
    if (0 <? n_idx) && bool_decide (normals self <> []) then
      let n_start := 3 * (n_idx - 1) in
      normals_ ++ slice (normals self) n_start (n_start + 3)
    else normals_ ++ [float_0; float_0; float_1] in
  Ok (vertices_, texcoords_, normals_).

Definition to_array_style (self : t) : outcome (ObjectData.t F) :=
  '(vertices_, texcoords_, normals_) ←
    for_each (array_step self) (range 0 (len (indices self)) 3) ([], [], []);
  Ok (ObjectData.new vertices_ texcoords_ normals_ None).

(** *** [to_single_index_style] *)

(** The locals of the loop: the four lists and the dict [combinations]. *)
Record single_state : Type := mk_single {
  s_vertices : list F;
  s_texcoords : list F;
  s_normals : list F;
  s_indices : list Z;
  combinations : gmap (Z * Z * Z) Z
}.

Definition single_step (self : t) (st : single_state) (i : Z) : outcome single_state :=
  '(v_idx, t_idx, n_idx) ← unpack3 (slice (indices self) i (i + 3));
  let key := (v_idx, t_idx, n_idx) in
  let st :=
    match combinations st !! key with
    | None =>
        let combinations_ := <[key := Z.of_nat (size (combinations st))]> (combinations st) in
        let vertices_ :=
          if 0 <? v_idx then
            let v_start := 3 * (v_idx - 1) in
            s_vertices st ++ slice (vertices self) v_start (v_start + 3)
          else s_vertices st ++ [float_0; float_0; float_0] in
        let texcoords_ :=
          if (0 <? t_idx) && bool_decide (texcoords self <> []) then
            let t_start := 2 * (t_idx - 1) in
            s_texcoords st ++ slice (texcoords self) t_start (t_start + 2)
          else s_texcoords st ++ [float_0; float_0] in
        let normals_ :=
          if (0 <? n_idx) && bool_decide (normals self <> []) then
            let n_start := 3 * (n_idx - 1) in
            s_normals st ++ slice (normals self) n_start (n_start + 3)
          else s_normals st ++ [float_0; float_0; float_1] in
        mk_single vertices_ texcoords_ normals_ (s_indices st) combinations_
    | Some _ => st
    end in
  match combinations st !! key with
  | Some slot =>
      Ok (mk_single (s_vertices st) (s_texcoords st) (s_normals st)
            (s_indices st ++ [slot]) (combinations st))
  | None => Raise KeyError
  end.

Definition to_single_index_style (self : t) : outcome (ObjectData.t F) :=
  st ← for_each (single_step self) (range 0 (len (indices self)) 3)
         (mk_single [] [] [] [] ∅);
  Ok (ObjectData.new (s_vertices st) (s_texcoords st) (s_normals st)
        (Some (s_indices st))).

(** *** [log_properties] *)

(** The messages go to the logger of [picogl.logger], which is not part of
    the loader; what remains is the call of [to_single_index_style],
    whose exception, if any, would leave [__init__]. *)
Definition log_properties (obj : t) : outcome unit :=
  _ ← to_single_index_style obj;
  Ok tt.

(** *** [__init__] *)

(** [map(float, tokens)], consumed by [extend]. When a token fails, the
    exception leaves [__init__] and the loader under construction is
    lost, so the items appended before it are not observable. *)
Fixpoint floats (tokens : list string) : outcome (list F) :=
  match tokens with
  | [] => Ok []
  | tok :: rest =>
      match float tok with
      | Some x => xs ← floats rest; Ok (x :: xs)
      | None => Raise ValueError
      end
  end.

(** [int(sub) if sub else 0] *)
Definition index_of (sub : string) : outcome Z :=
  match sub with
  | EmptyString => Ok 0
  | _ => match int sub with Some z => Ok z | None => Raise ValueError end
  end.

(** [while len(subs) < 3: subs.append("")] *)
Definition pad3 (subs : list string) : list string :=
  subs ++ replicate (3 - length subs)%nat EmptyString.

(** One reference of a face: [v], [v/t], [v//n] or [v/t/n]. *)
Definition face_ref (ref : string) : outcome (Z * Z * Z) :=
  match pad3 (split_on "/" ref) with
  | sub0 :: sub1 :: sub2 :: _ =>
      v_idx ← index_of sub0;
      t_idx ← index_of sub1;
      n_idx ← index_of sub2;
      Ok (v_idx, t_idx, n_idx)
  | _ => Raise IndexError
  end.

Fixpoint face_refs (refs : list string) : outcome (list (Z * Z * Z)) :=
  match refs with
  | [] => Ok []
  | ref :: rest =>
      c ← face_ref ref;
      cs ← face_refs rest;
      Ok (c :: cs)
  end.

(** [[idx for face in face_indices for idx in face]] *)
Definition flatten (face_indices : list (Z * Z * Z)) : list Z :=
  face_indices ≫= (fun '(v_idx, t_idx, n_idx) => [v_idx; t_idx; n_idx]).

(** The body of [for line in f]: the loader and what [print] wrote. *)
Definition parse_line (st : t * list string) (line : string) : outcome (t * list string) :=
  let '(self, stdout) := st in
  if bool_decide (strip line = "")%string || startswith line "#" then Ok st
  else
    let parts := split line in
    match parts with
    | [] => Raise IndexError
    | code :: _ =>
        if bool_decide (code = "v")%string then
          xs ← floats (slice parts 1 4);
          Ok (set_vertices self (vertices self ++ xs), stdout)
        else if bool_decide (code = "vn")%string then
          xs ← floats (slice parts 1 4);
          Ok (set_normals self (normals self ++ xs), stdout)
        else if bool_decide (code = "vt")%string then
          xs ← floats (slice parts 1 3);
          Ok (set_texcoords self (texcoords self ++ xs), stdout)
        else if bool_decide (code = "f")%string then
          face_indices ← face_refs (slice parts 1 (len parts));
          Ok (set_indices self (indices self ++ flatten face_indices), stdout)
        else if bool_decide (code = "s" \/ code = "mtllib" \/ code = "usemtl")%string then
          Ok (setattr self code (if 1 <? len parts then parts !! 1%nat else None), stdout)
        else if bool_decide (code = "g")%string then Ok st
        else Ok (self, stdout ++ ["Skipping unknown line: " +:+ strip line])
    end.

Definition empty : t := mk [] [] [] [] None None None.

(** [OBJLoader(path)] for an existing file whose lines are [lines]. *)
Definition init (lines : list string) : outcome (t * list string) :=
  '(self, stdout) ← for_each parse_line lines (empty, []);
  _ ← log_properties self;
  Ok (self, stdout).

End OBJLoader.
Arguments t : clear implicits.
End OBJLoader.

(** ** The two conversions over a store of list objects

    [OBJLoader.to_array_style] and [OBJLoader.to_single_index_style] above
    pass the local lists along as values. Here the same two methods run on
    a store in which every Python list is an object with an identity:
    the attributes of [self] and of the returned [ObjectData] are
    references, [extend] and [append] update the object they are called on,
    and a slice or a list display makes a new object. The dict
    [combinations] never leaves its method and stays a value. *)

Module Store.
Section Store.
Context {F : Type} `{PyFloat F}.

Definition loc : Type := positive.

(** The list objects, those of floats and those of ints. *)
Record store : Type := mk_store {
  floats : gmap loc (list F);
  ints : gmap loc (list Z)
}.

(** A computation: it may raise, and the store it leaves is observable
    either way. *)
Definition M (A : Type) : Type := store -> outcome A * store.

#[global] Instance M_ret : MRet M := fun _ a σ => (Ok a, σ).
#[global] Instance M_bind : MBind M := fun _ _ f m σ =>
  match m σ with
  | (Ok a, σ') => f a σ'
  | (Raise e, σ') => (Raise e, σ')
  end.

Definition lift {A} (o : outcome A) : M A := fun σ => (o, σ).

(** [[]], or any expression that builds a new list of floats *)
Definition new_floats (xs : list F) : M loc := fun σ =>
  let r := fresh (dom (floats σ)) in
  (Ok r, mk_store (<[r := xs]> (floats σ)) (ints σ)).

Definition new_ints (xs : list Z) : M loc := fun σ =>
  let r := fresh (dom (ints σ)) in
  (Ok r, mk_store (floats σ) (<[r := xs]> (ints σ))).

Definition get_floats (r : loc) : M (list F) := fun σ => (Ok (floats σ !!! r), σ).
Definition get_ints (r : loc) : M (list Z) := fun σ => (Ok (ints σ !!! r), σ).

(** [r.extend(xs)] *)
Definition extend_floats (r : loc) (xs : list F) : M unit := fun σ =>
  (Ok tt, mk_store (<[r := floats σ !!! r ++ xs]> (floats σ)) (ints σ)).

(** [r.append(x)] *)
Definition append_int (r : loc) (x : Z) : M unit := fun σ =>
  (Ok tt, mk_store (floats σ) (<[r := ints σ !!! r ++ [x]]> (ints σ))).

Fixpoint for_each {S I : Type} (body : S -> I -> M S) (xs : list I) (st : S) : M S :=
  match xs with
  | [] => mret st
  | x :: xs' => st' ← body st x; for_each body xs' st'
  end.

(** The list attributes of an [OBJLoader] object. *)
Record loader : Type := mk_loader {
  vertices : loc;
  normals : loc;
  texcoords : loc;
  indices : loc
}.

(** The attributes of an [ObjectData] object. *)
Record object_data : Type := mk_object_data {
  o_vertices : loc;
  o_texcoords : loc;
  o_normals : loc;
  o_indices : loc
}.

(** [ObjectData(vertices, texcoords, normals, indices)]: the arguments are
    stored as they are; [__post_init__] builds the index list when none
    is given. *)
Definition new_object_data (vertices_ texcoords_ normals_ : loc) (indices_ : option loc)
  : M object_data :=
  match indices_ with
  | Some ix => mret (mk_object_data vertices_ texcoords_ normals_ ix)
  | None =>
      vs ← get_floats vertices_;
      let vertex_count := len vs / 3 in
      ix ← new_ints (range 0 vertex_count 1);
      mret (mk_object_data vertices_ texcoords_ normals_ ix)
  end.

Definition array_step (self : loader) (vertices_ texcoords_ normals_ : loc)
    (_ : unit) (i : Z) : M unit :=
  ix ← get_ints (indices self);
  '(v_idx, t_idx, n_idx) ← lift (unpack3 (slice ix i (i + 3)));
  _ ← (if 0 <? v_idx then
         let v_start := 3 * (v_idx - 1) in
         vs ← get_floats (vertices self);
         extend_floats vertices_ (slice vs v_start (v_start + 3))
       else extend_floats vertices_ [float_0; float_0; float_0]);
  ts ← get_floats (texcoords self);
  _ ← (if (0 <? t_idx) && bool_decide (ts <> []) then
         let t_start := 2 * (t_idx - 1) in
         extend_floats texcoords_ (slice ts t_start (t_start + 2))
       else extend_floats texcoords_ [float_0; float_0]);
  ns ← get_floats (normals self);
  (if (0 <? n_idx) && bool_decide (ns <> []) then
     let n_start := 3 * (n_idx - 1) in
     extend_floats normals_ (slice ns n_start (n_start + 3))
   else extend_floats normals_ [float_0; float_0; float_1]).

Definition to_array_style (self : loader) : M object_data :=
  vertices_ ← new_floats [];
  texcoords_ ← new_floats [];
  normals_ ← new_floats [];
  ix ← get_ints (indices self);
  _ ← for_each (array_step self vertices_ texcoords_ normals_) (range 0 (len ix) 3) tt;
  new_object_data vertices_ texcoords_ normals_ None.

Definition single_step (self : loader) (vertices_ texcoords_ normals_ indices_ : loc)
    (combinations : gmap (Z * Z * Z) Z) (i : Z) : M (gmap (Z * Z * Z) Z) :=
  ix ← get_ints (indices self);
  '(v_idx, t_idx, n_idx) ← lift (unpack3 (slice ix i (i + 3)));
  let key := (v_idx, t_idx, n_idx) in
  combinations ←
    match combinations !! key with
    | None =>
        let combinations := <[key := Z.of_nat (size combinations)]> combinations in
        _ ← (if 0 <? v_idx then
               let v_start := 3 * (v_idx - 1) in
               vs ← get_floats (vertices self);
               extend_floats vertices_ (slice vs v_start (v_start + 3))
             else extend_floats vertices_ [float_0; float_0; float_0]);
        ts ← get_floats (texcoords self);
        _ ← (if (0 <? t_idx) && bool_decide (ts <> []) then
               let t_start := 2 * (t_idx - 1) in
               extend_floats texcoords_ (slice ts t_start (t_start + 2))
             else extend_floats texcoords_ [float_0; float_0]);
        ns ← get_floats (normals self);
        _ ← (if (0 <? n_idx) && bool_decide (ns <> []) then
               let n_start := 3 * (n_idx - 1) in
               extend_floats normals_ (slice ns n_start (n_start + 3))
             else extend_floats normals_ [float_0; float_0; float_1]);
        mret combinations
    | Some _ => mret combinations
    end;
  match combinations !! key with
  | Some slot => _ ← append_int indices_ slot; mret combinations
  | None => lift (Raise KeyError)
  end.

Definition to_single_index_style (self : loader) : M object_data :=
  vertices_ ← new_floats [];
  texcoords_ ← new_floats [];
  normals_ ← new_floats [];
  indices_ ← new_ints [];
  ix ← get_ints (indices self);
  _ ← for_each (single_step self vertices_ texcoords_ normals_ indices_)
        (range 0 (len ix) 3) ∅;
  new_object_data vertices_ texcoords_ normals_ (Some indices_).

(** The two public conversions, and a series of calls on one loader. *)
Inductive method : Type := ArrayStyle | SingleIndexStyle.

Definition call (self : loader) (m : method) : M object_data :=
  match m with
  | ArrayStyle => to_array_style self
  | SingleIndexStyle => to_single_index_style self
  end.

(** Every call is made, whether the ones before it raised or not (the
    caller catches); the outcomes are collected in order. *)
Fixpoint calls (self : loader) (ms : list method) (σ : store)
  : list (outcome object_data) * store :=
  match ms with
  | [] => ([], σ)
  | m :: ms' =>
      let '(r, σ') := call self m σ in
      let '(rs, σ'') := calls self ms' σ' in
      (r :: rs, σ'')
  end.

(** What the store holds at the attributes of a loader, and of a result. *)
Definition read_loader (σ : store) (self : loader) : OBJLoader.t F :=
  OBJLoader.mk (floats σ !!! vertices self) (floats σ !!! normals self)
    (floats σ !!! texcoords self) (ints σ !!! indices self) None None None.

Definition read_object_data (σ : store) (d : object_data) : ObjectData.t F :=
  ObjectData.mk (floats σ !!! o_vertices d) (floats σ !!! o_texcoords d)
    (floats σ !!! o_normals d) (ints σ !!! o_indices d).

(** A loader object whose four lists are allocated. *)
Definition allocated (σ : store) (self : loader) : Prop :=
  vertices self ∈ dom (floats σ) /\ normals self ∈ dom (floats σ) /\
  texcoords self ∈ dom (floats σ) /\ indices self ∈ dom (ints σ).

(** A store with one loader, for the lists of [L]. *)
Definition install (L : OBJLoader.t F) : loader * store :=
  (mk_loader 1%positive 2%positive 3%positive 1%positive,
   mk_store (<[1%positive := OBJLoader.vertices L]>
              (<[2%positive := OBJLoader.normals L]>
                (<[3%positive := OBJLoader.texcoords L]> ∅)))
            (<[1%positive := OBJLoader.indices L]> ∅)).

End Store.
Arguments store : clear implicits.
Arguments M : clear implicits.
End Store.

(** ** Vocabulary of the properties *)

(** A face corner: [(posIdx, texIdx, normIdx)]. *)
Abbreviation corner := (Z * Z * Z)%type.

Section Vocabulary.
Context {F : Type} `{PyFloat F}.

(** The face corners of a flattened stream, three integers at a time; an
    incomplete last chunk is not a corner. *)
Fixpoint corners (ix : list Z) : list corner :=
  match ix with
  | v_idx :: t_idx :: n_idx :: rest => (v_idx, t_idx, n_idx) :: corners rest
  | _ => []
  end.

(** The stream is a whole number of corners. *)
Definition whole (ix : list Z) : bool := (length ix mod 3 =? 0)%nat.

(** What one corner contributes to each output array, as both conversions
    compute it. *)
Definition position_of (self : OBJLoader.t F) (c : corner) : list F :=
  let '(v_idx, _, _) := c in
  if 0 <? v_idx then slice (OBJLoader.vertices self) (3 * (v_idx - 1)) (3 * (v_idx - 1) + 3)
  else [float_0; float_0; float_0].

Definition texcoord_of (self : OBJLoader.t F) (c : corner) : list F :=
  let '(_, t_idx, _) := c in
  if (0 <? t_idx) && bool_decide (OBJLoader.texcoords self <> []) then
    slice (OBJLoader.texcoords self) (2 * (t_idx - 1)) (2 * (t_idx - 1) + 2)
  else [float_0; float_0].

Definition normal_of (self : OBJLoader.t F) (c : corner) : list F :=
  let '(_, _, n_idx) := c in
  if (0 <? n_idx) && bool_decide (OBJLoader.normals self <> []) then
    slice (OBJLoader.normals self) (3 * (n_idx - 1)) (3 * (n_idx - 1) + 3)
  else [float_0; float_0; float_1].

(** The shared resolution rule in the words of the specification: [k]
    floats are read at an offset of a table, and an offset at which the
    table does not hold them all is out of range ([None]). *)
Definition read (table : list F) (offset : Z) (k : nat) : option (list F) :=
  if (0 <=? offset) && (offset + Z.of_nat k <=? len table)
  then Some (take k (drop (Z.to_nat offset) table))
  else None.

Definition resolve_position (self : OBJLoader.t F) (p : Z) : option (list F) :=
  if 0 <? p then read (OBJLoader.vertices self) (3 * (p - 1)) 3
  else Some [float_0; float_0; float_0].

Definition resolve_texcoord (self : OBJLoader.t F) (t : Z) : option (list F) :=
  if (0 <? t) && bool_decide (OBJLoader.texcoords self <> [])
  then read (OBJLoader.texcoords self) (2 * (t - 1)) 2
  else Some [float_0; float_0].

Definition resolve_normal (self : OBJLoader.t F) (n : Z) : option (list F) :=
  if (0 <? n) && bool_decide (OBJLoader.normals self <> [])
  then read (OBJLoader.normals self) (3 * (n - 1)) 3
  else Some [float_0; float_0; float_1].

(** The numbers of stored attributes. *)
Definition position_count (self : OBJLoader.t F) : Z := len (OBJLoader.vertices self) / 3.
Definition texcoord_count (self : OBJLoader.t F) : Z := len (OBJLoader.texcoords self) / 2.
Definition normal_count (self : OBJLoader.t F) : Z := len (OBJLoader.normals self) / 3.

(** A face index is in range when it is absent (0) or names a stored
    attribute (1-based). *)
Definition in_range (count i : Z) : bool := (0 <=? i) && (i <=? count).

Definition corner_in_range (self : OBJLoader.t F) (c : corner) : bool :=
  let '(p, t, n) := c in
  in_range (position_count self) p && in_range (texcoord_count self) t
  && in_range (normal_count self) n.

Definition indices_in_range (self : OBJLoader.t F) : bool :=
  forallb (corner_in_range self) (corners (OBJLoader.indices self)).

(** The slot of a triple among the triples seen so far. *)
Fixpoint slot (seen : list corner) (c : corner) : option nat :=
  match seen with
  | [] => None
  | k :: seen' => if decide (k = c) then Some 0%nat else S <$> slot seen' c
  end.

(** Interning one corner: the triples seen, in the order of their first
    occurrence, and the slots handed out so far. *)
Definition intern (st : list corner * list Z) (c : corner) : list corner * list Z :=
  let '(seen, out) := st in
  match slot seen c with
  | Some k => (seen, out ++ [Z.of_nat k])
  | None => (seen ++ [c], out ++ [Z.of_nat (length seen)])
  end.

Definition interned (cs : list corner) : list corner * list Z :=
  fold_left intern cs ([], []).

(** The distinct triples of [cs] in first-occurrence order. *)
Definition distinct (cs : list corner) : list corner := fst (interned cs).

(** [max(l)] of a non-empty list *)
Definition max_of (l : list Z) : option Z :=
  match l with
  | [] => None
  | x :: l' => Some (fold_left Z.max l' x)
  end.

(** The lines [__init__] does not skip, and their leading token. *)
Definition skipped (line : string) : bool :=
  bool_decide (strip line = "")%string || startswith line "#".

Definition code_of (line : string) : option string :=
  if skipped line then None else head (split line).

Definition is_face_line (line : string) : bool :=
  bool_decide (code_of line = Some "f"%string).

(** The tokens that a [v], [vn] or [vt] line hands to [float]. *)
Definition attribute_tokens (line : string) : list string :=
  match code_of line with
  | Some code =>
      if bool_decide (code = "v" \/ code = "vn")%string then slice (split line) 1 4
      else if bool_decide (code = "vt")%string then slice (split line) 1 3
      else []
  | None => []
  end.

(** The reference tokens of a face line: [parts[1:]]. *)
Definition face_tokens (line : string) : list string :=
  if is_face_line line then tail (split line) else [].



End Vocabulary.

(** ** Auxiliary definitions of the proofs *)

Section Auxiliary.
Context {F : Type} `{PyFloat F}.

(** The offsets [3k, 3(k+1), ...] visited by the loops, [n] of them. *)
Definition offsets (k n : nat) : list Z :=
  (fun j => 3 * Z.of_nat (k + j)) <$> seq 0 n.

(** The body of the loop of [to_array_style] once the chunk is unpacked. *)
Definition array_corner (self : OBJLoader.t F) (st : list F * list F * list F) (c : corner)
  : list F * list F * list F :=
  let '(vs, ts, ns) := st in
  (vs ++ position_of self c, ts ++ texcoord_of self c, ns ++ normal_of self c).

(** The body of the loop of [to_single_index_style] once the chunk is
    unpacked. *)
Definition single_corner (self : OBJLoader.t F) (st : OBJLoader.single_state) (c : corner)
  : outcome OBJLoader.single_state :=
  let st :=
    match OBJLoader.combinations st !! c with
    | None =>
        OBJLoader.mk_single
          (OBJLoader.s_vertices st ++ position_of self c)
          (OBJLoader.s_texcoords st ++ texcoord_of self c)
          (OBJLoader.s_normals st ++ normal_of self c)
          (OBJLoader.s_indices st)
          (<[c := Z.of_nat (size (OBJLoader.combinations st))]> (OBJLoader.combinations st))
    | Some _ => st
    end in
  match OBJLoader.combinations st !! c with
  | Some k =>
      Ok (OBJLoader.mk_single (OBJLoader.s_vertices st) (OBJLoader.s_texcoords st)
            (OBJLoader.s_normals st) (OBJLoader.s_indices st ++ [k])
            (OBJLoader.combinations st))
  | None => Raise KeyError
  end.

(** The locals of [to_single_index_style] after some corners, against the
    triples seen and the slots handed out. *)
Record inv (self : OBJLoader.t F) (st : OBJLoader.single_state)
    (so : list corner * list Z) : Prop := mk_inv {
  inv_map : forall c, OBJLoader.combinations st !! c = Z.of_nat <$> slot (fst so) c;
  inv_size : size (OBJLoader.combinations st) = length (fst so);
  inv_vertices : OBJLoader.s_vertices st = fst so ≫= position_of self;
  inv_texcoords : OBJLoader.s_texcoords st = fst so ≫= texcoord_of self;
  inv_normals : OBJLoader.s_normals st = fst so ≫= normal_of self;
  inv_indices : OBJLoader.s_indices st = snd so
}.

(** The slot [z] is the one of [c] among [seen]. *)
Definition assigned (seen : list corner) (c : corner) (z : Z) : Prop :=
  exists k : nat, slot seen c = Some k /\ z = Z.of_nat k.
End Auxiliary.

(** ** Sample inputs *)

Section Samples.
(** A line as [for line in f] yields it, with its newline. *)
Definition eol (s : string) : string := s +:+ String "010" EmptyString.

Definition double_2 : spec_float := S754_finite false 4503599627370496 (-51).

(** Four positions and two triangles that share an edge. *)
Definition quad_lines : list string :=
  eol <$> ["v 0 0 0"; "v 1 0 0"; "v 1 1 0"; "v 0 1 0"; "f 1 2 3"; "f 1 3 4"].

Definition quad_indices : list Z :=
  [1; 0; 0; 2; 0; 0; 3; 0; 0; 1; 0; 0; 3; 0; 0; 4; 0; 0].

Definition quad_loader : OBJLoader.t spec_float :=
  OBJLoader.mk
    [float_0; float_0; float_0; float_1; float_0; float_0;
     float_1; float_1; float_0; float_0; float_1; float_0]
    [] [] quad_indices None None None.

(** Three positions and a face whose first reference is far out of range. *)
Definition far_lines : list string :=
  eol <$> ["v 0 0 0"; "v 1 0 0"; "v 0 1 0"; "f 999 1 2"].

Definition far_loader : OBJLoader.t spec_float :=
  OBJLoader.mk
    [float_0; float_0; float_0; float_1; float_0; float_0; float_0; float_1; float_0]
    [] [] [999; 0; 0; 1; 0; 0; 2; 0; 0] None None None.

(** A position with two coordinates only. *)
Definition short_lines : list string := [eol "v 1.0 2.0"].

Definition short_loader : OBJLoader.t spec_float :=
  OBJLoader.mk [float_1; double_2] [] [] [] None None None.

(** A position whose third coordinate is not a number. *)
Definition bad_lines : list string := [eol "v 1.0 2.0 x"].



(** A triangle whose three corners name two distinct triples. *)
Definition fold_lines : list string :=
  eol <$> ["v 0 0 0"; "v 1 0 0"; "vt 0 1"; "vn 0 0 1"; "f 1/1/1 2//1 1/1/1"].
End Samples.

Section SampleResults.
(** What [to_single_index_style] returns for [quad_loader]. *)
Definition quad_single : ObjectData.t spec_float :=
  ObjectData.mk
    [float_0; float_0; float_0; float_1; float_0; float_0;
     float_1; float_1; float_0; float_0; float_1; float_0]
    [float_0; float_0; float_0; float_0; float_0; float_0; float_0; float_0]
    [float_0; float_0; float_1; float_0; float_0; float_1;
     float_0; float_0; float_1; float_0; float_0; float_1]
    [0; 1; 2; 0; 2; 3].
End SampleResults.

(** ** Vocabulary of the store *)

Section StoreVocabulary.
Context {F : Type} `{PyFloat F}.

(** The conversion a call runs, on the lists as values. *)
Definition convert (m : Store.method) (L : OBJLoader.t F) : outcome (ObjectData.t F) :=
  match m with
  | Store.ArrayStyle => OBJLoader.to_array_style L
  | Store.SingleIndexStyle => OBJLoader.to_single_index_style L
  end.

(** Every list object of [σ] is in [σ'], unchanged. *)
Definition extends (σ σ' : Store.store F) : Prop :=
  (forall r, r ∈ dom (Store.floats σ) -> Store.floats σ' !! r = Store.floats σ !! r)
  /\ (forall r, r ∈ dom (Store.ints σ) -> Store.ints σ' !! r = Store.ints σ !! r).

(** The four lists of a result are objects that [σ] does not have. *)
Definition fresh_in (σ : Store.store F) (d : Store.object_data) : Prop :=
  (Store.o_vertices d ∉ dom (Store.floats σ))
  /\ (Store.o_texcoords d ∉ dom (Store.floats σ))
  /\ (Store.o_normals d ∉ dom (Store.floats σ))
  /\ (Store.o_indices d ∉ dom (Store.ints σ)).

(** The four lists of a result are allocated. *)
Definition object_in (σ : Store.store F) (d : Store.object_data) : Prop :=
  Store.o_vertices d ∈ dom (Store.floats σ)
  /\ Store.o_texcoords d ∈ dom (Store.floats σ)
  /\ Store.o_normals d ∈ dom (Store.floats σ)
  /\ Store.o_indices d ∈ dom (Store.ints σ).

(** The outcome [r] of a call, read in [σ'], is the outcome [o] of the
    conversion on values. *)
Definition returns (σ' : Store.store F) (r : outcome Store.object_data)
    (o : outcome (ObjectData.t F)) : Prop :=
  match o with
  | Ok D => exists d, r = Ok d /\ Store.read_object_data σ' d = D /\ object_in σ' d
  | Raise e => r = Raise e
  end.

(** The store while [to_array_style] runs: [σ] and the three local lists. *)
Definition array_store (σ : Store.store F) (v t n : Store.loc)
    (st : list F * list F * list F) : Store.store F :=
  Store.mk_store
    (<[n := st.2]> (<[t := st.1.2]> (<[v := st.1.1]> (Store.floats σ))))
    (Store.ints σ).

(** The store while [to_single_index_style] runs: [σ] and the four local
    lists. *)
Definition single_store (σ : Store.store F) (v t n ix : Store.loc)
    (st : OBJLoader.single_state) : Store.store F :=
  Store.mk_store
    (<[n := OBJLoader.s_normals st]>
       (<[t := OBJLoader.s_texcoords st]>
          (<[v := OBJLoader.s_vertices st]> (Store.floats σ))))
    (<[ix := OBJLoader.s_indices st]> (Store.ints σ)).

(** Three new float lists, distinct from each other. *)
Definition fresh3 (σ : Store.store F) (v t n : Store.loc) : Prop :=
  (v ∉ dom (Store.floats σ)) /\ (t ∉ dom (Store.floats σ)) /\ (n ∉ dom (Store.floats σ))
  /\ v <> t /\ v <> n /\ t <> n.
End StoreVocabulary.

(** ** Vocabulary of a whole file *)

Section FileVocabulary.
Context {F : Type} `{PyFloat F}.

(** The line is not skipped and its leading token is [code]. *)
Definition has_code (code line : string) : bool :=
  bool_decide (code_of line = Some code).

(** The tokens a line hands to [float], per table. *)
Definition position_tokens (line : string) : list string :=
  if has_code "v" line then slice (split line) 1 4 else [].

Definition normal_tokens (line : string) : list string :=
  if has_code "vn" line then slice (split line) 1 4 else [].

Definition texcoord_tokens (line : string) : list string :=
  if has_code "vt" line then slice (split line) 1 3 else [].

(** The codes [__init__] has a branch for. *)
Definition known_codes : list string :=
  ["v"; "vn"; "vt"; "f"; "s"; "mtllib"; "usemtl"; "g"]%string.

(** What [print] writes for a line. *)
Definition diagnostics (line : string) : list string :=
  match code_of line with
  | Some code =>
      if bool_decide (code ∈ known_codes) then []
      else ["Skipping unknown line: " +:+ strip line]
  | None => []
  end.

(** The value a line gives to the optional property [code]: its second
    token, or Python's [None] when there is none. *)
Definition property_values (code line : string) : list (option string) :=
  if has_code code line then [split line !! 1%nat] else [].

(** An optional property after some more lines: the last value given, or
    the old one. *)
Definition latest (old : option (option string)) (values : list (option string))
  : option (option string) :=
  match last values with
  | Some v => Some v
  | None => old
  end.

(** The lines that add to one of the four tables. *)
Definition is_geometry_line (line : string) : bool :=
  has_code "v" line || has_code "vn" line || has_code "vt" line || has_code "f" line.

(** The four tables of a loader. *)
Definition geometry (self : OBJLoader.t F) : list F * list F * list F * list Z :=
  (OBJLoader.vertices self, OBJLoader.normals self, OBJLoader.texcoords self,
   OBJLoader.indices self).

(** The loader [self] after lines that gave the floats [vs], [ns], [ts] and
    the corners [cs]. *)
Definition extended (self : OBJLoader.t F) (lines : list string)
    (vs ns ts : list F) (cs : list corner) : OBJLoader.t F :=
  OBJLoader.mk
    (OBJLoader.vertices self ++ vs) (OBJLoader.normals self ++ ns)
    (OBJLoader.texcoords self ++ ts) (OBJLoader.indices self ++ OBJLoader.flatten cs)
    (latest (OBJLoader.s self) (lines ≫= property_values "s"))
    (latest (OBJLoader.mtllib self) (lines ≫= property_values "mtllib"))
    (latest (OBJLoader.usemtl self) (lines ≫= property_values "usemtl")).

(** The loader of a file followed by the loader of another. *)
Definition append_loader (a b : OBJLoader.t F) : OBJLoader.t F :=
  OBJLoader.mk
    (OBJLoader.vertices a ++ OBJLoader.vertices b)
    (OBJLoader.normals a ++ OBJLoader.normals b)
    (OBJLoader.texcoords a ++ OBJLoader.texcoords b)
    (OBJLoader.indices a ++ OBJLoader.indices b)
    (match OBJLoader.s b with Some v => Some v | None => OBJLoader.s a end)
    (match OBJLoader.mtllib b with Some v => Some v | None => OBJLoader.mtllib a end)
    (match OBJLoader.usemtl b with Some v => Some v | None => OBJLoader.usemtl a end).
End FileVocabulary.

Section MoreSamples.
(** A file with comments, optional properties, a group and an unknown
    statement around one position, one texture coordinate and one face. *)
Definition mixed_lines : list string :=
  eol <$> ["# a point"; ""; "mtllib a.mtl"; "o thing"; "v 0 0 0"; "vt 0 1 9";
           "s 1"; "s off"; "g"; "usemtl"; "f 1/1"].

Definition mixed_loader : OBJLoader.t spec_float :=
  OBJLoader.mk [float_0; float_0; float_0] [] [float_0; float_1] [1; 1; 0]
    (Some (Some "off"%string)) (Some (Some "a.mtl"%string)) (Some None).

(** Positions only. *)
Definition cloud_lines : list string := eol <$> ["v 0 0 0"; "v 1 0 0"; "vn 0 0 1"].

Definition cloud_loader : OBJLoader.t spec_float :=
  OBJLoader.mk [float_0; float_0; float_0; float_1; float_0; float_0]
    [float_0; float_0; float_1] [] [] None None None.
End MoreSamples.

Section AliasVocabulary.
Context {F : Type} `{PyFloat F}.

(** The three float lists of a result. *)
Definition float_lists (d : Store.object_data) : list Store.loc :=
  [Store.o_vertices d; Store.o_texcoords d; Store.o_normals d].

(** Two results have no list in common. *)
Definition separate (d1 d2 : Store.object_data) : Prop :=
  (forall r, r ∈ float_lists d1 -> r ∉ float_lists d2)
  /\ Store.o_indices d1 <> Store.o_indices d2.

(** A result has no list in common with the loader. *)
Definition apart (self : Store.loader) (d : Store.object_data) : Prop :=
  (forall r, r ∈ float_lists d ->
             r ∉ [Store.vertices self; Store.normals self; Store.texcoords self])
  /\ Store.o_indices d <> Store.indices self.
End AliasVocabulary.

Section MoreSampleResults.
(** What [to_array_style] returns for [quad_loader] and for [far_loader]. *)
Definition quad_array : ObjectData.t spec_float :=
  ObjectData.mk
    [float_0; float_0; float_0; float_1; float_0; float_0; float_1; float_1; float_0;
     float_0; float_0; float_0; float_1; float_1; float_0; float_0; float_1; float_0]
    [float_0; float_0; float_0; float_0; float_0; float_0;
     float_0; float_0; float_0; float_0; float_0; float_0]
    [float_0; float_0; float_1; float_0; float_0; float_1; float_0; float_0; float_1;
     float_0; float_0; float_1; float_0; float_0; float_1; float_0; float_0; float_1]
    [0; 1; 2; 3; 4; 5].

Definition far_array : ObjectData.t spec_float :=
  ObjectData.mk
    [float_0; float_0; float_0; float_1; float_0; float_0]
    [float_0; float_0; float_0; float_0; float_0; float_0]
    [float_0; float_0; float_1; float_0; float_0; float_1; float_0; float_0; float_1]
    [0; 1].
End MoreSampleResults.

(** ** Tactics *)

(** Deciding the tests on the leading token of a line. *)
Ltac code_true :=
  solve [ reflexivity
        | repeat (first [reflexivity | left; reflexivity | right])
        | apply list_elem_of_In; simpl; repeat (first [left; reflexivity | right]) ].

Ltac code_false :=
  solve [ discriminate
        | congruence
        | intuition congruence
        | let Hd := fresh "Hd" in
          intro Hd; apply list_elem_of_In in Hd; simpl in Hd; intuition congruence ].

Ltac code_bool :=
  repeat match goal with
         | |- context [bool_decide ?P] =>
             first [ rewrite (bool_decide_true P) by code_true
                   | rewrite (bool_decide_false P) by code_false ]
         end.

Ltac code_bool_in H :=
  repeat match type of H with
         | context [bool_decide ?P] =>
             first [ rewrite (bool_decide_true P) in H by code_true
                   | rewrite (bool_decide_false P) in H by code_false ]
         end.

Ltac line_done self :=
  cbn [mbind outcome_bind OBJLoader.floats OBJLoader.face_refs last OBJLoader.flatten
         list_bind app];
  rewrite ?app_nil_r;
  try (destruct (OBJLoader.floats _); cbn [mbind outcome_bind]);
  try (destruct (OBJLoader.face_refs _); cbn [mbind outcome_bind]);
  rewrite ?app_nil_r; try reflexivity; destruct self; reflexivity.


(** ** The outcome monad and the loop *)

Lemma for_each_ext {S I} (f g : S -> I -> outcome S) (xs : list I) (st : S) :
  (forall st x, x ∈ xs -> f st x = g st x) ->
  for_each f xs st = for_each g xs st.
Proof.
  revert st. induction xs as [|x xs IH]; intros st Hfg; simpl; [reflexivity|].
  rewrite Hfg by left.
  destruct (g st x); [|reflexivity].
  apply IH. intros st' y Hy. apply Hfg. now right.
Qed.

(** A loop whose body never raises is a left fold. *)
Lemma for_each_total {S I} (body : S -> I -> outcome S) (step : S -> I -> S)
    (xs : list I) (st : S) :
  (forall st x, body st x = Ok (step st x)) ->
  for_each body xs st = Ok (fold_left step xs st).
Proof.
  intros Hb. revert st. induction xs as [|x xs IH]; intros st; simpl; [reflexivity|].
  rewrite Hb. apply IH.
Qed.

(** A body that raises on [x] whatever the state makes the loop raise. *)
Lemma for_each_raises {S I} (body : S -> I -> outcome S) (xs : list I) (x : I) (st : S) :
  x ∈ xs -> (forall st, is_ok (body st x) = false) ->
  is_ok (for_each body xs st) = false.
Proof.
  intros Hin Hx. revert st.
  induction xs as [|y xs IH]; intros st; [inversion Hin|]. simpl.
  apply elem_of_cons in Hin as [<- | Hin].
  - specialize (Hx st). destruct (body st x); [discriminate | reflexivity].
  - destruct (body st y); [apply IH, Hin | reflexivity].
Qed.

(** ** Slices, ranges and the chunks of three *)

Lemma list_ind3 {A} (P : list A -> Prop) :
  P [] -> (forall a, P [a]) -> (forall a b, P [a; b]) ->
  (forall a b c l, P l -> P (a :: b :: c :: l)) ->
  forall l, P l.
Proof.
  intros H0 H1 H2 H3.
  fix IH 1. intros [|a [|b [|c l]]]; [apply H0 | apply H1 | apply H2 | apply H3, IH].
Qed.

Lemma slice_prefix {A} (pre l : list A) (k : nat) :
  slice (pre ++ l) (len pre) (len pre + Z.of_nat k) = take k l.
Proof.
  unfold slice, clamp_index, len. rewrite length_app.
  destruct (Z.ltb_spec (Z.of_nat (length pre)) 0); [lia|].
  destruct (Z.ltb_spec (Z.of_nat (length pre) + Z.of_nat k) 0); [lia|].
  rewrite (Z.min_l (Z.of_nat (length pre))) by lia. rewrite Nat2Z.id.
  rewrite drop_app_length.
  destruct (Z.min_spec (Z.of_nat (length pre) + Z.of_nat k) (Z.of_nat (length pre + length l)))
    as [[_ ->] | [Hle ->]].
  - f_equal. lia.
  - rewrite !take_ge; [reflexivity | lia | lia].
Qed.

Lemma slice_prefix3 {A} (pre l : list A) :
  slice (pre ++ l) (len pre) (len pre + 3) = take 3 l.
Proof. exact (slice_prefix pre l 3). Qed.

Lemma whole_cons3 (a b c : Z) (l : list Z) : whole (a :: b :: c :: l) = whole l.
Proof.
  unfold whole. cbn [length].
  replace (S (S (S (length l)))) with (length l + 1 * 3)%nat by lia.
  now rewrite Nat.Div0.mod_add.
Qed.

Lemma offsets_S k n : offsets k (S n) = 3 * Z.of_nat k :: offsets (S k) n.
Proof.
  unfold offsets. simpl. rewrite Nat.add_0_r. f_equal.
  rewrite <- seq_shift, <- list_fmap_compose.
  apply list_fmap_ext. intros _ j _. simpl. f_equal. lia.
Qed.

Lemma range_offsets (n : nat) :
  range 0 (Z.of_nat n) 3 = offsets 0 ((n + 2) / 3).
Proof.
  unfold range, offsets.
  destruct (Z.leb_spec (Z.of_nat n) 0) as [Hn | Hn].
  - assert (n = 0%nat) as -> by lia. reflexivity.
  - replace (Z.to_nat ((Z.of_nat n - 0 + 3 - 1) / 3)) with ((n + 2) / 3)%nat.
    + apply list_fmap_ext. intros _ j _. simpl. lia.
    + replace (Z.of_nat n - 0 + 3 - 1) with (Z.of_nat (n + 2)) by lia.
      change 3 with (Z.of_nat 3).
      rewrite <- (Nat2Z.inj_div (n + 2) 3). now rewrite Nat2Z.id.
Qed.

Lemma ceil3_S3 (n : nat) : ((S (S (S n)) + 2) / 3 = S ((n + 2) / 3))%nat.
Proof.
  replace (S (S (S n)) + 2)%nat with (1 * 3 + (n + 2))%nat by lia.
  rewrite Nat.div_add_l by lia. lia.
Qed.

(** The loop [for i in range(0, len(ix), 3)] whose body starts by unpacking
    [ix[i:i+3]] runs its body once per corner, and raises [ValueError] at an
    incomplete last chunk. *)
Lemma for_each_chunks {St} (g : St -> corner -> outcome St) (pre rest : list Z) (k : nat) (st : St) :
  length pre = (3 * k)%nat ->
  for_each (fun st i => unpack3 (slice (pre ++ rest) i (i + 3)) ≫= g st)
    (offsets k ((length rest + 2) / 3)) st
  = for_each g (corners rest) st ≫= fun st' =>
      if whole rest then Ok st' else Raise ValueError.
Proof.
  revert pre k st. induction rest as [|a|a b|a b c rest IH] using list_ind3;
    intros pre k st Hpre.
  - reflexivity.
  - change ((length [a] + 2) / 3)%nat with 1%nat. rewrite offsets_S. simpl.
    replace (3 * Z.of_nat k) with (len pre) by (unfold len; lia).
    rewrite (slice_prefix3 pre [a]). reflexivity.
  - change ((length [a; b] + 2) / 3)%nat with 1%nat. rewrite offsets_S. simpl.
    replace (3 * Z.of_nat k) with (len pre) by (unfold len; lia).
    rewrite (slice_prefix3 pre [a; b]). reflexivity.
  - cbn [length]. rewrite ceil3_S3, offsets_S.
    cbn [for_each corners].
    replace (3 * Z.of_nat k) with (len pre) by (unfold len; lia).
    rewrite (slice_prefix3 pre (a :: b :: c :: rest)).
    change (take 3 (a :: b :: c :: rest)) with (a :: b :: c :: take 0 rest).
    rewrite take_0. cbn [unpack3 mbind outcome_bind].
    rewrite whole_cons3.
    destruct (g st (a, b, c)) as [st'|e]; [|reflexivity].
    specialize (IH (pre ++ [a; b; c]) (S k) st').
    rewrite <- app_assoc in IH. apply IH.
    rewrite length_app. simpl. lia.
Qed.

Lemma for_each_range3 {St} (g : St -> corner -> outcome St) (ix : list Z) (st : St) :
  for_each (fun st i => unpack3 (slice ix i (i + 3)) ≫= g st) (range 0 (len ix) 3) st
  = for_each g (corners ix) st ≫= fun st' =>
      if whole ix then Ok st' else Raise ValueError.
Proof.
  unfold len. rewrite range_offsets.
  apply (for_each_chunks g [] ix 0 st). reflexivity.
Qed.

Lemma length_flatten (cs : list corner) :
  length (OBJLoader.flatten cs) = (3 * length cs)%nat.
Proof.
  induction cs as [|[[v t] n] cs IH]; [reflexivity|].
  unfold OBJLoader.flatten in *. cbn. cbn in IH. rewrite IH. lia.
Qed.

Lemma flatten_app (xs ys : list corner) :
  OBJLoader.flatten (xs ++ ys) = OBJLoader.flatten xs ++ OBJLoader.flatten ys.
Proof. unfold OBJLoader.flatten. apply bind_app. Qed.

Lemma corners_flatten (cs : list corner) : corners (OBJLoader.flatten cs) = cs.
Proof.
  induction cs as [|[[v t] n] cs IH]; [reflexivity|].
  unfold OBJLoader.flatten in *. cbn. cbn in IH. now rewrite IH.
Qed.

Lemma whole_flatten (cs : list corner) : whole (OBJLoader.flatten cs) = true.
Proof.
  unfold whole. rewrite length_flatten.
  rewrite Nat.mul_comm, Nat.Div0.mod_mul. reflexivity.
Qed.

Lemma length_corners (ix : list Z) : length (corners ix) = (length ix / 3)%nat.
Proof.
  induction ix as [|a|a b|a b c ix IH] using list_ind3; try reflexivity.
  cbn [corners length]. rewrite IH.
  replace (S (S (S (length ix)))) with (1 * 3 + length ix)%nat by lia.
  rewrite Nat.div_add_l by lia. lia.
Qed.


Section Conversions.
Context {F : Type} `{PyFloat F}.
Implicit Types (self : OBJLoader.t F) (c : corner) (cs seen : list corner).

(** *** [to_array_style] as a map over the corners *)

Lemma array_step_corner self st i :
  OBJLoader.array_step self st i
  = unpack3 (slice (OBJLoader.indices self) i (i + 3)) ≫= fun c => Ok (array_corner self st c).
Proof.
  destruct st as [[vs ts] ns]. unfold OBJLoader.array_step.
  destruct (unpack3 _) as [[[v t] n]|e]; [|reflexivity].
  simpl. unfold position_of, texcoord_of, normal_of.
  destruct (0 <? v), ((0 <? t) && _), ((0 <? n) && _); reflexivity.
Qed.

Lemma fold_array_corner self cs vs ts ns :
  fold_left (array_corner self) cs (vs, ts, ns)
  = (vs ++ cs ≫= position_of self, ts ++ cs ≫= texcoord_of self,
     ns ++ cs ≫= normal_of self).
Proof.
  revert vs ts ns. induction cs as [|c cs IH]; intros vs ts ns; simpl.
  - now rewrite !app_nil_r.
  - rewrite IH. now rewrite <- !app_assoc.
Qed.

Lemma to_array_style_eq self :
  OBJLoader.to_array_style self
  = let cs := corners (OBJLoader.indices self) in
    if whole (OBJLoader.indices self)
    then Ok (ObjectData.new (cs ≫= position_of self) (cs ≫= texcoord_of self)
               (cs ≫= normal_of self) None)
    else Raise ValueError.
Proof.
  unfold OBJLoader.to_array_style.
  rewrite (for_each_ext _ (fun st i => unpack3 (slice (OBJLoader.indices self) i (i + 3))
                                        ≫= fun c => Ok (array_corner self st c)))
    by (intros; apply array_step_corner).
  rewrite (for_each_range3 (fun st c => Ok (array_corner self st c))).
  rewrite (for_each_total _ (array_corner self)) by reflexivity.
  rewrite fold_array_corner. simpl.
  destruct (whole _); reflexivity.
Qed.

(** *** [to_single_index_style] as the interning of the corners *)

Lemma single_step_corner self st i :
  OBJLoader.single_step self st i
  = unpack3 (slice (OBJLoader.indices self) i (i + 3)) ≫= single_corner self st.
Proof.
  unfold OBJLoader.single_step.
  destruct (unpack3 _) as [[[v t] n]|e]; [|reflexivity].
  simpl. unfold single_corner, position_of, texcoord_of, normal_of.
  destruct (OBJLoader.combinations st !! (v, t, n)) eqn:E; [simpl; now rewrite E|].
  destruct (0 <? v), ((0 <? t) && _), ((0 <? n) && _); reflexivity.
Qed.

Lemma slot_lt seen c k : slot seen c = Some k -> (k < length seen)%nat.
Proof.
  revert k. induction seen as [|d seen IH]; intros k; simpl; [discriminate|].
  destruct (decide (d = c)).
  - intros [= <-]. lia.
  - destruct (slot seen c) as [j|]; [|discriminate].
    intros [= <-]. specialize (IH j eq_refl). lia.
Qed.

Lemma slot_lookup seen c k : slot seen c = Some k -> seen !! k = Some c.
Proof.
  revert k. induction seen as [|d seen IH]; intros k; simpl; [discriminate|].
  destruct (decide (d = c)) as [->|].
  - now intros [= <-].
  - destruct (slot seen c) as [j|]; [|discriminate].
    intros [= <-]. now apply IH.
Qed.

Lemma slot_None seen c : slot seen c = None <-> c ∉ seen.
Proof.
  induction seen as [|d seen IH]; simpl.
  - split; [intros _; apply not_elem_of_nil | reflexivity].
  - rewrite not_elem_of_cons. destruct (decide (d = c)) as [->|Hne].
    + split; [discriminate | intros [[] _]; reflexivity].
    + destruct (slot seen c); simpl.
      * split; [discriminate|]. intros [_ Hn]. now apply IH in Hn.
      * split; [|reflexivity]. intros _. split; [congruence | now apply IH].
Qed.

Lemma slot_app seen c d :
  slot (seen ++ [d]) c
  = match slot seen c with
    | Some k => Some k
    | None => if decide (d = c) then Some (length seen) else None
    end.
Proof.
  induction seen as [|e seen IH]; simpl.
  - destruct (decide (d = c)); reflexivity.
  - destruct (decide (e = c)); [reflexivity|].
    rewrite IH. destruct (slot seen c); simpl; [reflexivity|].
    destruct (decide (d = c)); reflexivity.
Qed.

Lemma inv_start self : inv self (OBJLoader.mk_single [] [] [] [] ∅) ([], []).
Proof.
  split; reflexivity || (intros c; simpl; apply lookup_empty).
Qed.

Lemma single_corner_inv self st seen out c :
  inv self st (seen, out) ->
  exists st', single_corner self st c = Ok st' /\ inv self st' (intern (seen, out) c).
Proof.
  intros [Hmap Hsize Hv Ht Hn Hi]. simpl in *.
  destruct c as [[v t] n]. unfold single_corner, intern.
  rewrite Hmap.
  destruct (slot seen (v, t, n)) as [k|] eqn:Hslot; simpl.
  - rewrite Hmap, Hslot. simpl. eexists. split; [reflexivity|].
    split; simpl; auto. now rewrite Hi.
  - rewrite lookup_insert_eq. eexists. split; [reflexivity|].
    split; simpl.
    + intros c. rewrite slot_app, lookup_insert. rewrite Hmap.
      destruct (decide ((v, t, n) = c)) as [<-|Hne].
      * rewrite Hslot. simpl. now rewrite Hsize.
      * destruct (slot seen c); reflexivity.
    + rewrite map_size_insert_None, length_app by (rewrite Hmap, Hslot; reflexivity).
      simpl. lia.
    + rewrite bind_app, Hv. simpl. now rewrite app_nil_r.
    + rewrite bind_app, Ht. simpl. now rewrite app_nil_r.
    + rewrite bind_app, Hn. simpl. now rewrite app_nil_r.
    + now rewrite Hi, Hsize.
Qed.

Lemma for_each_single_corner self cs st seen out :
  inv self st (seen, out) ->
  exists st', for_each (single_corner self) cs st = Ok st'
              /\ inv self st' (fold_left intern cs (seen, out)).
Proof.
  revert st seen out. induction cs as [|c cs IH]; intros st seen out Hinv.
  - simpl. eauto.
  - cbn [for_each fold_left].
    destruct (single_corner_inv self st seen out c Hinv) as (st' & -> & Hinv').
    destruct (intern (seen, out) c) as [seen' out'].
    apply IH, Hinv'.
Qed.

Lemma to_single_index_style_eq self :
  OBJLoader.to_single_index_style self
  = let cs := corners (OBJLoader.indices self) in
    if whole (OBJLoader.indices self)
    then Ok (ObjectData.mk (distinct cs ≫= position_of self)
               (distinct cs ≫= texcoord_of self) (distinct cs ≫= normal_of self)
               (snd (interned cs)))
    else Raise ValueError.
Proof.
  unfold OBJLoader.to_single_index_style.
  rewrite (for_each_ext _ (fun st i => unpack3 (slice (OBJLoader.indices self) i (i + 3))
                                        ≫= single_corner self st))
    by (intros; apply single_step_corner).
  rewrite for_each_range3.
  destruct (for_each_single_corner self (corners (OBJLoader.indices self)) _ [] []
              (inv_start self)) as (st' & -> & Hinv).
  simpl. destruct (whole _); [|reflexivity]. simpl.
  unfold distinct, interned. destruct (fold_left intern _ _) as [seen out].
  destruct Hinv as [_ _ Hv Ht Hn Hi]. simpl in *.
  now rewrite Hv, Ht, Hn, Hi.
Qed.
End Conversions.

Section Interning.
Implicit Types (c : corner) (cs seen : list corner) (out : list Z).

Lemma interned_snoc cs c : interned (cs ++ [c]) = intern (interned cs) c.
Proof. unfold interned. now rewrite fold_left_app. Qed.

Lemma assigned_app seen c d z : assigned seen c z -> assigned (seen ++ [d]) c z.
Proof.
  intros (k & Hk & ->). exists k. split; [|reflexivity].
  rewrite slot_app. now rewrite Hk.
Qed.

Lemma assigned_inj seen c d z : assigned seen c z -> assigned seen d z -> c = d.
Proof.
  intros (k & Hk & ->) (j & Hj & Hkj).
  apply Nat2Z.inj in Hkj as ->.
  apply slot_lookup in Hk, Hj. congruence.
Qed.

Lemma assigned_fun seen c z z' : assigned seen c z -> assigned seen c z' -> z = z'.
Proof. intros (k & Hk & ->) (j & Hj & ->). congruence. Qed.

Lemma assigned_bound seen c z : assigned seen c z -> 0 <= z < Z.of_nat (length seen).
Proof. intros (k & Hk & ->). apply slot_lt in Hk. lia. Qed.

(** What interning maintains: the triples seen are the distinct triples
    met so far, every corner got the slot of its triple, and every slot
    was handed out. *)
Lemma interned_spec cs :
  NoDup (distinct cs)
  /\ (forall c, c ∈ distinct cs <-> c ∈ cs)
  /\ Forall2 (assigned (distinct cs)) cs (snd (interned cs))
  /\ (forall k : nat, (k < length (distinct cs))%nat -> Z.of_nat k ∈ snd (interned cs)).
Proof.
  unfold distinct.
  induction cs as [|c cs IH] using rev_ind.
  - simpl. repeat split; try constructor; try (intros Hc; inversion Hc); simpl; lia.
  - rewrite interned_snoc. destruct (interned cs) as [seen out]. simpl in IH.
    destruct IH as (Hnd & Hmem & Hout & Hall).
    unfold intern. destruct (slot seen c) as [k|] eqn:Hslot; simpl.
    + assert (c ∈ seen) as Hc
        by (apply list_elem_of_lookup; exists k; now apply slot_lookup).
      repeat split; auto.
      * intros Hd. apply elem_of_app. left. now apply Hmem.
      * intros [Hd | Hd%list_elem_of_singleton]%elem_of_app;
          [now apply Hmem | now subst].
      * apply Forall2_app; [assumption|]. repeat constructor. now exists k.
      * intros j Hj. apply elem_of_app. left. now apply Hall.
    + apply slot_None in Hslot as Hc.
      repeat split.
      * apply NoDup_app. repeat split; auto.
        -- intros d Hd Hd'%list_elem_of_singleton. now subst.
        -- apply NoDup_singleton.
      * intros [Hd | Hd]%elem_of_app; apply elem_of_app;
          [left; now apply Hmem | now right].
      * intros [Hd | Hd]%elem_of_app; apply elem_of_app;
          [left; now apply Hmem | now right].
      * apply Forall2_app.
        -- eapply Forall2_impl; [exact Hout|]. intros d z. apply assigned_app.
        -- repeat constructor. exists (length seen). split; [|reflexivity].
           rewrite slot_app, Hslot. now rewrite decide_True.
      * intros j Hj. rewrite length_app in Hj. simpl in Hj.
        apply elem_of_app. destruct (decide (j = length seen)) as [->|Hne].
        -- right. now left.
        -- left. apply Hall. lia.
Qed.

Lemma length_interned cs : length (snd (interned cs)) = length cs.
Proof.
  destruct (interned_spec cs) as (_ & _ & Hout & _).
  symmetry. eapply Forall2_length, Hout.
Qed.

Lemma distinct_nonempty cs : cs <> [] -> distinct cs <> [].
Proof.
  destruct cs as [|c cs]; [congruence|]. intros _ Hnil.
  destruct (interned_spec (c :: cs)) as (_ & Hmem & _).
  assert (c ∈ distinct (c :: cs)) as Hc by (apply Hmem; now left).
  rewrite Hnil in Hc. inversion Hc.
Qed.

(** *** [max] *)

Lemma fold_max_le (l : list Z) (x : Z) : x <= fold_left Z.max l x.
Proof.
  revert x. induction l as [|y l IH]; intros x; simpl; [lia|].
  specialize (IH (Z.max x y)). lia.
Qed.

Lemma fold_max_bound (l : list Z) (x m : Z) :
  x <= m -> Forall (fun y => y <= m) l -> fold_left Z.max l x <= m.
Proof.
  revert x. induction l as [|y l IH]; intros x Hx Hl; simpl; [lia|].
  inversion Hl; subst. apply IH; [lia | assumption].
Qed.

Lemma fold_max_ge (l : list Z) (x y : Z) : y ∈ l -> y <= fold_left Z.max l x.
Proof.
  revert x. induction l as [|z l IH]; intros x Hy; [inversion Hy|]. simpl.
  apply elem_of_cons in Hy as [-> | Hy].
  - pose proof (fold_max_le l (Z.max x z)). lia.
  - now apply IH.
Qed.

Lemma max_of_bounded (l : list Z) (m : Z) :
  m ∈ l -> (forall y, y ∈ l -> y <= m) -> max_of l = Some m.
Proof.
  destruct l as [|x l]; [intros Hm; inversion Hm|].
  intros Hm Hb. simpl. f_equal.
  apply Z.le_antisymm.
  - apply fold_max_bound; [apply Hb; now left|].
    apply Forall_forall. intros y Hy. apply Hb. now right.
  - apply elem_of_cons in Hm as [-> | Hm];
      [apply fold_max_le | now apply fold_max_ge].
Qed.

(** The largest slot handed out is the last one. *)
Lemma max_of_interned cs :
  cs <> [] -> max_of (snd (interned cs)) = Some (Z.of_nat (length (distinct cs)) - 1).
Proof.
  intros Hne. destruct (interned_spec cs) as (_ & _ & Hout & Hall).
  pose proof (distinct_nonempty cs Hne) as Hd.
  assert (0 < length (distinct cs))%nat as Hpos
    by (destruct (distinct cs); [congruence | simpl; lia]).
  apply max_of_bounded.
  - replace (Z.of_nat (length (distinct cs)) - 1)
      with (Z.of_nat (length (distinct cs) - 1)) by lia.
    apply Hall. lia.
  - intros y Hy.
    apply list_elem_of_lookup in Hy as [i Hi].
    destruct (Forall2_lookup_r _ _ _ _ _ Hout Hi) as (c & _ & Hc).
    apply assigned_bound in Hc. lia.
Qed.
End Interning.

Section Resolution.
Context {F : Type} `{PyFloat F}.
Implicit Types (self : OBJLoader.t F) (c : corner) (cs : list corner).

(** Reading [k] floats that are all stored is what the slice gives. *)
Lemma read_slice (table : list F) (offset : Z) (k : nat) (xs : list F) :
  read table offset k = Some xs ->
  slice table offset (offset + Z.of_nat k) = xs /\ length xs = k.
Proof.
  unfold read.
  destruct (Z.leb_spec 0 offset) as [H0|]; [|discriminate].
  destruct (Z.leb_spec (offset + Z.of_nat k) (len table)) as [Hk|]; [|discriminate].
  simpl. intros [= <-]. unfold len in Hk. split.
  - unfold slice, clamp_index, len.
    destruct (Z.ltb_spec offset 0); [lia|].
    destruct (Z.ltb_spec (offset + Z.of_nat k) 0); [lia|].
    rewrite !Z.min_l by lia. f_equal. lia.
  - rewrite length_take, length_drop. lia.
Qed.

Lemma read_in_range (table : list F) (n : nat) (i : Z) :
  0 < i -> in_range (len table / Z.of_nat n) i = true -> (0 < n)%nat ->
  exists xs, read table (Z.of_nat n * (i - 1)) n = Some xs.
Proof.
  intros Hi Hr Hn. unfold in_range in Hr.
  apply andb_true_iff in Hr as [_ Hr%Z.leb_le].
  assert (Z.of_nat n * i <= len table).
  { etransitivity; [apply Z.mul_le_mono_nonneg_l; [lia | exact Hr]|].
    apply Z.mul_div_le. lia. }
  unfold read.
  destruct (Z.leb_spec 0 (Z.of_nat n * (i - 1))) as [|Hneg]; [|nia].
  destruct (Z.leb_spec (Z.of_nat n * (i - 1) + Z.of_nat n) (len table)); [|nia].
  simpl. eauto.
Qed.

(** In range, the rule of the specification returns a value, and it is
    the one both conversions append. *)
Lemma resolve_in_range self p t n :
  corner_in_range self (p, t, n) = true ->
  exists pos tex nor,
    resolve_position self p = Some pos /\ resolve_texcoord self t = Some tex
    /\ resolve_normal self n = Some nor
    /\ position_of self (p, t, n) = pos /\ texcoord_of self (p, t, n) = tex
    /\ normal_of self (p, t, n) = nor
    /\ length pos = 3%nat /\ length tex = 2%nat /\ length nor = 3%nat.
Proof.
  unfold corner_in_range. intros [[Hp Ht]%andb_true_iff Hn]%andb_true_iff.
  unfold resolve_position, resolve_texcoord, resolve_normal,
    position_of, texcoord_of, normal_of.
  assert (exists pos, (if 0 <? p then read (OBJLoader.vertices self) (3 * (p - 1)) 3
                       else Some [float_0; float_0; float_0]) = Some pos
                      /\ (if 0 <? p then slice (OBJLoader.vertices self) (3 * (p - 1)) (3 * (p - 1) + 3)
                          else [float_0; float_0; float_0]) = pos
                      /\ length pos = 3%nat) as (pos & -> & -> & Hlp).
  { destruct (Z.ltb_spec 0 p) as [Hpos|]; [|eauto].
    destruct (read_in_range (OBJLoader.vertices self) 3 p Hpos Hp) as [xs Hxs]; [lia|].
    exists xs. apply read_slice in Hxs as Hs. change (Z.of_nat 3) with 3 in *.
    rewrite Hxs. destruct Hs as [-> ->]. auto. }
  assert (exists tex, (if (0 <? t) && bool_decide (OBJLoader.texcoords self <> [])
                       then read (OBJLoader.texcoords self) (2 * (t - 1)) 2
                       else Some [float_0; float_0]) = Some tex
                      /\ (if (0 <? t) && bool_decide (OBJLoader.texcoords self <> [])
                          then slice (OBJLoader.texcoords self) (2 * (t - 1)) (2 * (t - 1) + 2)
                          else [float_0; float_0]) = tex
                      /\ length tex = 2%nat) as (tex & -> & -> & Hlt).
  { destruct (Z.ltb_spec 0 t) as [Hpos|]; [|eauto]. simpl.
    destruct (bool_decide _); [|eauto].
    destruct (read_in_range (OBJLoader.texcoords self) 2 t Hpos Ht) as [xs Hxs]; [lia|].
    exists xs. apply read_slice in Hxs as Hs. change (Z.of_nat 2) with 2 in *.
    rewrite Hxs. destruct Hs as [-> ->]. auto. }
  assert (exists nor, (if (0 <? n) && bool_decide (OBJLoader.normals self <> [])
                       then read (OBJLoader.normals self) (3 * (n - 1)) 3
                       else Some [float_0; float_0; float_1]) = Some nor
                      /\ (if (0 <? n) && bool_decide (OBJLoader.normals self <> [])
                          then slice (OBJLoader.normals self) (3 * (n - 1)) (3 * (n - 1) + 3)
                          else [float_0; float_0; float_1]) = nor
                      /\ length nor = 3%nat) as (nor & -> & -> & Hln).
  { destruct (Z.ltb_spec 0 n) as [Hpos|]; [|eauto]. simpl.
    destruct (bool_decide _); [|eauto].
    destruct (read_in_range (OBJLoader.normals self) 3 n Hpos Hn) as [xs Hxs]; [lia|].
    exists xs. apply read_slice in Hxs as Hs. change (Z.of_nat 3) with 3 in *.
    rewrite Hxs. destruct Hs as [-> ->]. auto. }
  exists pos, tex, nor. auto 10.
Qed.

(** *** Arrays made of equal-sized records *)

Lemma length_bind_const {A B} (f : A -> list B) (l : list A) (n : nat) :
  (forall x, x ∈ l -> length (f x) = n) -> length (l ≫= f) = (n * length l)%nat.
Proof.
  induction l as [|x l IH]; intros Hf; [simpl; lia|].
  cbn. rewrite length_app, IH, Hf; [lia | now left |].
  intros y Hy. apply Hf. now right.
Qed.

(** The [i]-th record of such an array is what the [i]-th element gave. *)
Lemma slice_bind_const {A B} (f : A -> list B) (l : list A) (n i : nat) (x : A) :
  (forall y, y ∈ l -> length (f y) = n) -> l !! i = Some x ->
  slice (l ≫= f) (Z.of_nat n * Z.of_nat i) (Z.of_nat n * Z.of_nat i + Z.of_nat n) = f x.
Proof.
  intros Hf Hi.
  rewrite <- (take_drop_middle l i x Hi). rewrite bind_app. cbn.
  assert (length (take i l ≫= f) = (n * i)%nat) as Hpre.
  { rewrite (length_bind_const f (take i l) n).
    - rewrite length_take. apply lookup_lt_Some in Hi. lia.
    - intros y Hy. apply Hf. apply elem_of_take in Hy as (j & Hj & _).
      eapply list_elem_of_lookup_2, Hj. }
  replace (Z.of_nat n * Z.of_nat i) with (len (take i l ≫= f)) by (unfold len; lia).
  rewrite slice_prefix. rewrite take_app_length'; [reflexivity|].
  symmetry. apply Hf. eapply list_elem_of_lookup_2, Hi.
Qed.
End Resolution.

Section Parser.
Context {F : Type} `{PyFloat F}.
Implicit Types (self : OBJLoader.t F) (line : string) (stdout : list string).

Lemma slice_tail {A} (l : list A) : slice l 1 (len l) = tail l.
Proof.
  destruct l as [|x l]; [reflexivity|].
  unfold slice, clamp_index, len. cbn [length tail].
  destruct (Z.ltb_spec 1 0); [lia|].
  destruct (Z.ltb_spec (Z.of_nat (S (length l))) 0); [lia|].
  rewrite Z.min_l, Z.min_l by lia.
  change (Z.to_nat 1) with 1%nat. cbn [drop]. rewrite drop_0.
  apply take_ge. lia.
Qed.

(** *** [map(float, tokens)] *)

Lemma floats_Ok (tokens : list string) (xs : list F) :
  OBJLoader.floats tokens = Ok xs -> length xs = length tokens.
Proof.
  revert xs. induction tokens as [|tok rest IH]; intros xs; simpl.
  - now intros [= <-].
  - destruct (float tok); [|discriminate].
    destruct (OBJLoader.floats rest) as [ys|]; [|discriminate].
    simpl. intros [= <-]. simpl. now rewrite (IH ys).
Qed.

Lemma floats_raises (tokens : list string) (tok : string) :
  tok ∈ tokens -> float tok = None -> OBJLoader.floats tokens = Raise ValueError.
Proof.
  intros Hin Hf. induction tokens as [|tok' rest IH]; [inversion Hin|]. simpl.
  apply elem_of_cons in Hin as [<- | Hin]; [now rewrite Hf|].
  destruct (float tok'); [|reflexivity]. now rewrite IH.
Qed.

(** *** The references of a face *)

Lemma face_refs_app (xs ys : list string) :
  OBJLoader.face_refs (xs ++ ys)
  = OBJLoader.face_refs xs ≫= fun cs =>
    OBJLoader.face_refs ys ≫= fun ds => Ok (cs ++ ds).
Proof.
  induction xs as [|x xs IH]; simpl.
  - destruct (OBJLoader.face_refs ys); reflexivity.
  - destruct (OBJLoader.face_ref x); [|reflexivity]. simpl.
    rewrite IH. destruct (OBJLoader.face_refs xs); [|reflexivity]. simpl.
    destruct (OBJLoader.face_refs ys); reflexivity.
Qed.

Lemma face_refs_length (refs : list string) (cs : list corner) :
  OBJLoader.face_refs refs = Ok cs -> length cs = length refs.
Proof.
  revert cs. induction refs as [|ref rest IH]; intros cs; simpl.
  - now intros [= <-].
  - destruct (OBJLoader.face_ref ref); [|discriminate]. simpl.
    destruct (OBJLoader.face_refs rest) as [ds|]; [|discriminate].
    simpl. intros [= <-]. simpl. now rewrite (IH ds).
Qed.

(** *** One line *)

Lemma code_of_skipped line : skipped line = true -> code_of line = None.
Proof. unfold code_of. now intros ->. Qed.

Lemma code_of_parts line code rest :
  skipped line = false -> split line = code :: rest -> code_of line = Some code.
Proof. unfold code_of. now intros -> ->. Qed.

Lemma face_tokens_other line code :
  code_of line = code -> code <> Some "f"%string -> face_tokens line = [].
Proof.
  intros Hc Hne. unfold face_tokens, is_face_line.
  rewrite bool_decide_false; [reflexivity | congruence].
Qed.

(** What a line does to the face stream: it appends the corners of its
    reference tokens, none unless it is a face line. *)
Lemma parse_line_indices self stdout line self' stdout' :
  OBJLoader.parse_line (self, stdout) line = Ok (self', stdout') ->
  exists cs, OBJLoader.face_refs (face_tokens line) = Ok cs
             /\ OBJLoader.indices self' = OBJLoader.indices self ++ OBJLoader.flatten cs.
Proof.
  unfold OBJLoader.parse_line. fold (skipped line).
  destruct (skipped line) eqn:Hskip.
  { intros [= <- <-]. exists []. rewrite (face_tokens_other line None);
      [now rewrite app_nil_r | now apply code_of_skipped | discriminate]. }
  destruct (split line) as [|code rest] eqn:Hparts; [discriminate|].
  pose proof (code_of_parts line code rest Hskip Hparts) as Hcode.
  repeat case_bool_decide.
  all: try (destruct (OBJLoader.floats _); [|discriminate]; simpl).
  all: try (intros [= <- <-]; exists [];
            rewrite (face_tokens_other line (Some code) Hcode) by congruence;
            simpl; try (unfold OBJLoader.setattr; repeat case_bool_decide; simpl);
            now rewrite app_nil_r).
  subst code. unfold face_tokens, is_face_line.
  rewrite bool_decide_true by assumption. rewrite Hparts.
  rewrite <- Hparts at 1 2. rewrite slice_tail, Hparts. simpl.
  destruct (OBJLoader.face_refs rest) as [cs|]; [|discriminate].
  simpl. intros [= <- <-]. eauto.
Qed.

(** *** The whole file *)

Lemma for_each_parse_line lines self stdout self' stdout' :
  for_each OBJLoader.parse_line lines (self, stdout) = Ok (self', stdout') ->
  exists cs, OBJLoader.face_refs (lines ≫= face_tokens) = Ok cs
             /\ OBJLoader.indices self' = OBJLoader.indices self ++ OBJLoader.flatten cs.
Proof.
  revert self stdout. induction lines as [|line lines IH]; intros self stdout;
    cbn [for_each].
  - intros [= <- <-]. exists []. now rewrite app_nil_r.
  - destruct (OBJLoader.parse_line (self, stdout) line) as [[self1 stdout1]|] eqn:Hline;
      [|discriminate].
    intros Hrest.
    destruct (parse_line_indices _ _ _ _ _ Hline) as (cs & Hcs & Hix).
    destruct (IH _ _ Hrest) as (ds & Hds & Hix').
    exists (cs ++ ds). cbn. rewrite face_refs_app, Hcs, Hds. simpl.
    split; [reflexivity|]. now rewrite Hix', Hix, flatten_app, app_assoc.
Qed.

(** The call of [log_properties] at the end of [__init__] never raises:
    [__init__] returns what the loop over the lines built. *)
Lemma init_eq lines :
  OBJLoader.init lines = for_each OBJLoader.parse_line lines (OBJLoader.empty, []).
Proof.
  unfold OBJLoader.init.
  destruct (for_each _ _ _) as [[self stdout]|e] eqn:Hloop; [|reflexivity].
  simpl. destruct (for_each_parse_line _ _ _ _ _ Hloop) as (cs & _ & Hix).
  simpl in Hix. unfold OBJLoader.log_properties.
  rewrite to_single_index_style_eq. simpl. rewrite Hix, whole_flatten. reflexivity.
Qed.

(** The face stream of a parsed file is made of the corners of its face
    references, in file order. *)
Lemma init_indices lines self stdout :
  OBJLoader.init lines = Ok (self, stdout) ->
  exists cs, OBJLoader.face_refs (lines ≫= face_tokens) = Ok cs
             /\ OBJLoader.indices self = OBJLoader.flatten cs.
Proof.
  rewrite init_eq. intros Hloop.
  destruct (for_each_parse_line _ _ _ _ _ Hloop) as (cs & Hcs & Hix). eauto.
Qed.
End Parser.

Section FirstOccurrence.
Implicit Types (c : corner) (cs seen : list corner) (out : list Z).

Lemma intern_extends cs seen out :
  exists more, snd (fold_left intern cs (seen, out)) = out ++ more.
Proof.
  revert seen out. induction cs as [|c cs IH]; intros seen out; simpl.
  - exists []. now rewrite app_nil_r.
  - destruct (slot seen c) as [k|].
    + destruct (IH seen (out ++ [Z.of_nat k])) as [more ->].
      eexists. now rewrite <- app_assoc.
    + destruct (IH (seen ++ [c]) (out ++ [Z.of_nat (length seen)])) as [more ->].
      eexists. now rewrite <- app_assoc.
Qed.

(** A triple that was not met before gets the next free slot: the number
    of distinct triples met before it. *)
Lemma interned_first cs (i : nat) c :
  cs !! i = Some c -> c ∉ take i cs ->
  snd (interned cs) !! i = Some (Z.of_nat (length (distinct (take i cs)))).
Proof.
  intros Hi Hnew.
  rewrite <- (take_drop_middle cs i c Hi) at 1.
  unfold interned. rewrite fold_left_app. fold (interned (take i cs)).
  destruct (interned_spec (take i cs)) as (_ & Hmem & Hout & _).
  unfold distinct in *. destruct (interned (take i cs)) as [seen out]. simpl in *.
  assert (slot seen c = None) as Hslot by (apply slot_None; now rewrite Hmem).
  rewrite Hslot.
  destruct (intern_extends (drop (S i) cs) (seen ++ [c]) (out ++ [Z.of_nat (length seen)]))
    as [more ->].
  apply Forall2_length in Hout. rewrite length_take in Hout.
  apply lookup_lt_Some in Hi as Hlt.
  rewrite <- app_assoc. rewrite lookup_app_r by lia.
  replace (i - length out)%nat with 0%nat by lia. reflexivity.
Qed.
End FirstOccurrence.

Section Claims.
Context {F : Type} `{PyFloat F}.
Implicit Types (self : OBJLoader.t F) (c : corner) (cs : list corner).

Lemma single_index_Ok self out :
  OBJLoader.to_single_index_style self = Ok out ->
  whole (OBJLoader.indices self) = true
  /\ out = ObjectData.mk
             (distinct (corners (OBJLoader.indices self)) ≫= position_of self)
             (distinct (corners (OBJLoader.indices self)) ≫= texcoord_of self)
             (distinct (corners (OBJLoader.indices self)) ≫= normal_of self)
             (snd (interned (corners (OBJLoader.indices self)))).
Proof.
  rewrite to_single_index_style_eq. simpl.
  destruct (whole _); [|discriminate]. now intros [= <-].
Qed.

(** C1. In the output of [to_single_index_style] two face corners carry
    the same entry of [indices] exactly when their triples are equal, and
    the attribute arrays hold the data of each distinct triple once: they
    are the contributions of the duplicate-free list of the triples met. *)
Theorem single_index_dedup self out :
  OBJLoader.to_single_index_style self = Ok out ->
  let cs := corners (OBJLoader.indices self) in
  length (ObjectData.indices out) = length cs
  /\ (forall (i j : nat) ci cj,
        cs !! i = Some ci -> cs !! j = Some cj ->
        exists si sj,
          ObjectData.indices out !! i = Some si /\ ObjectData.indices out !! j = Some sj
          /\ (ci = cj <-> si = sj))
  /\ NoDup (distinct cs)
  /\ (forall c, c ∈ distinct cs <-> c ∈ cs)
  /\ ObjectData.vertices out = distinct cs ≫= position_of self
  /\ ObjectData.texcoords out = distinct cs ≫= texcoord_of self
  /\ ObjectData.normals out = distinct cs ≫= normal_of self.
Proof.
  intros [_ ->]%single_index_Ok cs. fold cs. simpl.
  destruct (interned_spec cs) as (Hnd & Hmem & Hout & _).
  split; [apply length_interned|].
  split; [|auto].
  intros i j ci cj Hi Hj.
  destruct (Forall2_lookup_l _ _ _ _ _ Hout Hi) as (si & Hsi & Hai).
  destruct (Forall2_lookup_l _ _ _ _ _ Hout Hj) as (sj & Hsj & Haj).
  exists si, sj. repeat split; auto.
  - intros <-. eapply assigned_fun; eassumption.
  - intros <-. eapply assigned_inj; eassumption.
Qed.

Lemma in_range_Forall self :
  indices_in_range self = true ->
  Forall (fun c => corner_in_range self c = true) (corners (OBJLoader.indices self)).
Proof.
  unfold indices_in_range. intros Hr. apply Forall_forall. intros c Hc.
  rewrite forallb_forall in Hr. apply Hr. now apply list_elem_of_In.
Qed.

Lemma in_range_lengths self cs :
  Forall (fun c => corner_in_range self c = true) cs ->
  (forall c, c ∈ cs -> length (position_of self c) = 3%nat)
  /\ (forall c, c ∈ cs -> length (texcoord_of self c) = 2%nat)
  /\ (forall c, c ∈ cs -> length (normal_of self c) = 3%nat).
Proof.
  intros Hall. rewrite Forall_forall in Hall.
  repeat split; intros [[p t] n] Hc;
    destruct (resolve_in_range self p t n (Hall _ Hc))
      as (pos & tex & nor & _ & _ & _ & Hpos & Htex & Hnor & Hp & Ht & Hn);
    congruence.
Qed.

Lemma parsed_whole lines self stdout :
  OBJLoader.init lines = Ok (self, stdout) ->
  whole (OBJLoader.indices self) = true
  /\ length (corners (OBJLoader.indices self)) = length (lines ≫= face_tokens).
Proof.
  intros (cs & Hcs & ->)%init_indices.
  rewrite whole_flatten, corners_flatten. split; [reflexivity|].
  now apply face_refs_length.
Qed.

(** C2. For a parsed input whose face indices are in range,
    [to_single_index_style] returns one index per face corner, and its
    slots are dense from 0 and handed out in first-occurrence order: the
    largest is the number of output vertices minus one, every slot below
    the number of vertices occurs, and a triple not met before gets the
    number of distinct triples met before it. *)
Theorem single_index_dense lines self stdout :
  OBJLoader.init lines = Ok (self, stdout) ->
  indices_in_range self = true ->
  exists out,
    OBJLoader.to_single_index_style self = Ok out
    /\ let cs := corners (OBJLoader.indices self) in
       length cs = length (lines ≫= face_tokens)
       /\ len (ObjectData.indices out) = len cs
       /\ len (ObjectData.vertices out) = 3 * len (distinct cs)
       /\ (cs <> [] ->
           exists m, max_of (ObjectData.indices out) = Some m
                     /\ m + 1 = len (ObjectData.vertices out) / 3)
       /\ (forall k, 0 <= k < len (ObjectData.vertices out) / 3 ->
                     k ∈ ObjectData.indices out)
       /\ (forall (i : nat) c, cs !! i = Some c -> c ∉ take i cs ->
             ObjectData.indices out !! i = Some (len (distinct (take i cs)))).
Proof.
  intros Hinit Hrange.
  destruct (parsed_whole _ _ _ Hinit) as [Hwhole Hcount].
  rewrite to_single_index_style_eq. cbv zeta. rewrite Hwhole.
  eexists. split; [reflexivity|]. simpl.
  set (cs := corners (OBJLoader.indices self)) in *.
  destruct (interned_spec cs) as (_ & Hmem & _ & Hall).
  assert (len (distinct cs ≫= position_of self) = 3 * len (distinct cs)) as Hlen.
  { unfold len. rewrite (length_bind_const _ _ 3); [lia|].
    intros c Hc. apply (in_range_lengths self cs); [now apply in_range_Forall|].
    now apply Hmem. }
  rewrite Hlen. rewrite (Z.mul_comm 3), Z.div_mul by lia.
  repeat split.
  - exact Hcount.
  - unfold len. now rewrite length_interned.
  - intros Hne. eexists. split; [now apply max_of_interned|]. unfold len. lia.
  - intros k Hk. unfold len in Hk.
    replace k with (Z.of_nat (Z.to_nat k)) by lia. apply Hall. lia.
  - intros i c Hi Hnew. exact (interned_first cs i c Hi Hnew).
Qed.

(** C3. For a parsed input whose face indices are in range,
    [to_array_style] returns one vertex per face corner, and the position,
    the texture coordinate and the normal of the [i]-th vertex are the
    ones the resolution rule gives for the [i]-th corner. *)
Theorem array_style_corners lines self stdout :
  OBJLoader.init lines = Ok (self, stdout) ->
  indices_in_range self = true ->
  exists out,
    OBJLoader.to_array_style self = Ok out
    /\ let cs := corners (OBJLoader.indices self) in
       length cs = length (lines ≫= face_tokens)
       /\ len (ObjectData.vertices out) = 3 * len cs
       /\ ObjectData.indices out = range 0 (len cs) 1
       /\ (forall (i : nat) p t n, cs !! i = Some (p, t, n) ->
             exists pos tex nor,
               resolve_position self p = Some pos
               /\ resolve_texcoord self t = Some tex
               /\ resolve_normal self n = Some nor
               /\ slice (ObjectData.vertices out) (3 * Z.of_nat i) (3 * Z.of_nat i + 3) = pos
               /\ slice (ObjectData.texcoords out) (2 * Z.of_nat i) (2 * Z.of_nat i + 2) = tex
               /\ slice (ObjectData.normals out) (3 * Z.of_nat i) (3 * Z.of_nat i + 3) = nor).
Proof.
  intros Hinit Hrange.
  destruct (parsed_whole _ _ _ Hinit) as [Hwhole Hcount].
  rewrite to_array_style_eq. cbv zeta. rewrite Hwhole.
  eexists. split; [reflexivity|].
  set (cs := corners (OBJLoader.indices self)) in *.
  pose proof (in_range_Forall self Hrange) as Hall. fold cs in Hall.
  destruct (in_range_lengths self cs Hall) as (Hp & Ht & Hn).
  assert (len (cs ≫= position_of self) = 3 * len cs) as Hlen
    by (unfold len; rewrite (length_bind_const _ _ 3 Hp); lia).
  unfold ObjectData.new. cbn [ObjectData.vertices ObjectData.texcoords
    ObjectData.normals ObjectData.indices].
  rewrite Hlen. rewrite (Z.mul_comm 3), Z.div_mul by lia.
  split; [exact Hcount|]. split; [lia|]. split; [reflexivity|].
  intros i p t n Hi.
  rewrite Forall_forall in Hall.
  destruct (resolve_in_range self p t n (Hall _ (list_elem_of_lookup_2 _ _ _ Hi)))
    as (pos & tex & nor & Hrp & Hrt & Hrn & Hpos & Htex & Hnor & _).
  exists pos, tex, nor. repeat split; try assumption.
  - rewrite <- Hpos. apply (slice_bind_const (position_of self) cs 3 i _ Hp Hi).
  - rewrite <- Htex. apply (slice_bind_const (texcoord_of self) cs 2 i _ Ht Hi).
  - rewrite <- Hnor. apply (slice_bind_const (normal_of self) cs 3 i _ Hn Hi).
Qed.

(** C6. Both conversions append, for each corner they resolve, the same
    three contributions, and these substitute the fixed defaults: position
    [(0.0, 0.0, 0.0)] for index 0, texture coordinate [(0.0, 0.0)] for
    index 0 or an empty table, normal [(0.0, 0.0, 1.0)] for index 0 or an
    empty table. *)
Theorem default_substitution self :
  (forall t n, position_of self (0, t, n) = [float_0; float_0; float_0]
               /\ resolve_position self 0 = Some [float_0; float_0; float_0])
  /\ (forall p n, texcoord_of self (p, 0, n) = [float_0; float_0]
                  /\ resolve_texcoord self 0 = Some [float_0; float_0])
  /\ (forall p t n, OBJLoader.texcoords self = [] ->
                    texcoord_of self (p, t, n) = [float_0; float_0]
                    /\ resolve_texcoord self t = Some [float_0; float_0])
  /\ (forall p t, normal_of self (p, t, 0) = [float_0; float_0; float_1]
                  /\ resolve_normal self 0 = Some [float_0; float_0; float_1])
  /\ (forall p t n, OBJLoader.normals self = [] ->
                    normal_of self (p, t, n) = [float_0; float_0; float_1]
                    /\ resolve_normal self n = Some [float_0; float_0; float_1])
  /\ OBJLoader.to_array_style self
     = (let cs := corners (OBJLoader.indices self) in
        if whole (OBJLoader.indices self)
        then Ok (ObjectData.new (cs ≫= position_of self) (cs ≫= texcoord_of self)
                   (cs ≫= normal_of self) None)
        else Raise ValueError)
  /\ OBJLoader.to_single_index_style self
     = (let cs := corners (OBJLoader.indices self) in
        if whole (OBJLoader.indices self)
        then Ok (ObjectData.mk (distinct cs ≫= position_of self)
                   (distinct cs ≫= texcoord_of self) (distinct cs ≫= normal_of self)
                   (snd (interned cs)))
        else Raise ValueError).
Proof.
  repeat split; try reflexivity;
    try (apply to_array_style_eq); try (apply to_single_index_style_eq);
    unfold texcoord_of, resolve_texcoord, normal_of, resolve_normal;
    match goal with Hempty : _ = [] |- _ => rewrite Hempty end;
    now rewrite andb_false_r.
Qed.



End Claims.

(** ** Characters of tokens, and the sign of [int] *)

Section Text.
Implicit Types (c : ascii) (s tok : string).










End Text.

Section Faces.
Context {F : Type} `{PyFloat F}.
Implicit Types (self : OBJLoader.t F) (line ref sub : string).







(** *** Attribute lines *)

Lemma attribute_tokens_code line tok :
  tok ∈ attribute_tokens line ->
  skipped line = false
  /\ exists code rest, split line = code :: rest
       /\ (code = "v" \/ code = "vn" \/ code = "vt")%string.
Proof.
  unfold attribute_tokens, code_of.
  destruct (skipped line); [intros Hin; inversion Hin|].
  destruct (split line) as [|code rest]; [intros Hin; inversion Hin|]. simpl.
  repeat case_bool_decide; intros Hin; try (inversion Hin; fail);
    (split; [reflexivity|]); exists code, rest; (split; [reflexivity|]); tauto.
Qed.

(** A [v], [vn] or [vt] line converts its tokens and appends them. *)
Lemma parse_line_attribute self stdout line :
  attribute_tokens line <> [] ->
  OBJLoader.parse_line (self, stdout) line
  = OBJLoader.floats (attribute_tokens line) ≫= fun xs =>
      Ok (match code_of line with
          | Some "v"%string => OBJLoader.set_vertices self (OBJLoader.vertices self ++ xs)
          | Some "vn"%string => OBJLoader.set_normals self (OBJLoader.normals self ++ xs)
          | _ => OBJLoader.set_texcoords self (OBJLoader.texcoords self ++ xs)
          end, stdout).
Proof.
  intros Hne. destruct (attribute_tokens line) as [|tok toks] eqn:Htoks; [congruence|].
  destruct (attribute_tokens_code line tok) as (Hskip & code & rest & Hparts & Hcode);
    [rewrite Htoks; now left|].
  rewrite <- Htoks. clear Htoks Hne.
  unfold OBJLoader.parse_line, attribute_tokens, code_of. fold (skipped line).
  rewrite Hskip, Hparts. simpl.
  destruct Hcode as [-> | [-> | ->]]; reflexivity.
Qed.

Lemma length_slice_1 {A} (l : list A) (b : Z) :
  1 <= b -> len (slice l 1 b) = Z.max 0 (Z.min (b - 1) (len l - 1)).
Proof.
  intros Hb. unfold slice, clamp_index, len.
  destruct (Z.ltb_spec 1 0); [lia|]. destruct (Z.ltb_spec b 0); [lia|].
  rewrite length_take, length_drop. lia.
Qed.

End Faces.

Section OutOfRange.
Context {F : Type} `{PyFloat F}.
Implicit Types (self : OBJLoader.t F).

Lemma length_slice {A} (l : list A) (a b : Z) :
  0 <= a -> a <= b ->
  len (slice l a b) = Z.min b (len l) - Z.min a (len l).
Proof.
  intros Ha Hb. unfold slice, clamp_index, len.
  destruct (Z.ltb_spec a 0); [lia|]. destruct (Z.ltb_spec b 0); [lia|].
  rewrite length_take, length_drop. lia.
Qed.

Lemma slice_beyond {A} (l : list A) (a b : Z) :
  len l <= a -> a <= b -> slice l a b = [].
Proof.
  intros Ha Hb. apply length_zero_iff_nil.
  pose proof (length_slice l a b) as Hlen. unfold len in *. lia.
Qed.

(** C4, amended. Neither conversion of a parsed input raises, whatever
    its face indices. A corner whose position index exceeds the number of
    stored positions, for which the rule of the specification has no
    value, contributes the slice [positions[3(p-1):3(p-1)+3]]: fewer than
    three floats, and none at all from [3(p-1) >= len(positions)] on. *)
Theorem out_of_range_truncates lines self stdout :
  OBJLoader.init lines = Ok (self, stdout) ->
  exists arr one,
    OBJLoader.to_array_style self = Ok arr
    /\ OBJLoader.to_single_index_style self = Ok one
    /\ ObjectData.vertices arr = corners (OBJLoader.indices self) ≫= position_of self
    /\ ObjectData.vertices one
       = distinct (corners (OBJLoader.indices self)) ≫= position_of self
    /\ (forall p t n, position_count self < p ->
          resolve_position self p = None
          /\ position_of self (p, t, n)
             = slice (OBJLoader.vertices self) (3 * (p - 1)) (3 * (p - 1) + 3)
          /\ len (position_of self (p, t, n)) < 3
          /\ (len (OBJLoader.vertices self) <= 3 * (p - 1) ->
              position_of self (p, t, n) = [])).
Proof.
  intros Hinit. destruct (parsed_whole _ _ _ Hinit) as [Hwhole _].
  rewrite to_array_style_eq, to_single_index_style_eq. cbv zeta. rewrite Hwhole.
  eexists. eexists. split; [reflexivity|]. split; [reflexivity|].
  split; [reflexivity|]. split; [reflexivity|].
  intros p t n Hp. unfold position_count in Hp.
  assert (0 <= len (OBJLoader.vertices self)) as Hnn by (unfold len; lia).
  assert (0 <= len (OBJLoader.vertices self) / 3) as Hq by (apply Z.div_pos; lia).
  assert (len (OBJLoader.vertices self) < 3 * p) as Hlt.
  { pose proof (Z.mul_succ_div_gt (len (OBJLoader.vertices self)) 3). lia. }
  unfold resolve_position, position_of, read.
  destruct (Z.ltb_spec 0 p); [|lia].
  repeat split.
  - destruct (Z.leb_spec 0 (3 * (p - 1))); [|reflexivity].
    destruct (Z.leb_spec (3 * (p - 1) + Z.of_nat 3) (len (OBJLoader.vertices self)));
      [lia | reflexivity].
  - rewrite length_slice by lia. lia.
  - intros Hfar. apply slice_beyond; lia.
Qed.
End OutOfRange.

(** ** The sample inputs *)

(** C4, as stated, fails: with three positions the face [f 999 1 2] is
    converted without an error, and the first corner leaves no position in
    the output. *)
Lemma out_of_range_accepted :
  OBJLoader.init far_lines = Ok (far_loader, [])
  /\ position_count far_loader = 3
  /\ corners (OBJLoader.indices far_loader) = [(999, 0, 0); (1, 0, 0); (2, 0, 0)]
  /\ resolve_position far_loader 999 = None
  /\ OBJLoader.to_array_style far_loader
     = Ok (ObjectData.mk
             [float_0; float_0; float_0; float_1; float_0; float_0]
             [float_0; float_0; float_0; float_0; float_0; float_0]
             [float_0; float_0; float_1; float_0; float_0; float_1;
              float_0; float_0; float_1]
             [0; 1])
  /\ OBJLoader.to_single_index_style far_loader
     = Ok (ObjectData.mk
             [float_0; float_0; float_0; float_1; float_0; float_0]
             [float_0; float_0; float_0; float_0; float_0; float_0]
             [float_0; float_0; float_1; float_0; float_0; float_1;
              float_0; float_0; float_1]
             [0; 1; 2]).
Proof. vm_compute. repeat split; reflexivity. Qed.

Lemma out_of_range_truncates_witness :
  exists arr one,
    OBJLoader.to_array_style far_loader = Ok arr
    /\ OBJLoader.to_single_index_style far_loader = Ok one
    /\ ObjectData.vertices arr = corners (OBJLoader.indices far_loader) ≫= position_of far_loader
    /\ ObjectData.vertices one
       = distinct (corners (OBJLoader.indices far_loader)) ≫= position_of far_loader
    /\ (forall p t n, position_count far_loader < p ->
          resolve_position far_loader p = None
          /\ position_of far_loader (p, t, n)
             = slice (OBJLoader.vertices far_loader) (3 * (p - 1)) (3 * (p - 1) + 3)
          /\ len (position_of far_loader (p, t, n)) < 3
          /\ (len (OBJLoader.vertices far_loader) <= 3 * (p - 1) ->
              position_of far_loader (p, t, n) = [])).
Proof.
  apply (out_of_range_truncates far_lines far_loader []).
  vm_compute. reflexivity.
Defined.

(** C5, as stated, fails: the line [v 1.0 2.0] is accepted, and the loader
    holds the two floats. *)
Lemma short_position_accepted :
  OBJLoader.init short_lines = Ok (short_loader, [])
  /\ attribute_tokens (eol "v 1.0 2.0") = ["1.0"; "2.0"]
  /\ OBJLoader.vertices short_loader = [float_1; double_2].
Proof. vm_compute. repeat split; reflexivity. Qed.




(** A token that is not a number stops the parse. *)
Example bad_position_rejected : OBJLoader.init bad_lines = Raise ValueError.
Proof. vm_compute. reflexivity. Qed.

(** Three corners, two distinct triples: the third corner reuses slot 0 and
    adds nothing to the arrays. *)
Example repeated_triple_interned :
  OBJLoader.init fold_lines ≫= (fun '(self, _) => OBJLoader.to_single_index_style self)
  = Ok (ObjectData.mk
          [float_0; float_0; float_0; float_1; float_0; float_0]
          [float_0; float_1; float_0; float_0]
          [float_0; float_0; float_1; float_0; float_0; float_1]
          [0; 1; 0]).
Proof. vm_compute. reflexivity. Qed.


(** C7. Four positions and the faces [f 1 2 3] and [f 1 3 4]: the
    single-index layout holds the four positions once each and the index
    list [[0,1,2, 0,2,3]]; the array layout holds six vertices, those of
    positions 1 and 3 twice. The text of the example parses to such a
    loader. *)
Theorem shared_vertex_example :
  OBJLoader.init quad_lines = Ok (quad_loader, [])
  /\ forall (F : Type) (PF : PyFloat F) (x1 y1 z1 x2 y2 z2 x3 y3 z3 x4 y4 z4 : F),
       let self :=
         OBJLoader.mk [x1; y1; z1; x2; y2; z2; x3; y3; z3; x4; y4; z4] [] []
           quad_indices None None None in
       OBJLoader.to_single_index_style self
       = Ok (ObjectData.mk
               [x1; y1; z1; x2; y2; z2; x3; y3; z3; x4; y4; z4]
               [float_0; float_0; float_0; float_0; float_0; float_0; float_0; float_0]
               [float_0; float_0; float_1; float_0; float_0; float_1;
                float_0; float_0; float_1; float_0; float_0; float_1]
               [0; 1; 2; 0; 2; 3])
       /\ OBJLoader.to_array_style self
          = Ok (ObjectData.mk
                  [x1; y1; z1; x2; y2; z2; x3; y3; z3;
                   x1; y1; z1; x3; y3; z3; x4; y4; z4]
                  [float_0; float_0; float_0; float_0; float_0; float_0;
                   float_0; float_0; float_0; float_0; float_0; float_0]
                  [float_0; float_0; float_1; float_0; float_0; float_1;
                   float_0; float_0; float_1; float_0; float_0; float_1;
                   float_0; float_0; float_1; float_0; float_0; float_1]
                  [0; 1; 2; 3; 4; 5]).
Proof.
  split; [vm_compute; reflexivity|].
  intros F PF x1 y1 z1 x2 y2 z2 x3 y3 z3 x4 y4 z4 self.
  split; vm_compute; reflexivity.
Qed.

Lemma single_index_dedup_witness :
  let cs := corners (OBJLoader.indices quad_loader) in
  length (ObjectData.indices quad_single) = length cs
  /\ (forall (i j : nat) ci cj,
        cs !! i = Some ci -> cs !! j = Some cj ->
        exists si sj,
          ObjectData.indices quad_single !! i = Some si /\ ObjectData.indices quad_single !! j = Some sj
          /\ (ci = cj <-> si = sj))
  /\ NoDup (distinct cs)
  /\ (forall c, c ∈ distinct cs <-> c ∈ cs)
  /\ ObjectData.vertices quad_single = distinct cs ≫= position_of quad_loader
  /\ ObjectData.texcoords quad_single = distinct cs ≫= texcoord_of quad_loader
  /\ ObjectData.normals quad_single = distinct cs ≫= normal_of quad_loader.
Proof.
  apply (single_index_dedup quad_loader quad_single). vm_compute. reflexivity.
Defined.

Lemma single_index_dense_witness :
  exists out,
    OBJLoader.to_single_index_style quad_loader = Ok out
    /\ let cs := corners (OBJLoader.indices quad_loader) in
       length cs = length (quad_lines ≫= face_tokens)
       /\ len (ObjectData.indices out) = len cs
       /\ len (ObjectData.vertices out) = 3 * len (distinct cs)
       /\ (cs <> [] ->
           exists m, max_of (ObjectData.indices out) = Some m
                     /\ m + 1 = len (ObjectData.vertices out) / 3)
       /\ (forall k, 0 <= k < len (ObjectData.vertices out) / 3 ->
                     k ∈ ObjectData.indices out)
       /\ (forall (i : nat) c, cs !! i = Some c -> c ∉ take i cs ->
             ObjectData.indices out !! i = Some (len (distinct (take i cs)))).
Proof.
  apply (single_index_dense quad_lines quad_loader []); vm_compute; reflexivity.
Defined.

Lemma array_style_corners_witness :
  exists out,
    OBJLoader.to_array_style quad_loader = Ok out
    /\ let cs := corners (OBJLoader.indices quad_loader) in
       length cs = length (quad_lines ≫= face_tokens)
       /\ len (ObjectData.vertices out) = 3 * len cs
       /\ ObjectData.indices out = range 0 (len cs) 1
       /\ (forall (i : nat) p t n, cs !! i = Some (p, t, n) ->
             exists pos tex nor,
               resolve_position quad_loader p = Some pos
               /\ resolve_texcoord quad_loader t = Some tex
               /\ resolve_normal quad_loader n = Some nor
               /\ slice (ObjectData.vertices out) (3 * Z.of_nat i) (3 * Z.of_nat i + 3) = pos
               /\ slice (ObjectData.texcoords out) (2 * Z.of_nat i) (2 * Z.of_nat i + 2) = tex
               /\ slice (ObjectData.normals out) (3 * Z.of_nat i) (3 * Z.of_nat i + 3) = nor).
Proof.
  apply (array_style_corners quad_lines quad_loader []); vm_compute; reflexivity.
Defined.


(** ** The conversions on the store *)

Section StoreRuns.
Context {F : Type} `{PyFloat F}.
Implicit Types (σ : Store.store F) (self : Store.loader) (v t n ix : Store.loc).

Lemma run_get_ints {A} r (k : list Z -> Store.M F A) σ :
  (Store.get_ints r ≫= k) σ = k (Store.ints σ !!! r) σ.
Proof. reflexivity. Qed.

Lemma run_get_floats {A} r (k : list F -> Store.M F A) σ :
  (Store.get_floats r ≫= k) σ = k (Store.floats σ !!! r) σ.
Proof. reflexivity. Qed.

Lemma run_lift {A B} (o : outcome A) (k : A -> Store.M F B) σ :
  (Store.lift o ≫= k) σ
  = match o with Ok a => k a σ | Raise e => (Raise e, σ) end.
Proof. destruct o; reflexivity. Qed.

Lemma run_extend {A} r xs (k : unit -> Store.M F A) σ :
  (Store.extend_floats r xs ≫= k) σ
  = k tt (Store.mk_store (<[r := Store.floats σ !!! r ++ xs]> (Store.floats σ))
            (Store.ints σ)).
Proof. reflexivity. Qed.

Lemma run_append {A} r x (k : unit -> Store.M F A) σ :
  (Store.append_int r x ≫= k) σ
  = k tt (Store.mk_store (Store.floats σ)
            (<[r := Store.ints σ !!! r ++ [x]]> (Store.ints σ))).
Proof. reflexivity. Qed.

Lemma run_ret {A B} (a : A) (k : A -> Store.M F B) σ : (mret a ≫= k) σ = k a σ.
Proof. reflexivity. Qed.

(** *** The locals of [to_array_style] *)

Lemma fresh3_alloc σ :
  let v := fresh (dom (Store.floats σ)) in
  let t := fresh (dom (<[v := []]> (Store.floats σ))) in
  let n := fresh (dom (<[t := []]> (<[v := []]> (Store.floats σ)))) in
  fresh3 σ v t n.
Proof.
  intros v t n.
  pose proof (is_fresh (dom (Store.floats σ))) as Hv. fold v in Hv.
  pose proof (is_fresh (dom (<[v := []]> (Store.floats σ)))) as Ht. fold t in Ht.
  pose proof (is_fresh (dom (<[t := []]> (<[v := []]> (Store.floats σ))))) as Hn.
  fold n in Hn.
  rewrite !dom_insert_L in Hn. rewrite dom_insert_L in Ht.
  unfold fresh3. set_solver.
Qed.

Lemma array_store_old σ v t n st r :
  fresh3 σ v t n -> r ∈ dom (Store.floats σ) ->
  Store.floats (array_store σ v t n st) !!! r = Store.floats σ !!! r.
Proof.
  intros (Hv & Ht & Hn & _) Hr. unfold array_store. simpl.
  rewrite !lookup_total_insert_ne by (intros ->; contradiction). reflexivity.
Qed.

Lemma array_store_extend_v σ v t n vs ts ns xs :
  fresh3 σ v t n ->
  Store.mk_store
    (<[v := Store.floats (array_store σ v t n (vs, ts, ns)) !!! v ++ xs]>
       (Store.floats (array_store σ v t n (vs, ts, ns))))
    (Store.ints (array_store σ v t n (vs, ts, ns)))
  = array_store σ v t n (vs ++ xs, ts, ns).
Proof.
  intros (_ & _ & _ & Hvt & Hvn & Htn). unfold array_store. simpl. f_equal.
  rewrite !lookup_total_insert_ne by congruence. rewrite lookup_total_insert_eq.
  rewrite (insert_insert_ne _ v n) by congruence.
  rewrite (insert_insert_ne _ v t) by congruence.
  now rewrite insert_insert_eq.
Qed.

Lemma array_store_extend_t σ v t n vs ts ns xs :
  fresh3 σ v t n ->
  Store.mk_store
    (<[t := Store.floats (array_store σ v t n (vs, ts, ns)) !!! t ++ xs]>
       (Store.floats (array_store σ v t n (vs, ts, ns))))
    (Store.ints (array_store σ v t n (vs, ts, ns)))
  = array_store σ v t n (vs, ts ++ xs, ns).
Proof.
  intros (_ & _ & _ & Hvt & Hvn & Htn). unfold array_store. simpl. f_equal.
  rewrite !lookup_total_insert_ne by congruence. rewrite lookup_total_insert_eq.
  rewrite (insert_insert_ne _ t n) by congruence.
  now rewrite insert_insert_eq.
Qed.

Lemma array_store_extend_n σ v t n vs ts ns xs :
  fresh3 σ v t n ->
  Store.mk_store
    (<[n := Store.floats (array_store σ v t n (vs, ts, ns)) !!! n ++ xs]>
       (Store.floats (array_store σ v t n (vs, ts, ns))))
    (Store.ints (array_store σ v t n (vs, ts, ns)))
  = array_store σ v t n (vs, ts, ns ++ xs).
Proof.
  intros _. unfold array_store. simpl. f_equal.
  rewrite lookup_total_insert_eq. now rewrite insert_insert_eq.
Qed.

(** One round of the loop on the store is one round on the values. *)
Lemma array_step_run σ self v t n st i :
  fresh3 σ v t n -> Store.allocated σ self ->
  Store.array_step self v t n tt i (array_store σ v t n st)
  = match OBJLoader.array_step (Store.read_loader σ self) st i with
    | Ok st' => (Ok tt, array_store σ v t n st')
    | Raise e => (Raise e, array_store σ v t n st)
    end.
Proof.
  intros Hfresh (Hsv & Hsn & Hst & Hsi). destruct st as [[vs ts] ns].
  unfold Store.array_step, OBJLoader.array_step.
  rewrite run_get_ints. change (Store.ints (array_store σ v t n (vs, ts, ns)))
    with (Store.ints σ).
  change (OBJLoader.indices (Store.read_loader σ self))
    with (Store.ints σ !!! Store.indices self).
  rewrite run_lift.
  destruct (unpack3 _) as [[[p q] r]|e]; [|reflexivity].
  cbn [mbind outcome_bind].
  change (OBJLoader.vertices (Store.read_loader σ self))
    with (Store.floats σ !!! Store.vertices self).
  change (OBJLoader.texcoords (Store.read_loader σ self))
    with (Store.floats σ !!! Store.texcoords self).
  change (OBJLoader.normals (Store.read_loader σ self))
    with (Store.floats σ !!! Store.normals self).
  assert (forall (k : unit -> Store.M F unit) ws,
    ((if 0 <? p
      then xs ← Store.get_floats (Store.vertices self);
           Store.extend_floats v (slice xs (3 * (p - 1)) (3 * (p - 1) + 3))
      else Store.extend_floats v [float_0; float_0; float_0]) ≫= k)
      (array_store σ v t n (ws, ts, ns))
    = k tt (array_store σ v t n
              (if 0 <? p
               then ws ++ slice (Store.floats σ !!! Store.vertices self)
                             (3 * (p - 1)) (3 * (p - 1) + 3)
               else ws ++ [float_0; float_0; float_0], ts, ns))) as Hpos.
  { intros k ws. destruct (0 <? p).
    - unfold mbind at 1, Store.M_bind at 1. rewrite run_get_floats.
      rewrite (array_store_old _ _ _ _ _ _ Hfresh Hsv).
      unfold Store.extend_floats at 1. now rewrite array_store_extend_v.
    - rewrite run_extend. now rewrite array_store_extend_v. }
  rewrite Hpos. clear Hpos.
  rewrite run_get_floats, (array_store_old _ _ _ _ _ _ Hfresh Hst).
  set (vs' := if 0 <? p then _ else _).
  assert (forall (k : unit -> Store.M F unit),
    ((if (0 <? q) && bool_decide (Store.floats σ !!! Store.texcoords self <> [])
      then Store.extend_floats t
             (slice (Store.floats σ !!! Store.texcoords self) (2 * (q - 1)) (2 * (q - 1) + 2))
      else Store.extend_floats t [float_0; float_0]) ≫= k)
      (array_store σ v t n (vs', ts, ns))
    = k tt (array_store σ v t n
              (vs',
               if (0 <? q) && bool_decide (Store.floats σ !!! Store.texcoords self <> [])
               then ts ++ slice (Store.floats σ !!! Store.texcoords self)
                             (2 * (q - 1)) (2 * (q - 1) + 2)
               else ts ++ [float_0; float_0], ns))) as Htex.
  { intros k. destruct ((0 <? q) && _);
      rewrite run_extend; now rewrite array_store_extend_t. }
  rewrite Htex. clear Htex.
  rewrite run_get_floats, (array_store_old _ _ _ _ _ _ Hfresh Hsn).
  set (ts' := if (0 <? q) && _ then _ else _).
  destruct ((0 <? r) && _);
    unfold Store.extend_floats; now rewrite array_store_extend_n.
Qed.

Lemma array_loop_run σ self v t n st (offs : list Z) :
  fresh3 σ v t n -> Store.allocated σ self ->
  exists st',
    Store.for_each (Store.array_step self v t n) offs tt (array_store σ v t n st)
    = (match for_each (OBJLoader.array_step (Store.read_loader σ self)) offs st with
       | Ok _ => Ok tt
       | Raise e => Raise e
       end, array_store σ v t n st')
    /\ (forall st'', for_each (OBJLoader.array_step (Store.read_loader σ self)) offs st
                     = Ok st'' -> st' = st'').
Proof.
  intros Hfresh Halloc. revert st.
  induction offs as [|i offs IH]; intros st.
  - exists st. split; [reflexivity|]. simpl. now intros st'' [= <-].
  - cbn [Store.for_each for_each].
    unfold mbind at 1, Store.M_bind at 1.
    rewrite (array_step_run _ _ _ _ _ _ _ Hfresh Halloc).
    destruct (OBJLoader.array_step _ st i) as [st1|e].
    + apply IH.
    + exists st. split; [reflexivity | discriminate].
Qed.

Lemma extends_refl σ : extends σ σ.
Proof. split; reflexivity. Qed.

Lemma extends_trans σ1 σ2 σ3 : extends σ1 σ2 -> extends σ2 σ3 -> extends σ1 σ3.
Proof.
  intros [Hf Hi] [Hf' Hi']. split; intros r Hr.
  - rewrite Hf', Hf; [reflexivity | assumption |].
    apply elem_of_dom. rewrite Hf by assumption. now apply elem_of_dom.
  - rewrite Hi', Hi; [reflexivity | assumption |].
    apply elem_of_dom. rewrite Hi by assumption. now apply elem_of_dom.
Qed.

Lemma extends_floats_total σ σ' r :
  extends σ σ' -> r ∈ dom (Store.floats σ) ->
  Store.floats σ' !!! r = Store.floats σ !!! r /\ r ∈ dom (Store.floats σ').
Proof.
  intros [Hf _] Hr. split.
  - unfold lookup_total, map_lookup_total. now rewrite Hf.
  - apply elem_of_dom. rewrite Hf by assumption. now apply elem_of_dom.
Qed.

Lemma extends_ints_total σ σ' r :
  extends σ σ' -> r ∈ dom (Store.ints σ) ->
  Store.ints σ' !!! r = Store.ints σ !!! r /\ r ∈ dom (Store.ints σ').
Proof.
  intros [_ Hi] Hr. split.
  - unfold lookup_total, map_lookup_total. now rewrite Hi.
  - apply elem_of_dom. rewrite Hi by assumption. now apply elem_of_dom.
Qed.

(** A store that extends another one holds the same loader. *)
Lemma extends_loader σ σ' self :
  extends σ σ' -> Store.allocated σ self ->
  Store.allocated σ' self /\ Store.read_loader σ' self = Store.read_loader σ self.
Proof.
  intros Hext (Hv & Hn & Ht & Hi).
  destruct (extends_floats_total _ _ _ Hext Hv) as [Ev Dv].
  destruct (extends_floats_total _ _ _ Hext Hn) as [En Dn].
  destruct (extends_floats_total _ _ _ Hext Ht) as [Et Dt].
  destruct (extends_ints_total _ _ _ Hext Hi) as [Ei Di].
  split; [repeat split; assumption|].
  unfold Store.read_loader. now rewrite Ev, En, Et, Ei.
Qed.

(** ... and the same results. *)
Lemma extends_object σ σ' d :
  extends σ σ' -> object_in σ d ->
  object_in σ' d /\ Store.read_object_data σ' d = Store.read_object_data σ d.
Proof.
  intros Hext (Hv & Ht & Hn & Hi).
  destruct (extends_floats_total _ _ _ Hext Hv) as [Ev Dv].
  destruct (extends_floats_total _ _ _ Hext Hn) as [En Dn].
  destruct (extends_floats_total _ _ _ Hext Ht) as [Et Dt].
  destruct (extends_ints_total _ _ _ Hext Hi) as [Ei Di].
  split; [repeat split; assumption|].
  unfold Store.read_object_data. now rewrite Ev, En, Et, Ei.
Qed.

Lemma extends_array_store σ v t n st :
  fresh3 σ v t n -> extends σ (array_store σ v t n st).
Proof.
  intros (Hv & Ht & Hn & _). split; intros r Hr; [|reflexivity].
  unfold array_store. simpl.
  rewrite !lookup_insert_ne by (intros ->; contradiction). reflexivity.
Qed.

Lemma to_array_style_run σ self :
  Store.allocated σ self ->
  exists r σ',
    Store.to_array_style self σ = (r, σ')
    /\ extends σ σ'
    /\ returns σ' r (OBJLoader.to_array_style (Store.read_loader σ self))
    /\ (forall d, r = Ok d -> fresh_in σ d).
Proof.
  intros Halloc.
  pose proof (fresh3_alloc σ) as Hfresh. cbv zeta in Hfresh.
  set (v := fresh (dom (Store.floats σ))) in *.
  set (t := fresh (dom (<[v := []]> (Store.floats σ)))) in *.
  set (n := fresh (dom (<[t := []]> (<[v := []]> (Store.floats σ))))) in *.
  assert (Store.to_array_style self σ
          = (_ ← Store.for_each (Store.array_step self v t n)
                   (range 0 (len (Store.ints σ !!! Store.indices self)) 3) tt;
             Store.new_object_data v t n None) (array_store σ v t n ([], [], [])))
    as -> by reflexivity.
  destruct (array_loop_run σ self v t n ([], [], [])
              (range 0 (len (Store.ints σ !!! Store.indices self)) 3) Hfresh Halloc)
    as (st' & Hloop & Hst').
  unfold mbind at 1, Store.M_bind at 1. rewrite Hloop.
  unfold OBJLoader.to_array_style.
  change (OBJLoader.indices (Store.read_loader σ self))
    with (Store.ints σ !!! Store.indices self).
  destruct (for_each (OBJLoader.array_step _) _ _) as [st''|e].
  - rewrite (Hst' st'' eq_refl). destruct st'' as [[vs ts] ns].
    pose proof (is_fresh (dom (Store.ints σ))) as Hix.
    set (ix := fresh (dom (Store.ints σ))) in *.
    pose proof Hfresh as (Hv & Ht & Hn & Hvt & Hvn & Htn).
    assert (Store.new_object_data v t n None (array_store σ v t n (vs, ts, ns))
            = (Ok (Store.mk_object_data v t n ix),
               Store.mk_store (Store.floats (array_store σ v t n (vs, ts, ns)))
                 (<[ix := range 0 (len (Store.floats (array_store σ v t n (vs, ts, ns))
                                        !!! v) / 3) 1]> (Store.ints σ))))
      as -> by reflexivity.
    eexists. eexists. split; [reflexivity|]. simpl.
    rewrite !lookup_total_insert_ne by congruence. rewrite lookup_total_insert_eq.
    split; [|split].
    + split; intros r Hr; simpl.
      * rewrite !lookup_insert_ne by (intros ->; contradiction). reflexivity.
      * rewrite lookup_insert_ne by (intros ->; contradiction). reflexivity.
    + eexists. split; [reflexivity|]. split.
      * unfold Store.read_object_data, ObjectData.new. simpl.
        rewrite !lookup_total_insert_ne by congruence.
        rewrite !lookup_total_insert_eq.
        rewrite !lookup_total_insert_ne by congruence.
        now rewrite !lookup_total_insert_eq.
      * unfold object_in. simpl. rewrite !dom_insert_L. set_solver.
    + intros d [= <-]. unfold fresh_in. simpl. auto.
  - eexists. eexists. split; [reflexivity|].
    split; [now apply extends_array_store|]. split; [reflexivity | discriminate].
Qed.

(** *** The locals of [to_single_index_style] *)

Lemma single_store_old σ v t n ix st r :
  fresh3 σ v t n -> r ∈ dom (Store.floats σ) ->
  Store.floats (single_store σ v t n ix st) !!! r = Store.floats σ !!! r.
Proof.
  intros (Hv & Ht & Hn & _) Hr. unfold single_store. simpl.
  rewrite !lookup_total_insert_ne by (intros ->; contradiction). reflexivity.
Qed.

Lemma single_store_indices σ v t n ix st r :
  ix ∉ dom (Store.ints σ) -> r ∈ dom (Store.ints σ) ->
  Store.ints (single_store σ v t n ix st) !!! r = Store.ints σ !!! r.
Proof.
  intros Hix Hr. unfold single_store. simpl.
  rewrite lookup_total_insert_ne by (intros ->; contradiction). reflexivity.
Qed.

Lemma single_store_extend_v σ v t n ix vs ts ns out comb xs :
  fresh3 σ v t n ->
  Store.mk_store
    (<[v := Store.floats (single_store σ v t n ix (OBJLoader.mk_single vs ts ns out comb))
            !!! v ++ xs]>
       (Store.floats (single_store σ v t n ix (OBJLoader.mk_single vs ts ns out comb))))
    (Store.ints (single_store σ v t n ix (OBJLoader.mk_single vs ts ns out comb)))
  = single_store σ v t n ix (OBJLoader.mk_single (vs ++ xs) ts ns out comb).
Proof.
  intros (_ & _ & _ & Hvt & Hvn & Htn). unfold single_store. simpl. f_equal.
  rewrite !lookup_total_insert_ne by congruence. rewrite lookup_total_insert_eq.
  rewrite (insert_insert_ne _ v n) by congruence.
  rewrite (insert_insert_ne _ v t) by congruence.
  now rewrite insert_insert_eq.
Qed.

Lemma single_store_extend_t σ v t n ix vs ts ns out comb xs :
  fresh3 σ v t n ->
  Store.mk_store
    (<[t := Store.floats (single_store σ v t n ix (OBJLoader.mk_single vs ts ns out comb))
            !!! t ++ xs]>
       (Store.floats (single_store σ v t n ix (OBJLoader.mk_single vs ts ns out comb))))
    (Store.ints (single_store σ v t n ix (OBJLoader.mk_single vs ts ns out comb)))
  = single_store σ v t n ix (OBJLoader.mk_single vs (ts ++ xs) ns out comb).
Proof.
  intros (_ & _ & _ & Hvt & Hvn & Htn). unfold single_store. simpl. f_equal.
  rewrite !lookup_total_insert_ne by congruence. rewrite lookup_total_insert_eq.
  rewrite (insert_insert_ne _ t n) by congruence.
  now rewrite insert_insert_eq.
Qed.

Lemma single_store_extend_n σ v t n ix vs ts ns out comb xs :
  Store.mk_store
    (<[n := Store.floats (single_store σ v t n ix (OBJLoader.mk_single vs ts ns out comb))
            !!! n ++ xs]>
       (Store.floats (single_store σ v t n ix (OBJLoader.mk_single vs ts ns out comb))))
    (Store.ints (single_store σ v t n ix (OBJLoader.mk_single vs ts ns out comb)))
  = single_store σ v t n ix (OBJLoader.mk_single vs ts (ns ++ xs) out comb).
Proof.
  unfold single_store. simpl. f_equal.
  rewrite lookup_total_insert_eq. now rewrite insert_insert_eq.
Qed.

Lemma single_store_append σ v t n ix vs ts ns out comb comb' x :
  Store.mk_store
    (Store.floats (single_store σ v t n ix (OBJLoader.mk_single vs ts ns out comb)))
    (<[ix := Store.ints (single_store σ v t n ix (OBJLoader.mk_single vs ts ns out comb))
             !!! ix ++ [x]]>
       (Store.ints (single_store σ v t n ix (OBJLoader.mk_single vs ts ns out comb))))
  = single_store σ v t n ix (OBJLoader.mk_single vs ts ns (out ++ [x]) comb').
Proof.
  unfold single_store. simpl. f_equal.
  rewrite lookup_total_insert_eq. now rewrite insert_insert_eq.
Qed.

Lemma single_step_run σ self v t n ix st i :
  fresh3 σ v t n -> ix ∉ dom (Store.ints σ) -> Store.allocated σ self ->
  Store.single_step self v t n ix (OBJLoader.combinations st) i
    (single_store σ v t n ix st)
  = match OBJLoader.single_step (Store.read_loader σ self) st i with
    | Ok st' => (Ok (OBJLoader.combinations st'), single_store σ v t n ix st')
    | Raise e => (Raise e, single_store σ v t n ix st)
    end.
Proof.
  intros Hfresh Hix (Hsv & Hsn & Hst & Hsi). destruct st as [vs ts ns out comb].
  unfold Store.single_step, OBJLoader.single_step.
  rewrite run_get_ints, (single_store_indices _ _ _ _ _ _ _ Hix Hsi).
  change (OBJLoader.indices (Store.read_loader σ self))
    with (Store.ints σ !!! Store.indices self).
  rewrite run_lift.
  destruct (unpack3 _) as [[[p q] r]|e]; [|reflexivity].
  cbn [mbind outcome_bind OBJLoader.combinations OBJLoader.s_vertices
         OBJLoader.s_texcoords OBJLoader.s_normals OBJLoader.s_indices].
  change (OBJLoader.vertices (Store.read_loader σ self))
    with (Store.floats σ !!! Store.vertices self).
  change (OBJLoader.texcoords (Store.read_loader σ self))
    with (Store.floats σ !!! Store.texcoords self).
  change (OBJLoader.normals (Store.read_loader σ self))
    with (Store.floats σ !!! Store.normals self).
  destruct (comb !! (p, q, r)) as [k|] eqn:Hkey.
  - rewrite run_ret. cbn [OBJLoader.combinations OBJLoader.s_vertices
      OBJLoader.s_texcoords OBJLoader.s_normals OBJLoader.s_indices].
    rewrite Hkey. rewrite run_append.
    now rewrite (single_store_append _ _ _ _ _ _ _ _ _ _ comb).
  - cbn [OBJLoader.combinations OBJLoader.s_vertices
      OBJLoader.s_texcoords OBJLoader.s_normals OBJLoader.s_indices].
    rewrite lookup_insert_eq.
    set (comb' := <[(p, q, r) := Z.of_nat (size comb)]> comb).
    unfold mbind at 1, Store.M_bind at 1.
    assert (forall ws,
      ((if 0 <? p
        then xs ← Store.get_floats (Store.vertices self);
             Store.extend_floats v (slice xs (3 * (p - 1)) (3 * (p - 1) + 3))
        else Store.extend_floats v [float_0; float_0; float_0]))
        (single_store σ v t n ix (OBJLoader.mk_single ws ts ns out comb))
      = (Ok tt, single_store σ v t n ix
           (OBJLoader.mk_single
              (if 0 <? p
               then ws ++ slice (Store.floats σ !!! Store.vertices self)
                             (3 * (p - 1)) (3 * (p - 1) + 3)
               else ws ++ [float_0; float_0; float_0]) ts ns out comb))) as Hpos.
    { intros ws. destruct (0 <? p).
      - rewrite run_get_floats, (single_store_old _ _ _ _ _ _ _ Hfresh Hsv).
        unfold Store.extend_floats. now rewrite single_store_extend_v.
      - unfold Store.extend_floats. now rewrite single_store_extend_v. }
    unfold mbind at 1, Store.M_bind at 1. rewrite Hpos. clear Hpos.
    set (vs' := if 0 <? p then _ else _).
    rewrite run_get_floats, (single_store_old _ _ _ _ _ _ _ Hfresh Hst).
    assert (
      ((if (0 <? q) && bool_decide (Store.floats σ !!! Store.texcoords self <> [])
        then Store.extend_floats t
               (slice (Store.floats σ !!! Store.texcoords self)
                  (2 * (q - 1)) (2 * (q - 1) + 2))
        else Store.extend_floats t [float_0; float_0]))
        (single_store σ v t n ix (OBJLoader.mk_single vs' ts ns out comb))
      = (Ok tt, single_store σ v t n ix
           (OBJLoader.mk_single vs'
              (if (0 <? q) && bool_decide (Store.floats σ !!! Store.texcoords self <> [])
               then ts ++ slice (Store.floats σ !!! Store.texcoords self)
                             (2 * (q - 1)) (2 * (q - 1) + 2)
               else ts ++ [float_0; float_0]) ns out comb))) as Htex.
    { destruct ((0 <? q) && _);
        unfold Store.extend_floats; now rewrite single_store_extend_t. }
    unfold mbind at 1, Store.M_bind at 1. rewrite Htex. clear Htex.
    set (ts' := if (0 <? q) && _ then _ else _).
    rewrite run_get_floats, (single_store_old _ _ _ _ _ _ _ Hfresh Hsn).
    assert (
      ((if (0 <? r) && bool_decide (Store.floats σ !!! Store.normals self <> [])
        then Store.extend_floats n
               (slice (Store.floats σ !!! Store.normals self)
                  (3 * (r - 1)) (3 * (r - 1) + 3))
        else Store.extend_floats n [float_0; float_0; float_1]))
        (single_store σ v t n ix (OBJLoader.mk_single vs' ts' ns out comb))
      = (Ok tt, single_store σ v t n ix
           (OBJLoader.mk_single vs' ts'
              (if (0 <? r) && bool_decide (Store.floats σ !!! Store.normals self <> [])
               then ns ++ slice (Store.floats σ !!! Store.normals self)
                             (3 * (r - 1)) (3 * (r - 1) + 3)
               else ns ++ [float_0; float_0; float_1]) out comb))) as Hnor.
    { destruct ((0 <? r) && _);
        unfold Store.extend_floats; now rewrite single_store_extend_n. }
    unfold mbind at 1, Store.M_bind at 1. rewrite Hnor. clear Hnor.
    cbn [mret Store.M_ret]. subst comb'. rewrite lookup_insert_eq.
    rewrite run_append.
    now rewrite (single_store_append _ _ _ _ _ _ _ _ _ _
                   (<[(p, q, r) := Z.of_nat (size comb)]> comb)).
Qed.

Lemma single_loop_run σ self v t n ix st (offs : list Z) :
  fresh3 σ v t n -> ix ∉ dom (Store.ints σ) -> Store.allocated σ self ->
  exists st',
    Store.for_each (Store.single_step self v t n ix) offs (OBJLoader.combinations st)
      (single_store σ v t n ix st)
    = (match for_each (OBJLoader.single_step (Store.read_loader σ self)) offs st with
       | Ok st'' => Ok (OBJLoader.combinations st'')
       | Raise e => Raise e
       end, single_store σ v t n ix st')
    /\ (forall st'', for_each (OBJLoader.single_step (Store.read_loader σ self)) offs st
                     = Ok st'' -> st' = st'').
Proof.
  intros Hfresh Hix Halloc. revert st.
  induction offs as [|i offs IH]; intros st.
  - exists st. split; [reflexivity|]. simpl. now intros st'' [= <-].
  - cbn [Store.for_each for_each].
    unfold mbind at 1, Store.M_bind at 1.
    rewrite (single_step_run _ _ _ _ _ _ _ _ Hfresh Hix Halloc).
    destruct (OBJLoader.single_step _ st i) as [st1|e].
    + apply IH.
    + exists st. split; [reflexivity | discriminate].
Qed.

Lemma extends_single_store σ v t n ix st :
  fresh3 σ v t n -> ix ∉ dom (Store.ints σ) -> extends σ (single_store σ v t n ix st).
Proof.
  intros (Hv & Ht & Hn & _) Hix. split; intros r Hr; unfold single_store; simpl.
  - rewrite !lookup_insert_ne by (intros ->; contradiction). reflexivity.
  - rewrite lookup_insert_ne by (intros ->; contradiction). reflexivity.
Qed.

Lemma to_single_index_style_run σ self :
  Store.allocated σ self ->
  exists r σ',
    Store.to_single_index_style self σ = (r, σ')
    /\ extends σ σ'
    /\ returns σ' r (OBJLoader.to_single_index_style (Store.read_loader σ self))
    /\ (forall d, r = Ok d -> fresh_in σ d).
Proof.
  intros Halloc.
  pose proof (fresh3_alloc σ) as Hfresh. cbv zeta in Hfresh.
  set (v := fresh (dom (Store.floats σ))) in *.
  set (t := fresh (dom (<[v := []]> (Store.floats σ)))) in *.
  set (n := fresh (dom (<[t := []]> (<[v := []]> (Store.floats σ))))) in *.
  pose proof (is_fresh (dom (Store.ints σ))) as Hix.
  set (ix := fresh (dom (Store.ints σ))) in *.
  set (st0 := OBJLoader.mk_single (F:=F) [] [] [] [] ∅).
  assert (Store.to_single_index_style self σ
          = (_ ← Store.for_each (Store.single_step self v t n ix)
                   (range 0 (len (Store.ints (single_store σ v t n ix st0)
                                  !!! Store.indices self)) 3) (OBJLoader.combinations st0);
             Store.new_object_data v t n (Some ix)) (single_store σ v t n ix st0))
    as -> by reflexivity.
  destruct Halloc as (Hsv & Hsn & Hst & Hsi).
  rewrite (single_store_indices _ _ _ _ _ _ _ Hix Hsi).
  destruct (single_loop_run σ self v t n ix st0
              (range 0 (len (Store.ints σ !!! Store.indices self)) 3) Hfresh Hix
              (conj Hsv (conj Hsn (conj Hst Hsi))))
    as (st' & Hloop & Hst').
  unfold mbind at 1, Store.M_bind at 1. rewrite Hloop.
  unfold OBJLoader.to_single_index_style.
  change (OBJLoader.indices (Store.read_loader σ self))
    with (Store.ints σ !!! Store.indices self).
  fold st0.
  destruct (for_each (OBJLoader.single_step _) _ _) as [st''|e].
  - rewrite (Hst' st'' eq_refl). destruct st'' as [vs ts ns out comb].
    pose proof Hfresh as (Hv & Ht & Hn & Hvt & Hvn & Htn).
    eexists. eexists. split; [reflexivity|].
    split; [now apply extends_single_store|]. split.
    + eexists. split; [reflexivity|]. split.
      * unfold Store.read_object_data, single_store. simpl.
        rewrite !lookup_total_insert_ne by congruence.
        rewrite !lookup_total_insert_eq.
        rewrite !lookup_total_insert_ne by congruence.
        now rewrite !lookup_total_insert_eq.
      * unfold object_in, single_store. simpl. rewrite !dom_insert_L. set_solver.
    + intros d [= <-]. unfold fresh_in. simpl. auto.
  - eexists. eexists. split; [reflexivity|].
    split; [now apply extends_single_store|]. split; [reflexivity | discriminate].
Qed.

(** A call of either conversion: the store grows, the outcome is the one
    of the conversion on values, and a result is made of new lists. *)
Lemma call_run σ self m :
  Store.allocated σ self ->
  exists r σ',
    Store.call self m σ = (r, σ')
    /\ extends σ σ'
    /\ returns σ' r (convert m (Store.read_loader σ self))
    /\ (forall d, r = Ok d -> fresh_in σ d).
Proof.
  destruct m; [apply to_array_style_run | apply to_single_index_style_run].
Qed.

Lemma returns_extends σ σ' r o : extends σ σ' -> returns σ r o -> returns σ' r o.
Proof.
  intros Hext. destruct o as [D|e]; [|exact id].
  intros (d & -> & Hread & Hin).
  destruct (extends_object _ _ _ Hext Hin) as [Hin' Hread'].
  exists d. split; [reflexivity|]. split; [congruence | assumption].
Qed.

Lemma fresh_in_extends σ σ' d : extends σ σ' -> fresh_in σ' d -> fresh_in σ d.
Proof.
  intros Hext (Hv & Ht & Hn & Hi).
  repeat split; intros Hin;
    [apply Hv | apply Ht | apply Hn | apply Hi];
    first [ now apply (extends_floats_total _ _ _ Hext)
          | now apply (extends_ints_total _ _ _ Hext) ].
Qed.

Lemma calls_run ms : forall σ self rs σ',
  Store.allocated σ self -> Store.calls self ms σ = (rs, σ') ->
  extends σ σ'
  /\ Forall2 (fun m r => returns σ' r (convert m (Store.read_loader σ self))) ms rs
  /\ (forall d, Ok d ∈ rs -> fresh_in σ d).
Proof.
  induction ms as [|m ms IH]; intros σ self rs σ' Halloc; cbn [Store.calls].
  - intros [= <- <-]. split; [apply extends_refl|]. split; [constructor|].
    intros d Hd. inversion Hd.
  - destruct (call_run σ self m Halloc) as (r & σ1 & -> & Hext & Hret & Hnew).
    destruct (Store.calls self ms σ1) as [rs1 σ2] eqn:Hrest.
    intros [= <- <-].
    destruct (extends_loader _ _ _ Hext Halloc) as [Halloc1 Hread1].
    destruct (IH _ _ _ _ Halloc1 Hrest) as (Hext' & Hall & Hnew').
    split; [eapply extends_trans; eassumption|]. split.
    + constructor; [eapply returns_extends; eassumption|].
      now rewrite Hread1 in Hall.
    + intros d [Hd | Hd]%elem_of_cons.
      * apply Hnew. congruence.
      * eapply fresh_in_extends; [exact Hext | now apply Hnew'].
Qed.

(** C8. Calls of [to_array_style] and [to_single_index_style], in any
    number and order, leave the four lists of the loader as they were
    (the store only grows, and every result is made of lists of its own);
    each call returns what the conversion of the unchanged lists is, so
    that two calls of [to_single_index_style] return equal contents. *)
Theorem conversions_leave_loader σ self ms rs σ' :
  Store.allocated σ self ->
  Store.calls self ms σ = (rs, σ') ->
  extends σ σ'
  /\ Store.allocated σ' self
  /\ Store.read_loader σ' self = Store.read_loader σ self
  /\ Forall2 (fun m r => returns σ' r (convert m (Store.read_loader σ self))) ms rs
  /\ (forall d, Ok d ∈ rs -> fresh_in σ d)
  /\ (forall (i j : nat) d1 d2,
        ms !! i = Some Store.SingleIndexStyle -> ms !! j = Some Store.SingleIndexStyle ->
        rs !! i = Some (Ok d1) -> rs !! j = Some (Ok d2) ->
        Store.read_object_data σ' d1 = Store.read_object_data σ' d2).
Proof.
  intros Halloc Hcalls.
  destruct (calls_run ms σ self rs σ' Halloc Hcalls) as (Hext & Hall & Hnew).
  destruct (extends_loader _ _ _ Hext Halloc) as [Halloc' Hread].
  repeat (split; [assumption|]).
  intros i j d1 d2 Hmi Hmj Hri Hrj.
  destruct (Forall2_lookup_l _ _ _ _ _ Hall Hmi) as (r1 & Hr1 & Hret1).
  destruct (Forall2_lookup_l _ _ _ _ _ Hall Hmj) as (r2 & Hr2 & Hret2).
  rewrite Hri in Hr1. rewrite Hrj in Hr2.
  injection Hr1 as <-. injection Hr2 as <-.
  unfold returns in *.
  destruct (convert _ _) as [D|e]; [|discriminate].
  destruct Hret1 as (d & [= <-] & <- & _). destruct Hret2 as (d' & [= <-] & Heq & _).
  now rewrite Heq.
Qed.
End StoreRuns.


Lemma conversions_leave_loader_witness :
  let σ := snd (Store.install quad_loader) in
  let self := fst (Store.install quad_loader) in
  let ms := [Store.SingleIndexStyle; Store.ArrayStyle; Store.SingleIndexStyle] in
  let rs := fst (Store.calls self ms σ) in
  let σ' := snd (Store.calls self ms σ) in
  extends σ σ'
  /\ Store.allocated σ' self
  /\ Store.read_loader σ' self = Store.read_loader σ self
  /\ Forall2 (fun m r => returns σ' r (convert m (Store.read_loader σ self))) ms rs
  /\ (forall d, Ok d ∈ rs -> fresh_in σ d)
  /\ (forall (i j : nat) d1 d2,
        ms !! i = Some Store.SingleIndexStyle -> ms !! j = Some Store.SingleIndexStyle ->
        rs !! i = Some (Ok d1) -> rs !! j = Some (Ok d2) ->
        Store.read_object_data σ' d1 = Store.read_object_data σ' d2).
Proof.
  apply (conversions_leave_loader (snd (Store.install quad_loader))
           (fst (Store.install quad_loader))).
  - repeat split; apply elem_of_dom; eexists; vm_compute; reflexivity.
  - apply surjective_pairing.
Defined.

(** ** The parser as four passes over the file *)

Section Lines.
Implicit Types (line tok s : string).

Lemma split_from_token tok s : tok <> EmptyString -> split_from tok s <> [].
Proof.
  revert tok. induction s as [|c s IH]; intros tok Htok; simpl.
  - destruct tok; [congruence | discriminate].
  - destruct (isspace c).
    + destruct tok; [congruence | discriminate].
    + apply IH. destruct tok; discriminate.
Qed.

Lemma lstrip_head s c r : lstrip s = String c r -> isspace c = false.
Proof.
  induction s as [|d s IH]; simpl; [discriminate|].
  destruct (isspace d) eqn:Hd; [exact IH|]. now intros [= <- <-].
Qed.

Lemma rstrip_head c r : isspace c = false -> rstrip (String c r) <> EmptyString.
Proof.
  intros Hc. simpl. destruct (rstrip r); [now rewrite Hc | discriminate].
Qed.

Lemma split_lstrip s : lstrip s = EmptyString -> split s = [].
Proof.
  unfold split. induction s as [|c s IH]; simpl; [reflexivity|].
  destruct (isspace c); [exact IH | discriminate].
Qed.

(** A line with something else than whitespace has a first token: [parts[0]]
    never fails. *)
Lemma split_nonempty line : strip line <> EmptyString -> split line <> [].
Proof.
  unfold strip, split. induction line as [|c s IH]; simpl; [congruence|].
  destruct (isspace c); [exact IH|].
  intros _. apply split_from_token. discriminate.
Qed.

(** A blank line has no token. *)
Lemma split_blank line : strip line = EmptyString -> split line = [].
Proof.
  unfold strip. intros Hs. apply split_lstrip.
  destruct (lstrip line) as [|c r] eqn:Hl; [reflexivity|].
  apply lstrip_head in Hl. now apply rstrip_head in Hs.
Qed.

Lemma skipped_false_parts line :
  skipped line = false -> exists code rest, split line = code :: rest.
Proof.
  unfold skipped. intros [Hs _]%orb_false_iff.
  apply bool_decide_eq_false in Hs. apply split_nonempty in Hs.
  destruct (split line) as [|code rest]; [congruence | eauto].
Qed.

Lemma length_pad3 (subs : list string) : (3 <= length (OBJLoader.pad3 subs))%nat.
Proof. unfold OBJLoader.pad3. rewrite length_app, length_replicate. lia. Qed.

(** The only exception of a face reference is the [ValueError] of [int]. *)
Lemma face_ref_raises ref e : OBJLoader.face_ref ref = Raise e -> e = ValueError.
Proof.
  unfold OBJLoader.face_ref. pose proof (length_pad3 (split_on "/" ref)) as Hlen.
  destruct (OBJLoader.pad3 _) as [|s0 [|s1 [|s2 rest]]]; simpl in Hlen; try lia.
  unfold OBJLoader.index_of.
  repeat match goal with
         | |- context [match ?x with EmptyString => _ | String _ _ => _ end] => destruct x
         | |- context [int ?x] => destruct (int x)
         end; simpl; congruence.
Qed.

Lemma face_refs_raises refs e : OBJLoader.face_refs refs = Raise e -> e = ValueError.
Proof.
  induction refs as [|ref refs IH]; simpl; [discriminate|].
  destruct (OBJLoader.face_ref ref) eqn:Href; simpl.
  - destruct (OBJLoader.face_refs refs); simpl; [discriminate|].
    intros [= <-]. now apply IH.
  - intros [= <-]. now apply face_ref_raises in Href.
Qed.
End Lines.

Section FourPasses.
Context {F : Type} `{PyFloat F}.
Implicit Types (self : OBJLoader.t F) (line : string) (lines : list string).

Lemma has_code_parts line code rest c :
  skipped line = false -> split line = code :: rest ->
  has_code c line = bool_decide (code = c).
Proof.
  intros Hskip Hparts. unfold has_code. rewrite (code_of_parts _ _ _ Hskip Hparts).
  apply bool_decide_ext. split; congruence.
Qed.

Lemma second_token (parts : list string) :
  (if 1 <? len parts then parts !! 1%nat else None) = parts !! 1%nat.
Proof.
  destruct parts as [|a [|b rest]]; try reflexivity.
  unfold len. cbn [length].
  destruct (Z.ltb_spec 1 (Z.of_nat (S (S (length rest))))); [reflexivity | lia].
Qed.

Lemma bind_singleton {A B} (f : A -> list B) (x : A) : [x] ≫= f = f x.
Proof. cbn. apply app_nil_r. Qed.

Lemma extended_nil self : extended self [] [] [] [] [] = self.
Proof. destruct self. unfold extended, latest. simpl. now rewrite !app_nil_r. Qed.

(** One line, as the four passes see it. *)
Lemma parse_line_exact self stdout line :
  OBJLoader.parse_line (self, stdout) line
  = OBJLoader.floats (position_tokens line) ≫= fun vs =>
    OBJLoader.floats (normal_tokens line) ≫= fun ns =>
    OBJLoader.floats (texcoord_tokens line) ≫= fun ts =>
    OBJLoader.face_refs (face_tokens line) ≫= fun cs =>
    Ok (extended self [line] vs ns ts cs, stdout ++ diagnostics line).
Proof.
  unfold OBJLoader.parse_line. fold (skipped line).
  destruct (skipped line) eqn:Hskip.
  { pose proof (code_of_skipped line Hskip) as Hcode.
    unfold extended. rewrite !bind_singleton.
    unfold position_tokens, normal_tokens, texcoord_tokens, face_tokens, is_face_line,
      diagnostics, property_values, has_code.
    rewrite Hcode. simpl. rewrite !app_nil_r. now destruct self. }
  destruct (skipped_false_parts line Hskip) as (code & rest & Hparts).
  pose proof (code_of_parts line code rest Hskip Hparts) as Hcode.
  unfold extended. rewrite !bind_singleton.
  unfold position_tokens, normal_tokens, texcoord_tokens, face_tokens, is_face_line,
    diagnostics, property_values.
  rewrite !(has_code_parts line code rest _ Hskip Hparts).
  rewrite Hcode, Hparts. rewrite slice_tail, second_token. cbn [tail].
  unfold OBJLoader.setattr, OBJLoader.set_vertices, OBJLoader.set_normals,
    OBJLoader.set_texcoords, OBJLoader.set_indices, known_codes, latest.
  destruct (decide (code = "v")) as [-> | Hv]; [code_bool; line_done self|].
  destruct (decide (code = "vn")) as [-> | Hvn]; [code_bool; line_done self|].
  destruct (decide (code = "vt")) as [-> | Hvt]; [code_bool; line_done self|].
  destruct (decide (code = "f")) as [-> | Hf]; [code_bool; line_done self|].
  destruct (decide (code = "s")) as [-> | Hs]; [code_bool; line_done self|].
  destruct (decide (code = "mtllib")) as [-> | Hm]; [code_bool; line_done self|].
  destruct (decide (code = "usemtl")) as [-> | Hu]; [code_bool; line_done self|].
  destruct (decide (code = "g")) as [-> | Hg]; [code_bool; line_done self|].
  code_bool. line_done self.
Qed.

Lemma bind_Ok {A B} (m : outcome A) (f : A -> outcome B) (b : B) :
  m ≫= f = Ok b <-> exists a, m = Ok a /\ f a = Ok b.
Proof.
  destruct m as [a|e]; simpl; split.
  - intros Hf. exists a. auto.
  - intros (a' & Ha & Hf). injection Ha as ->. exact Hf.
  - discriminate.
  - intros (a' & Ha & _). discriminate.
Qed.

Lemma floats_app (xs ys : list string) :
  OBJLoader.floats (xs ++ ys)
  = OBJLoader.floats xs ≫= fun a => OBJLoader.floats ys ≫= fun b => Ok (a ++ b).
Proof.
  induction xs as [|x xs IH]; simpl.
  - destruct (OBJLoader.floats ys); reflexivity.
  - destruct (float x); [|reflexivity]. rewrite IH.
    destruct (OBJLoader.floats xs); [|reflexivity]. simpl.
    destruct (OBJLoader.floats ys); reflexivity.
Qed.

Lemma floats_app_Ok (xs ys : list string) (zs : list F) :
  OBJLoader.floats (xs ++ ys) = Ok zs
  <-> exists a b, OBJLoader.floats xs = Ok a /\ OBJLoader.floats ys = Ok b /\ zs = a ++ b.
Proof.
  rewrite floats_app, bind_Ok. split.
  - intros (a & Ha & (b & Hb & [= <-])%bind_Ok). eauto.
  - intros (a & b & Ha & Hb & ->). exists a. split; [assumption|].
    apply bind_Ok. eauto.
Qed.

Lemma face_refs_app_Ok (xs ys : list string) (zs : list corner) :
  OBJLoader.face_refs (xs ++ ys) = Ok zs
  <-> exists a b, OBJLoader.face_refs xs = Ok a /\ OBJLoader.face_refs ys = Ok b
                  /\ zs = a ++ b.
Proof.
  rewrite face_refs_app, bind_Ok. split.
  - intros (a & Ha & (b & Hb & [= <-])%bind_Ok). eauto.
  - intros (a & b & Ha & Hb & ->). exists a. split; [assumption|].
    apply bind_Ok. eauto.
Qed.

Lemma floats_raises_ValueError (tokens : list string) e :
  OBJLoader.floats tokens = Raise e -> e = ValueError.
Proof.
  induction tokens as [|tok rest IH]; simpl; [discriminate|].
  destruct (float tok); [|now intros [= <-]].
  destruct (OBJLoader.floats rest); simpl; [discriminate|].
  intros [= <-]. now apply IH.
Qed.

Lemma last_app_cases {A} (xs ys : list A) :
  last (xs ++ ys) = match last ys with Some y => Some y | None => last xs end.
Proof.
  destruct ys as [|y ys _] using rev_ind.
  - now rewrite app_nil_r.
  - rewrite app_assoc, !last_snoc. reflexivity.
Qed.

Lemma latest_app old (xs ys : list (option string)) :
  latest (latest old xs) ys = latest old (xs ++ ys).
Proof.
  unfold latest. rewrite last_app_cases.
  destruct (last ys); [reflexivity|]. destruct (last xs); reflexivity.
Qed.

Lemma extended_app self (l1 l2 : list string) v1 n1 t1 (c1 : list corner) v2 n2 t2 c2 :
  extended (extended self l1 v1 n1 t1 c1) l2 v2 n2 t2 c2
  = extended self (l1 ++ l2) (v1 ++ v2) (n1 ++ n2) (t1 ++ t2) (c1 ++ c2).
Proof.
  unfold extended. simpl. rewrite !latest_app, !bind_app, flatten_app, !app_assoc.
  reflexivity.
Qed.

(** The lines from a state on: they are accepted exactly when the four
    passes over the file are, and add what these give. *)
Lemma for_each_parse_line_Ok lines self stdout self' stdout' :
  for_each OBJLoader.parse_line lines (self, stdout) = Ok (self', stdout')
  <-> exists vs ns ts cs,
        OBJLoader.floats (lines ≫= position_tokens) = Ok vs
        /\ OBJLoader.floats (lines ≫= normal_tokens) = Ok ns
        /\ OBJLoader.floats (lines ≫= texcoord_tokens) = Ok ts
        /\ OBJLoader.face_refs (lines ≫= face_tokens) = Ok cs
        /\ self' = extended self lines vs ns ts cs
        /\ stdout' = stdout ++ lines ≫= diagnostics.
Proof.
  revert self stdout. induction lines as [|line lines IH]; intros self stdout.
  - cbn [for_each]. split.
    + intros [= <- <-]. exists [], [], [], [].
      rewrite extended_nil. cbn. now rewrite app_nil_r.
    + intros (vs & ns & ts & cs & [= <-] & [= <-] & [= <-] & [= <-] & -> & ->).
      rewrite extended_nil. cbn. now rewrite app_nil_r.
  - cbn [for_each]. rewrite parse_line_exact.
    change (line :: lines) with ([line] ++ lines).
    setoid_rewrite bind_app. setoid_rewrite bind_singleton.
    split.
    + destruct (OBJLoader.floats (position_tokens line)) as [v1|] eqn:Hv1;
        [|discriminate].
      destruct (OBJLoader.floats (normal_tokens line)) as [n1|] eqn:Hn1; [|discriminate].
      destruct (OBJLoader.floats (texcoord_tokens line)) as [t1|] eqn:Ht1;
        [|discriminate].
      destruct (OBJLoader.face_refs (face_tokens line)) as [c1|] eqn:Hc1; [|discriminate].
      cbn [mbind outcome_bind]. intros Hrest. apply IH in Hrest.
      destruct Hrest as (v2 & n2 & t2 & c2 & Hv & Hn & Ht & Hc & -> & ->).
      exists (v1 ++ v2), (n1 ++ n2), (t1 ++ t2), (c1 ++ c2).
      rewrite extended_app, <- app_assoc.
      repeat split; try reflexivity;
        first [apply floats_app_Ok | apply face_refs_app_Ok];
        do 2 eexists; (split; [eassumption|]); (split; [eassumption | reflexivity]).
    + intros (vs & ns & ts & cs
              & (v1 & v2 & -> & Hv & ->)%floats_app_Ok
              & (n1 & n2 & -> & Hn & ->)%floats_app_Ok
              & (t1 & t2 & -> & Ht & ->)%floats_app_Ok
              & (c1 & c2 & -> & Hc & ->)%face_refs_app_Ok & -> & ->).
      cbn [mbind outcome_bind]. apply IH.
      exists v2, n2, t2, c2. rewrite extended_app, <- app_assoc. auto 10.
Qed.

Lemma for_each_parse_line_raises lines self stdout e :
  for_each OBJLoader.parse_line lines (self, stdout) = Raise e -> e = ValueError.
Proof.
  revert self stdout. induction lines as [|line lines IH]; intros self stdout;
    cbn [for_each]; [discriminate|].
  destruct (OBJLoader.parse_line (self, stdout) line) as [[self1 stdout1]|e'] eqn:Hline.
  - apply IH.
  - intros [= <-]. rewrite parse_line_exact in Hline.
    destruct (OBJLoader.floats (position_tokens line)) eqn:Hv;
      [|injection Hline as <-; now apply floats_raises_ValueError in Hv].
    destruct (OBJLoader.floats (normal_tokens line)) eqn:Hn;
      [|injection Hline as <-; now apply floats_raises_ValueError in Hn].
    destruct (OBJLoader.floats (texcoord_tokens line)) eqn:Ht;
      [|injection Hline as <-; now apply floats_raises_ValueError in Ht].
    destruct (OBJLoader.face_refs (face_tokens line)) eqn:Hc;
      [discriminate | injection Hline as <-; now apply face_refs_raises in Hc].
Qed.
End FourPasses.

(** ** Properties of the parser *)

Section ParserProperties.
Context {F : Type} `{PyFloat F}.
Implicit Types (self : OBJLoader.t F) (line : string) (lines : list string).

(** What [__init__] returns, by the four passes. *)
Lemma init_Ok lines self stdout :
  OBJLoader.init lines = Ok (self, stdout)
  <-> exists vs ns ts cs,
        OBJLoader.floats (lines ≫= position_tokens) = Ok vs
        /\ OBJLoader.floats (lines ≫= normal_tokens) = Ok ns
        /\ OBJLoader.floats (lines ≫= texcoord_tokens) = Ok ts
        /\ OBJLoader.face_refs (lines ≫= face_tokens) = Ok cs
        /\ self = extended OBJLoader.empty lines vs ns ts cs
        /\ stdout = lines ≫= diagnostics.
Proof. rewrite init_eq. apply for_each_parse_line_Ok. Qed.

(** X1. Once the file is open, [__init__] returns a loader or raises
    [ValueError], nothing else: [parts[0]], the three fields of a face
    reference and the closing [log_properties] never fail. *)
Theorem init_raises_only_ValueError lines :
  OBJLoader.init lines = Raise ValueError
  \/ exists self stdout, OBJLoader.init lines = Ok (self, stdout).
Proof.
  rewrite init_eq.
  destruct (for_each OBJLoader.parse_line lines (OBJLoader.empty, []))
    as [[self stdout]|e] eqn:Hloop; [eauto|].
  left. now rewrite (for_each_parse_line_raises _ _ _ _ Hloop).
Qed.

Lemma attribute_tokens_split line :
  attribute_tokens line = position_tokens line ++ normal_tokens line ++ texcoord_tokens line.
Proof.
  unfold attribute_tokens, position_tokens, normal_tokens, texcoord_tokens, has_code.
  destruct (code_of line) as [code|]; [|reflexivity].
  destruct (decide (code = "v")) as [-> | Hv]; [code_bool; now rewrite app_nil_r|].
  destruct (decide (code = "vn")) as [-> | Hvn]; [code_bool; now rewrite app_nil_r|].
  destruct (decide (code = "vt")) as [-> | Hvt]; [code_bool; reflexivity|].
  code_bool. reflexivity.
Qed.

Lemma floats_Ok_iff (tokens : list string) :
  (exists xs, OBJLoader.floats tokens = Ok xs)
  <-> Forall (fun tok => is_Some (float tok)) tokens.
Proof.
  induction tokens as [|tok rest IH]; simpl.
  - split; [constructor | eauto].
  - rewrite Forall_cons, <- IH. destruct (float tok) as [x|].
    + destruct (OBJLoader.floats rest) as [xs|]; simpl.
      * split; eauto.
      * split; [intros [? [=]] | intros [_ [? [=]]]].
    + split; [intros [? [=]] | intros [[? [=]] _]].
Qed.

Lemma index_of_Ok_iff sub :
  (exists z, OBJLoader.index_of sub = Ok z) <-> sub = EmptyString \/ is_Some (int sub).
Proof.
  unfold OBJLoader.index_of. destruct sub as [|c r].
  - split; eauto.
  - destruct (int (String c r)) as [z|].
    + split; eauto.
    + split; [intros [? [=]] | intros [[=] | [? [=]]]].
Qed.

Lemma face_fields_Ok_iff (s0 s1 s2 : string) :
  (exists c, (OBJLoader.index_of s0 ≫= fun v =>
              OBJLoader.index_of s1 ≫= fun t =>
              OBJLoader.index_of s2 ≫= fun n => Ok (v, t, n)) = Ok c)
  <-> Forall (fun sub => sub = EmptyString \/ is_Some (int sub)) [s0; s1; s2].
Proof.
  rewrite !Forall_cons, <- !index_of_Ok_iff.
  destruct (OBJLoader.index_of s0) as [v|]; simpl.
  - destruct (OBJLoader.index_of s1) as [t|]; simpl.
    + destruct (OBJLoader.index_of s2) as [n|]; simpl.
      * split; [intros _; repeat split; eauto; constructor | eauto].
      * split; [intros [? [=]] | intros (_ & _ & [? [=]] & _)].
    + split; [intros [? [=]] | intros (_ & [? [=]] & _)].
  - split; [intros [? [=]] | intros ([? [=]] & _)].
Qed.

Lemma face_ref_Ok_iff ref :
  (exists c, OBJLoader.face_ref ref = Ok c)
  <-> Forall (fun sub => sub = EmptyString \/ is_Some (int sub)) (take 3 (split_on "/" ref)).
Proof.
  unfold OBJLoader.face_ref, OBJLoader.pad3.
  destruct (split_on "/" ref) as [|s0 [|s1 [|s2 rest]]];
    cbn [length Nat.sub replicate app take]; rewrite ?take_0;
    rewrite face_fields_Ok_iff, ?Forall_cons, ?Forall_nil; intuition.
Qed.

Lemma face_refs_Ok_iff (refs : list string) :
  (exists cs, OBJLoader.face_refs refs = Ok cs)
  <-> Forall (fun ref => exists c, OBJLoader.face_ref ref = Ok c) refs.
Proof.
  induction refs as [|ref rest IH]; simpl.
  - split; [constructor | eauto].
  - rewrite Forall_cons, <- IH. destruct (OBJLoader.face_ref ref) as [c|].
    + destruct (OBJLoader.face_refs rest) as [cs|]; simpl.
      * split; eauto.
      * split; [intros [? [=]] | intros [_ [? [=]]]].
    + split; [intros [? [=]] | intros [[? [=]] _]].
Qed.

(** X2. A file is accepted exactly when [float] takes every token that a
    [v], [vn] or [vt] line hands to it, and every one of the first three
    fields of every face reference is empty or taken by [int]; further
    fields, further tokens and all other lines cannot make it fail. *)
Theorem init_accepts_iff lines :
  (exists self stdout, OBJLoader.init lines = Ok (self, stdout))
  <-> Forall (fun tok => is_Some (float tok)) (lines ≫= attribute_tokens)
      /\ Forall (fun ref =>
                   Forall (fun sub => sub = EmptyString \/ is_Some (int sub))
                     (take 3 (split_on "/" ref)))
           (lines ≫= face_tokens).
Proof.
  assert (Forall (fun tok => is_Some (float tok)) (lines ≫= attribute_tokens)
          <-> Forall (fun tok => is_Some (float tok)) (lines ≫= position_tokens)
              /\ Forall (fun tok => is_Some (float tok)) (lines ≫= normal_tokens)
              /\ Forall (fun tok => is_Some (float tok)) (lines ≫= texcoord_tokens))
    as ->.
  { induction lines as [|line lines IH]; [cbn; intuition constructor|].
    change (line :: lines) with ([line] ++ lines).
    rewrite !bind_app, !bind_singleton, !Forall_app, IH, attribute_tokens_split,
      !Forall_app. tauto. }
  rewrite <- !floats_Ok_iff.
  assert (Forall (fun ref =>
                    Forall (fun sub => sub = EmptyString \/ is_Some (int sub))
                      (take 3 (split_on "/" ref))) (lines ≫= face_tokens)
          <-> exists cs, OBJLoader.face_refs (lines ≫= face_tokens) = Ok cs) as ->.
  { rewrite face_refs_Ok_iff. apply Forall_proper; [|reflexivity].
    intros ref. symmetry. apply face_ref_Ok_iff. }
  split.
  - intros (self & stdout & (vs & ns & ts & cs & Hv & Hn & Ht & Hc & _)%init_Ok).
    eauto 10.
  - intros (([vs Hv] & [ns Hn] & [ts Ht]) & [cs Hc]).
    eexists. eexists. apply init_Ok. exists vs, ns, ts, cs. auto 10.
Qed.

(** X3. The three attribute tables of an accepted file are, in file order,
    the floats of tokens 1 to 3 of its [v] lines, of tokens 1 to 3 of its
    [vn] lines and of tokens 1 and 2 of its [vt] lines (a third texture
    coordinate is not read); no line adds more than three floats. *)
Theorem parsed_tables lines self stdout :
  OBJLoader.init lines = Ok (self, stdout) ->
  OBJLoader.floats (lines ≫= position_tokens) = Ok (OBJLoader.vertices self)
  /\ OBJLoader.floats (lines ≫= normal_tokens) = Ok (OBJLoader.normals self)
  /\ OBJLoader.floats (lines ≫= texcoord_tokens) = Ok (OBJLoader.texcoords self)
  /\ (forall line, len (position_tokens line) <= 3 /\ len (normal_tokens line) <= 3
                   /\ len (texcoord_tokens line) <= 2).
Proof.
  intros (vs & ns & ts & cs & Hv & Hn & Ht & Hc & -> & _)%init_Ok.
  repeat split; try assumption;
    unfold position_tokens, normal_tokens, texcoord_tokens;
    destruct (has_code _ line); try (unfold len; simpl; lia);
    rewrite length_slice by lia; unfold len; lia.
Qed.

(** X4. What an accepted file makes [__init__] print is one message per
    line whose leading token is none of the eight known codes, in file
    order, with the line stripped; comments, blank lines and known
    statements print nothing. *)
Theorem parsed_stdout lines self stdout :
  OBJLoader.init lines = Ok (self, stdout) ->
  stdout = lines ≫= diagnostics
  /\ (forall line code, code_of line = Some code ->
        diagnostics line
        = if bool_decide (code ∈ known_codes) then []
          else ["Skipping unknown line: " +:+ strip line])
  /\ (forall line, skipped line = true -> diagnostics line = []).
Proof.
  intros (vs & ns & ts & cs & _ & _ & _ & _ & _ & ->)%init_Ok.
  split; [reflexivity|]. split.
  - intros line code Hcode. unfold diagnostics. now rewrite Hcode.
  - intros line Hskip. unfold diagnostics. now rewrite code_of_skipped.
Qed.

(** X5. The optional properties of an accepted file: [s], [mtllib] and
    [usemtl] hold the second token of the last line of that code (Python's
    [None] when that line has no second token), and the attribute does not
    exist when the file has no such line. *)
Theorem parsed_properties lines self stdout :
  OBJLoader.init lines = Ok (self, stdout) ->
  OBJLoader.s self = last (lines ≫= property_values "s")
  /\ OBJLoader.mtllib self = last (lines ≫= property_values "mtllib")
  /\ OBJLoader.usemtl self = last (lines ≫= property_values "usemtl").
Proof.
  intros (vs & ns & ts & cs & _ & _ & _ & _ & -> & _)%init_Ok.
  unfold extended, latest. simpl.
  repeat split; destruct (last _); reflexivity.
Qed.

Lemma extended_empty_append l1 l2 v1 n1 t1 (c1 : list corner) v2 n2 t2 c2 :
  append_loader (extended OBJLoader.empty l1 v1 n1 t1 c1)
    (extended (F:=F) OBJLoader.empty l2 v2 n2 t2 c2)
  = extended OBJLoader.empty (l1 ++ l2) (v1 ++ v2) (n1 ++ n2) (t1 ++ t2) (c1 ++ c2).
Proof.
  unfold append_loader, extended, latest. simpl.
  rewrite !bind_app, !last_app_cases, flatten_app.
  f_equal; repeat match goal with |- context [last ?l] => destruct (last l) end;
    reflexivity.
Qed.

(** X6. Files compose: the concatenation of two files is accepted exactly
    when both are, and then its tables and its output are those of the
    first followed by those of the second, each optional property being the
    one of the second file when it sets it and of the first otherwise. Face
    indices are not renumbered. *)
Theorem init_app l1 l2 self stdout :
  OBJLoader.init (l1 ++ l2) = Ok (self, stdout)
  <-> exists a out1 b out2,
        OBJLoader.init l1 = Ok (a, out1) /\ OBJLoader.init l2 = Ok (b, out2)
        /\ self = append_loader a b /\ stdout = out1 ++ out2.
Proof.
  rewrite init_Ok. setoid_rewrite init_Ok. rewrite !bind_app. split.
  - intros (vs & ns & ts & cs
            & (v1 & v2 & Hv1 & Hv2 & ->)%floats_app_Ok
            & (n1 & n2 & Hn1 & Hn2 & ->)%floats_app_Ok
            & (t1 & t2 & Ht1 & Ht2 & ->)%floats_app_Ok
            & (c1 & c2 & Hc1 & Hc2 & ->)%face_refs_app_Ok & -> & ->).
    eexists. eexists. eexists. eexists.
    split; [exists v1, n1, t1, c1; auto 10|].
    split; [exists v2, n2, t2, c2; auto 10|].
    split; [now rewrite extended_empty_append | reflexivity].
  - intros (a & out1 & b & out2
            & (v1 & n1 & t1 & c1 & Hv1 & Hn1 & Ht1 & Hc1 & -> & ->)
            & (v2 & n2 & t2 & c2 & Hv2 & Hn2 & Ht2 & Hc2 & -> & ->) & -> & ->).
    exists (v1 ++ v2), (n1 ++ n2), (t1 ++ t2), (c1 ++ c2).
    rewrite extended_empty_append.
    repeat split; first [apply floats_app_Ok | apply face_refs_app_Ok]; eauto 10.
Qed.

Lemma bind_filter_nil {A B} (p : A -> bool) (f : A -> list B) (l : list A) :
  (forall x, p x = false -> f x = []) -> List.filter p l ≫= f = l ≫= f.
Proof.
  intros Hf. induction l as [|x l IH]; [reflexivity|]. simpl.
  destruct (p x) eqn:Hp; cbn; rewrite IH; [reflexivity|]. now rewrite (Hf x Hp).
Qed.

Lemma bind_nil_all {A B} (f : A -> list B) (l : list A) :
  (forall x, x ∈ l -> f x = []) -> l ≫= f = [].
Proof.
  induction l as [|x l IH]; intros Hf; [reflexivity|]. cbn.
  rewrite Hf by left. apply IH. intros y Hy. apply Hf. now right.
Qed.

Lemma is_geometry_line_false line :
  is_geometry_line line = false ->
  position_tokens line = [] /\ normal_tokens line = [] /\ texcoord_tokens line = []
  /\ face_tokens line = [].
Proof.
  unfold is_geometry_line, position_tokens, normal_tokens, texcoord_tokens,
    face_tokens, is_face_line. fold (has_code "f" line).
  intros [[[-> ->]%orb_false_iff ->]%orb_false_iff ->]%orb_false_iff. auto.
Qed.

Lemma is_geometry_line_quiet line : is_geometry_line line = true -> diagnostics line = [].
Proof.
  unfold is_geometry_line, has_code, diagnostics.
  destruct (code_of line) as [code|]; [|reflexivity].
  intros Hg. rewrite bool_decide_true; [reflexivity|].
  unfold known_codes. apply list_elem_of_In. simpl.
  repeat match type of Hg with
         | (_ || _) = true => apply orb_true_iff in Hg as [Hg | Hg]
         end;
    apply bool_decide_eq_true in Hg; injection Hg as ->; tauto.
Qed.

Lemma init_filter_geometry lines self stdout :
  OBJLoader.init lines = Ok (self, stdout) ->
  exists self', OBJLoader.init (List.filter is_geometry_line lines) = Ok (self', [])
                /\ geometry self' = geometry self.
Proof.
  assert (forall {B} (f : string -> list B),
            (forall line, is_geometry_line line = false -> f line = []) ->
            List.filter is_geometry_line lines ≫= f = lines ≫= f) as Hpass
    by (intros B f Hf; now apply bind_filter_nil).
  assert (List.filter is_geometry_line lines ≫= diagnostics = []) as Hquiet.
  { apply bind_nil_all. intros line [_ Hg]%list_elem_of_In%filter_In.
    now apply is_geometry_line_quiet. }
  intros (vs & ns & ts & cs & Hv & Hn & Ht & Hc & -> & _)%init_Ok.
  exists (extended OBJLoader.empty (List.filter is_geometry_line lines) vs ns ts cs).
  split; [|reflexivity].
  apply init_Ok. exists vs, ns, ts, cs. rewrite Hquiet.
  rewrite !Hpass by (intros line Hg; now apply is_geometry_line_false in Hg).
  auto 10.
Qed.

(** X7. Only [v], [vn], [vt] and [f] lines matter to the geometry: deleting
    every other line (comments, blank lines, [s], [mtllib], [usemtl], [g],
    unknown statements) changes neither whether the file is accepted nor
    any of the four tables, and leaves nothing to print. *)
Theorem non_geometry_lines_ignored lines :
  (forall self stdout,
     OBJLoader.init lines = Ok (self, stdout) ->
     exists self', OBJLoader.init (List.filter is_geometry_line lines) = Ok (self', [])
                   /\ geometry self' = geometry self)
  /\ (forall self' stdout',
        OBJLoader.init (List.filter is_geometry_line lines) = Ok (self', stdout') ->
        exists self stdout, OBJLoader.init lines = Ok (self, stdout)
                            /\ geometry self = geometry self').
Proof.
  assert (forall {B} (f : string -> list B),
            (forall line, is_geometry_line line = false -> f line = []) ->
            List.filter is_geometry_line lines ≫= f = lines ≫= f) as Hpass
    by (intros B f Hf; now apply bind_filter_nil).
  split.
  - intros self stdout Hinit. now apply init_filter_geometry with stdout.
  - intros self' stdout' (vs & ns & ts & cs & Hv & Hn & Ht & Hc & -> & _)%init_Ok.
    rewrite !Hpass in Hv, Hn, Ht, Hc
      by (intros line Hg; now apply is_geometry_line_false in Hg).
    exists (extended OBJLoader.empty lines vs ns ts cs), (lines ≫= diagnostics).
    split; [|reflexivity].
    apply init_Ok. exists vs, ns, ts, cs. auto 10.
Qed.

(** X8. On a loader that the loop over the lines built, [log_properties]
    returns: its call of [to_single_index_style] cannot raise, so
    [__init__] fails only when a line does. *)
Theorem log_properties_parsed lines self stdout :
  for_each OBJLoader.parse_line lines (OBJLoader.empty, []) = Ok (self, stdout) ->
  OBJLoader.log_properties self = Ok tt
  /\ OBJLoader.init lines = Ok (self, stdout).
Proof.
  intros Hloop. assert (OBJLoader.init lines = Ok (self, stdout)) as Hinit
    by (now rewrite init_eq).
  split; [|exact Hinit].
  unfold OBJLoader.init in Hinit. rewrite Hloop in Hinit. simpl in Hinit.
  destruct (OBJLoader.log_properties self) as [[]|]; [reflexivity | discriminate].
Qed.
End ParserProperties.

(** ** Properties of the conversions *)

Section ConversionProperties.
Context {F : Type} `{PyFloat F}.
Implicit Types (self : OBJLoader.t F) (c : corner) (cs : list corner).

(** X9. Expanding the single-index layout by its indices gives the array
    layout: when the face indices are in range, every entry of [indices]
    names a stored output vertex, and the position, texture coordinate and
    normal found there are those of the array layout at that corner. *)
Theorem deindexing_round_trip self arr one :
  OBJLoader.to_array_style self = Ok arr ->
  OBJLoader.to_single_index_style self = Ok one ->
  indices_in_range self = true ->
  forall (i : nat) k,
    ObjectData.indices one !! i = Some k ->
    0 <= k < len (ObjectData.vertices one) / 3
    /\ slice (ObjectData.vertices arr) (3 * Z.of_nat i) (3 * Z.of_nat i + 3)
       = slice (ObjectData.vertices one) (3 * k) (3 * k + 3)
    /\ slice (ObjectData.texcoords arr) (2 * Z.of_nat i) (2 * Z.of_nat i + 2)
       = slice (ObjectData.texcoords one) (2 * k) (2 * k + 2)
    /\ slice (ObjectData.normals arr) (3 * Z.of_nat i) (3 * Z.of_nat i + 3)
       = slice (ObjectData.normals one) (3 * k) (3 * k + 3).
Proof.
  rewrite to_array_style_eq, to_single_index_style_eq. cbv zeta.
  destruct (whole _); [|discriminate].
  intros [= <-] [= <-] Hrange i k Hik. simpl in *.
  set (cs := corners (OBJLoader.indices self)) in *.
  destruct (interned_spec cs) as (_ & Hmem & Hout & _).
  destruct (Forall2_lookup_r _ _ _ _ _ Hout Hik) as (c & Hi & j & Hslot & ->).
  apply slot_lookup in Hslot as Hj. apply slot_lt in Hslot as Hlt.
  pose proof (in_range_Forall self Hrange) as Hall. fold cs in Hall.
  destruct (in_range_lengths self cs Hall) as (Hp & Ht & Hn).
  assert (Forall (fun c => corner_in_range self c = true) (distinct cs)) as Hall'.
  { rewrite Forall_forall in *. intros d Hd. apply Hall. now apply Hmem. }
  destruct (in_range_lengths self (distinct cs) Hall') as (Hp' & Ht' & Hn').
  split.
  - unfold len. rewrite (length_bind_const _ _ 3 Hp').
    rewrite Nat2Z.inj_mul, Z.mul_comm, Z.div_mul by lia. lia.
  - repeat split.
    + etransitivity; [apply (slice_bind_const (position_of self) cs 3 i c Hp Hi)|].
      symmetry. apply (slice_bind_const (position_of self) (distinct cs) 3 j c Hp' Hj).
    + etransitivity; [apply (slice_bind_const (texcoord_of self) cs 2 i c Ht Hi)|].
      symmetry. apply (slice_bind_const (texcoord_of self) (distinct cs) 2 j c Ht' Hj).
    + etransitivity; [apply (slice_bind_const (normal_of self) cs 3 i c Hn Hi)|].
      symmetry. apply (slice_bind_const (normal_of self) (distinct cs) 3 j c Hn' Hj).
Qed.

Lemma interned_NoDup cs :
  NoDup cs -> interned cs = (cs, Z.of_nat <$> seq 0 (length cs)).
Proof.
  induction cs as [|c cs IH] using rev_ind; [reflexivity|].
  intros [Hnd [Hc _]]%NoDup_app.
  rewrite interned_snoc, (IH Hnd). unfold intern.
  assert (slot cs c = None) as ->.
  { apply slot_None. intros Hin. apply (Hc c Hin). now left. }
  rewrite length_app, Nat.add_comm. cbn [length Nat.add].
  now rewrite seq_S, fmap_app.
Qed.

(** X10. When no triple occurs twice among the face corners, the
    single-index layout is the array layout: the same three arrays, and
    the identity for [indices]. *)
Theorem distinct_corners_single_is_array self arr :
  OBJLoader.to_array_style self = Ok arr ->
  NoDup (corners (OBJLoader.indices self)) ->
  OBJLoader.to_single_index_style self
  = Ok (ObjectData.mk (ObjectData.vertices arr) (ObjectData.texcoords arr)
          (ObjectData.normals arr)
          (Z.of_nat <$> seq 0 (length (corners (OBJLoader.indices self))))).
Proof.
  rewrite to_array_style_eq, to_single_index_style_eq. cbv zeta.
  destruct (whole _); [|discriminate].
  intros [= <-] Hnd. unfold distinct. now rewrite (interned_NoDup _ Hnd).
Qed.

(** X11. On any loader, both conversions raise [ValueError] when the
    length of [self.indices] is not a multiple of 3, and both return
    otherwise; they raise nothing else. *)
Theorem conversions_raise_iff_partial self :
  (len (OBJLoader.indices self) mod 3 <> 0
   /\ OBJLoader.to_array_style self = Raise ValueError
   /\ OBJLoader.to_single_index_style self = Raise ValueError)
  \/ (len (OBJLoader.indices self) mod 3 = 0
      /\ exists arr one,
           OBJLoader.to_array_style self = Ok arr
           /\ OBJLoader.to_single_index_style self = Ok one
           /\ len (ObjectData.indices one) = len (OBJLoader.indices self) / 3).
Proof.
  rewrite to_array_style_eq, to_single_index_style_eq. cbv zeta.
  assert (len (OBJLoader.indices self) mod 3 = 0 <-> whole (OBJLoader.indices self) = true)
    as Hw.
  { unfold whole, len. rewrite Nat.eqb_eq.
    change 3 with (Z.of_nat 3). rewrite <- Nat2Z.inj_mod. lia. }
  destruct (whole _) eqn:Hwhole.
  - right. split; [now apply Hw|]. eexists. eexists.
    split; [reflexivity|]. split; [reflexivity|]. simpl.
    unfold len. rewrite length_interned, length_corners.
    change 3 with (Z.of_nat 3). now rewrite <- Nat2Z.inj_div.
  - left. split; [|auto]. intros Hm. apply Hw in Hm. discriminate.
Qed.

Lemma range_step1 (n : nat) : range 0 (Z.of_nat n) 1 = Z.of_nat <$> seq 0 n.
Proof.
  unfold range. destruct (Z.leb_spec (Z.of_nat n) 0) as [Hn | Hn].
  - assert (n = 0%nat) as -> by lia. reflexivity.
  - replace (Z.to_nat ((Z.of_nat n - 0 + 1 - 1) / 1)) with n
      by (rewrite Z.div_1_r; lia).
    apply list_fmap_ext. intros _ j _. lia.
Qed.

(** X14. Without a face, nothing is output: for an accepted file with no
    face reference, whatever positions, normals and texture coordinates it
    stores, both conversions return four empty lists. *)
Theorem no_faces_empty_output lines self stdout :
  OBJLoader.init lines = Ok (self, stdout) ->
  lines ≫= face_tokens = [] ->
  OBJLoader.to_array_style self = Ok (ObjectData.mk [] [] [] [])
  /\ OBJLoader.to_single_index_style self = Ok (ObjectData.mk [] [] [] []).
Proof.
  intros (cs & Hcs & Hix)%init_indices Hnone.
  rewrite Hnone in Hcs. injection Hcs as <-.
  rewrite to_array_style_eq, to_single_index_style_eq, Hix. split; reflexivity.
Qed.
End ConversionProperties.

(** ** Results on the store share nothing *)

Section Aliasing.
Context {F : Type} `{PyFloat F}.
Implicit Types (σ : Store.store F) (self : Store.loader) (d : Store.object_data).

Lemma elem_of_three {A} (r a b c : A) : r ∈ [a; b; c] <-> r = a \/ r = b \/ r = c.
Proof. rewrite !elem_of_cons, elem_of_nil. tauto. Qed.

Lemma NoDup_three {A} (a b c : A) : a <> b -> a <> c -> b <> c -> NoDup [a; b; c].
Proof.
  intros Hab Hac Hbc. rewrite !NoDup_cons, !elem_of_cons, !elem_of_nil.
  repeat split; [intuition | intuition | tauto | constructor].
Qed.

Lemma to_array_style_refs σ self d σ' :
  Store.allocated σ self -> Store.to_array_style self σ = (Ok d, σ') ->
  NoDup (float_lists d).
Proof.
  intros Halloc.
  pose proof (fresh3_alloc σ) as Hfresh. cbv zeta in Hfresh.
  set (v := fresh (dom (Store.floats σ))) in *.
  set (t := fresh (dom (<[v := []]> (Store.floats σ)))) in *.
  set (n := fresh (dom (<[t := []]> (<[v := []]> (Store.floats σ))))) in *.
  assert (Store.to_array_style self σ
          = (_ ← Store.for_each (Store.array_step self v t n)
                   (range 0 (len (Store.ints σ !!! Store.indices self)) 3) tt;
             Store.new_object_data v t n None) (array_store σ v t n ([], [], [])))
    as -> by reflexivity.
  destruct (array_loop_run σ self v t n ([], [], [])
              (range 0 (len (Store.ints σ !!! Store.indices self)) 3) Hfresh Halloc)
    as (st' & Hloop & _).
  unfold mbind at 1, Store.M_bind at 1. rewrite Hloop.
  destruct (for_each (OBJLoader.array_step _) _ _) as [st''|e]; [|discriminate].
  assert (fst (Store.new_object_data v t n None (array_store σ v t n st'))
          = Ok (Store.mk_object_data v t n (fresh (dom (Store.ints σ)))))
    as Hnew by reflexivity.
  intros Hrun. rewrite Hrun in Hnew. injection Hnew as ->.
  destruct Hfresh as (_ & _ & _ & Hvt & Hvn & Htn).
  unfold float_lists. simpl. now apply NoDup_three.
Qed.

Lemma to_single_index_style_refs σ self d σ' :
  Store.allocated σ self -> Store.to_single_index_style self σ = (Ok d, σ') ->
  NoDup (float_lists d).
Proof.
  intros Halloc.
  pose proof (fresh3_alloc σ) as Hfresh. cbv zeta in Hfresh.
  set (v := fresh (dom (Store.floats σ))) in *.
  set (t := fresh (dom (<[v := []]> (Store.floats σ)))) in *.
  set (n := fresh (dom (<[t := []]> (<[v := []]> (Store.floats σ))))) in *.
  pose proof (is_fresh (dom (Store.ints σ))) as Hix.
  set (ix := fresh (dom (Store.ints σ))) in *.
  set (st0 := OBJLoader.mk_single (F:=F) [] [] [] [] ∅).
  assert (Store.to_single_index_style self σ
          = (_ ← Store.for_each (Store.single_step self v t n ix)
                   (range 0 (len (Store.ints (single_store σ v t n ix st0)
                                  !!! Store.indices self)) 3) (OBJLoader.combinations st0);
             Store.new_object_data v t n (Some ix)) (single_store σ v t n ix st0))
    as -> by reflexivity.
  pose proof Halloc as (Hsv & Hsn & Hst & Hsi).
  rewrite (single_store_indices _ _ _ _ _ _ _ Hix Hsi).
  destruct (single_loop_run σ self v t n ix st0
              (range 0 (len (Store.ints σ !!! Store.indices self)) 3) Hfresh Hix Halloc)
    as (st' & Hloop & _).
  unfold mbind at 1, Store.M_bind at 1. rewrite Hloop.
  destruct (for_each (OBJLoader.single_step _) _ _) as [st''|e]; [|discriminate].
  intros [= <- _].
  destruct Hfresh as (_ & _ & _ & Hvt & Hvn & Htn).
  unfold float_lists. simpl. now apply NoDup_three.
Qed.

Lemma call_refs σ self m d σ' :
  Store.allocated σ self -> Store.call self m σ = (Ok d, σ') -> NoDup (float_lists d).
Proof.
  destruct m; [apply to_array_style_refs | apply to_single_index_style_refs].
Qed.

Lemma fresh_in_separate σ d1 d2 : object_in σ d1 -> fresh_in σ d2 -> separate d1 d2.
Proof.
  intros (Hv & Ht & Hn & Hi) (Fv & Ft & Fn & Fi). unfold separate, float_lists. split.
  - intros r Hr Hr'. apply elem_of_three in Hr, Hr'.
    destruct Hr as [-> | [-> | ->]]; destruct Hr' as [Hr' | [Hr' | Hr']];
      rewrite Hr' in *; contradiction.
  - intros Heq. rewrite Heq in Hi. contradiction.
Qed.

Lemma fresh_in_apart σ self d : Store.allocated σ self -> fresh_in σ d -> apart self d.
Proof.
  intros (Hv & Hn & Ht & Hi) (Fv & Ft & Fn & Fi). unfold apart, float_lists. split.
  - intros r Hr Hr'. apply elem_of_three in Hr, Hr'.
    destruct Hr as [-> | [-> | ->]]; destruct Hr' as [Hr' | [Hr' | Hr']];
      rewrite Hr' in *; contradiction.
  - intros Heq. rewrite Heq in Fi. contradiction.
Qed.

Lemma returns_object_in σ d o : returns σ (Ok d) o -> object_in σ d.
Proof.
  destruct o as [D|e]; simpl; [|discriminate].
  now intros (d' & [= <-] & _ & Hin).
Qed.

Lemma calls_separate ms : forall σ self rs σ',
  Store.allocated σ self -> Store.calls self ms σ = (rs, σ') ->
  (forall (i : nat) d, rs !! i = Some (Ok d) -> NoDup (float_lists d))
  /\ (forall (i j : nat) d1 d2, (i < j)%nat ->
        rs !! i = Some (Ok d1) -> rs !! j = Some (Ok d2) -> separate d1 d2).
Proof.
  induction ms as [|m ms IH]; intros σ self rs σ' Halloc; cbn [Store.calls].
  - intros [= <- <-]. split; intros; discriminate.
  - destruct (Store.call self m σ) as [r σ1] eqn:Hcall.
    destruct (call_run σ self m Halloc) as (r' & σ1' & Hcall' & Hext & Hret & Hnew).
    rewrite Hcall in Hcall'. injection Hcall' as <- <-.
    destruct (Store.calls self ms σ1) as [rs1 σ2] eqn:Hrest.
    intros [= <- <-].
    destruct (extends_loader _ _ _ Hext Halloc) as [Halloc1 _].
    destruct (IH _ _ _ _ Halloc1 Hrest) as (Hone & Htwo).
    destruct (calls_run ms _ _ _ _ Halloc1 Hrest) as (_ & _ & Hfresh).
    split.
    + intros [|i] d Hd; simpl in Hd.
      * injection Hd as ->. exact (call_refs σ self m d σ1 Halloc Hcall).
      * eapply Hone, Hd.
    + intros [|i] [|j] d1 d2 Hij Hi Hj; simpl in Hi, Hj; try lia.
      * injection Hi as ->. apply (fresh_in_separate σ1).
        -- eapply returns_object_in, Hret.
        -- apply Hfresh. eapply list_elem_of_lookup_2, Hj.
      * eapply (Htwo i j); [lia | eassumption | eassumption].
Qed.

(** X13. The results of a series of calls share nothing: the three float
    lists of a result are three objects, and two results, or a result and
    the loader, have no list in common, so that changing a result in place
    changes neither the loader nor another result. *)
Theorem results_do_not_alias σ self ms rs σ' :
  Store.allocated σ self ->
  Store.calls self ms σ = (rs, σ') ->
  (forall (i : nat) d, rs !! i = Some (Ok d) -> NoDup (float_lists d) /\ apart self d)
  /\ (forall (i j : nat) d1 d2, i <> j ->
        rs !! i = Some (Ok d1) -> rs !! j = Some (Ok d2) ->
        forall r, r ∈ float_lists d1 -> r ∉ float_lists d2)
  /\ (forall (i j : nat) d1 d2, i <> j ->
        rs !! i = Some (Ok d1) -> rs !! j = Some (Ok d2) ->
        Store.o_indices d1 <> Store.o_indices d2).
Proof.
  intros Halloc Hcalls.
  destruct (calls_separate ms σ self rs σ' Halloc Hcalls) as (Hone & Htwo).
  destruct (calls_run ms σ self rs σ' Halloc Hcalls) as (_ & _ & Hfresh).
  split; [|split].
  - intros i d Hd. split; [eapply Hone, Hd|].
    apply (fresh_in_apart σ); [assumption|].
    apply Hfresh. eapply list_elem_of_lookup_2, Hd.
  - intros i j d1 d2 Hij Hi Hj r Hr Hr'.
    destruct (Nat.lt_total i j) as [Hlt | [Heq | Hgt]]; [|contradiction|].
    + now apply (proj1 (Htwo i j d1 d2 Hlt Hi Hj) r).
    + now apply (proj1 (Htwo j i d2 d1 Hgt Hj Hi) r).
  - intros i j d1 d2 Hij Hi Hj Heq.
    destruct (Nat.lt_total i j) as [Hlt | [Heq' | Hgt]]; [|contradiction|].
    + now apply (proj2 (Htwo i j d1 d2 Hlt Hi Hj)).
    + now apply (proj2 (Htwo j i d2 d1 Hgt Hj Hi)).
Qed.
End Aliasing.

(** ** More sample inputs *)

Lemma parsed_tables_witness :
  OBJLoader.floats (mixed_lines ≫= position_tokens) = Ok (OBJLoader.vertices mixed_loader)
  /\ OBJLoader.floats (mixed_lines ≫= normal_tokens) = Ok (OBJLoader.normals mixed_loader)
  /\ OBJLoader.floats (mixed_lines ≫= texcoord_tokens)
     = Ok (OBJLoader.texcoords mixed_loader)
  /\ (forall line, len (position_tokens line) <= 3 /\ len (normal_tokens line) <= 3
                   /\ len (texcoord_tokens line) <= 2).
Proof.
  apply (parsed_tables mixed_lines mixed_loader ["Skipping unknown line: o thing"]).
  vm_compute. reflexivity.
Defined.

Lemma parsed_stdout_witness :
  ["Skipping unknown line: o thing"] = mixed_lines ≫= diagnostics
  /\ (forall line code, code_of line = Some code ->
        diagnostics line
        = if bool_decide (code ∈ known_codes) then []
          else ["Skipping unknown line: " +:+ strip line])
  /\ (forall line, skipped line = true -> diagnostics line = []).
Proof.
  apply (parsed_stdout mixed_lines mixed_loader). vm_compute. reflexivity.
Defined.

Lemma parsed_properties_witness :
  OBJLoader.s mixed_loader = last (mixed_lines ≫= property_values "s")
  /\ OBJLoader.mtllib mixed_loader = last (mixed_lines ≫= property_values "mtllib")
  /\ OBJLoader.usemtl mixed_loader = last (mixed_lines ≫= property_values "usemtl").
Proof.
  apply (parsed_properties mixed_lines mixed_loader ["Skipping unknown line: o thing"]).
  vm_compute. reflexivity.
Defined.

Lemma log_properties_parsed_witness :
  OBJLoader.log_properties mixed_loader = Ok tt
  /\ OBJLoader.init mixed_lines = Ok (mixed_loader, ["Skipping unknown line: o thing"]).
Proof.
  apply (log_properties_parsed mixed_lines). vm_compute. reflexivity.
Defined.

Lemma deindexing_round_trip_witness :
  ObjectData.indices quad_single !! 4%nat = Some 2
  /\ 0 <= 2 < len (ObjectData.vertices quad_single) / 3
  /\ slice (ObjectData.vertices quad_array) (3 * Z.of_nat 4) (3 * Z.of_nat 4 + 3)
     = slice (ObjectData.vertices quad_single) (3 * 2) (3 * 2 + 3)
  /\ slice (ObjectData.texcoords quad_array) (2 * Z.of_nat 4) (2 * Z.of_nat 4 + 2)
     = slice (ObjectData.texcoords quad_single) (2 * 2) (2 * 2 + 2)
  /\ slice (ObjectData.normals quad_array) (3 * Z.of_nat 4) (3 * Z.of_nat 4 + 3)
     = slice (ObjectData.normals quad_single) (3 * 2) (3 * 2 + 3).
Proof.
  split; [reflexivity|].
  apply (deindexing_round_trip quad_loader quad_array quad_single);
    vm_compute; reflexivity.
Defined.

Lemma distinct_corners_single_is_array_witness :
  OBJLoader.to_single_index_style far_loader
  = Ok (ObjectData.mk (ObjectData.vertices far_array) (ObjectData.texcoords far_array)
          (ObjectData.normals far_array)
          (Z.of_nat <$> seq 0 (length (corners (OBJLoader.indices far_loader))))).
Proof.
  apply (distinct_corners_single_is_array far_loader far_array).
  - vm_compute. reflexivity.
  - apply (bool_decide_unpack _). vm_compute. exact I.
Defined.

Lemma no_faces_empty_output_witness :
  OBJLoader.to_array_style cloud_loader = Ok (ObjectData.mk [] [] [] [])
  /\ OBJLoader.to_single_index_style cloud_loader = Ok (ObjectData.mk [] [] [] []).
Proof.
  apply (no_faces_empty_output cloud_lines cloud_loader []); vm_compute; reflexivity.
Defined.

Lemma results_do_not_alias_witness :
  let σ := snd (Store.install quad_loader) in
  let self := fst (Store.install quad_loader) in
  let ms := [Store.ArrayStyle; Store.SingleIndexStyle; Store.ArrayStyle] in
  let rs := fst (Store.calls self ms σ) in
  (forall (i : nat) d, rs !! i = Some (Ok d) -> NoDup (float_lists d) /\ apart self d)
  /\ (forall (i j : nat) d1 d2, i <> j ->
        rs !! i = Some (Ok d1) -> rs !! j = Some (Ok d2) ->
        forall r, r ∈ float_lists d1 -> r ∉ float_lists d2)
  /\ (forall (i j : nat) d1 d2, i <> j ->
        rs !! i = Some (Ok d1) -> rs !! j = Some (Ok d2) ->
        Store.o_indices d1 <> Store.o_indices d2).
Proof.
  apply (results_do_not_alias (snd (Store.install quad_loader))
           (fst (Store.install quad_loader))
           [Store.ArrayStyle; Store.SingleIndexStyle; Store.ArrayStyle] _
           (snd (Store.calls (fst (Store.install quad_loader))
                   [Store.ArrayStyle; Store.SingleIndexStyle; Store.ArrayStyle]
                   (snd (Store.install quad_loader))))).
  - repeat split; apply elem_of_dom; eexists; vm_compute; reflexivity.
  - apply surjective_pairing.
Defined.

(** ** How much the conversions write *)

Section Sizes.
Context {F : Type} `{PyFloat F}.
Implicit Types (self : OBJLoader.t F) (cs : list corner).

Lemma distinct_sublist cs : distinct cs `sublist_of` cs.
Proof.
  unfold distinct. induction cs as [|c cs IH] using rev_ind; [constructor|].
  rewrite interned_snoc. destruct (interned cs) as [seen out]. simpl in *.
  destruct (slot seen c).
  - now apply sublist_inserts_r.
  - apply sublist_app; [assumption | reflexivity].
Qed.

(** X16. Interning never costs: whenever the conversions return, each of
    the three arrays of the single-index layout is a subsequence of the
    array of the array layout, hence no longer, and the single-index layout
    has at most one set of attributes per face corner. *)
Theorem single_index_never_larger self arr one :
  OBJLoader.to_array_style self = Ok arr ->
  OBJLoader.to_single_index_style self = Ok one ->
  ObjectData.vertices one `sublist_of` ObjectData.vertices arr
  /\ ObjectData.texcoords one `sublist_of` ObjectData.texcoords arr
  /\ ObjectData.normals one `sublist_of` ObjectData.normals arr
  /\ len (ObjectData.vertices one) <= len (ObjectData.vertices arr)
  /\ len (ObjectData.texcoords one) <= 2 * len (ObjectData.indices one)
  /\ len (ObjectData.normals one) <= 3 * len (ObjectData.indices one).
Proof.
  rewrite to_array_style_eq, to_single_index_style_eq. cbv zeta.
  destruct (whole _); [|discriminate]. intros [= <-] [= <-]. simpl.
  set (cs := corners (OBJLoader.indices self)).
  pose proof (distinct_sublist cs) as Hsub.
  assert (forall c, length (texcoord_of self c) <= 2)%nat as Htex.
  { intros [[p t] n]. unfold texcoord_of.
    destruct ((0 <? t) && _) eqn:Ht; [|simpl; lia].
    apply andb_true_iff in Ht as [Ht%Z.ltb_lt _].
    pose proof (length_slice (OBJLoader.texcoords self) (2 * (t - 1)) (2 * (t - 1) + 2)).
    unfold len in *. lia. }
  assert (forall c, length (normal_of self c) <= 3)%nat as Hnor.
  { intros [[p t] n]. unfold normal_of.
    destruct ((0 <? n) && _) eqn:Hn; [|simpl; lia].
    apply andb_true_iff in Hn as [Hn%Z.ltb_lt _].
    pose proof (length_slice (OBJLoader.normals self) (3 * (n - 1)) (3 * (n - 1) + 3)).
    unfold len in *. lia. }
  assert (forall (f : corner -> list F) (k : nat) (l : list corner),
            (forall c, length (f c) <= k)%nat -> (length (l ≫= f) <= k * length l)%nat)
    as Hbound.
  { intros f k l Hf. induction l as [|c l IH]; [simpl; lia|].
    cbn. rewrite length_app. specialize (Hf c). cbn in IH. lia. }
  pose proof (sublist_length _ _ Hsub) as Hlen.
  repeat split; try (now apply bind_sublist).
  - unfold len. apply inj_le, sublist_length. now apply bind_sublist.
  - unfold len. rewrite length_interned.
    pose proof (Hbound (texcoord_of self) 2%nat (distinct cs) Htex). lia.
  - unfold len. rewrite length_interned.
    pose proof (Hbound (normal_of self) 3%nat (distinct cs) Hnor). lia.
Qed.
End Sizes.

Lemma single_index_never_larger_witness :
  ObjectData.vertices quad_single `sublist_of` ObjectData.vertices quad_array
  /\ ObjectData.texcoords quad_single `sublist_of` ObjectData.texcoords quad_array
  /\ ObjectData.normals quad_single `sublist_of` ObjectData.normals quad_array
  /\ len (ObjectData.vertices quad_single) <= len (ObjectData.vertices quad_array)
  /\ len (ObjectData.texcoords quad_single) <= 2 * len (ObjectData.indices quad_single)
  /\ len (ObjectData.normals quad_single) <= 3 * len (ObjectData.indices quad_single).
Proof.
  apply (single_index_never_larger quad_loader quad_array quad_single);
    vm_compute; reflexivity.
Defined.

(** ** Attribute lines and face lines, one line at a time *)

Section LineByLine.
Context {F : Type} `{PyFloat F}.
Implicit Types (self : OBJLoader.t F) (line : string) (cs ds : list corner).

Lemma has_code_of line code c :
  code_of line = Some code -> has_code c line = bool_decide (code = c).
Proof.
  intros Hcode. unfold has_code. rewrite Hcode.
  apply bool_decide_ext. split; congruence.
Qed.

Lemma init_raises lines e : OBJLoader.init lines = Raise e -> e = ValueError.
Proof. rewrite init_eq. apply for_each_parse_line_raises. Qed.

Lemma elem_of_attribute_tokens lines line tok :
  line ∈ lines -> tok ∈ attribute_tokens line ->
  tok ∈ lines ≫= position_tokens \/ tok ∈ lines ≫= normal_tokens
  \/ tok ∈ lines ≫= texcoord_tokens.
Proof.
  intros Hline. rewrite attribute_tokens_split, !elem_of_app, !list_elem_of_bind.
  intros [Htok | [Htok | Htok]]; eauto 6.
Qed.

Lemma attribute_tokens_elem lines tok :
  tok ∈ lines ≫= position_tokens \/ tok ∈ lines ≫= normal_tokens
  \/ tok ∈ lines ≫= texcoord_tokens ->
  exists line, line ∈ lines /\ tok ∈ attribute_tokens line.
Proof.
  rewrite !list_elem_of_bind.
  intros [(line & Htok & Hline) | [(line & Htok & Hline) | (line & Htok & Hline)]];
    exists line; (split; [exact Hline|]);
    rewrite attribute_tokens_split, !elem_of_app; auto.
Qed.

Lemma floats_rejected (tokens : list string) e :
  OBJLoader.floats tokens = Raise e -> exists tok, tok ∈ tokens /\ float tok = None.
Proof.
  intros Hraise.
  destruct (decide (Forall (fun tok => is_Some (float tok)) tokens)) as [Hall | Hsome].
  - apply floats_Ok_iff in Hall as [xs Hxs]. congruence.
  - apply not_Forall_Exists in Hsome; [|intros tok; apply _].
    apply Exists_exists in Hsome as (tok & Htok & Hnone).
    exists tok. split; [exact Htok|].
    destruct (float tok) eqn:Hf; [|reflexivity]. exfalso. apply Hnone. eauto.
Qed.

(** A [v], [vn] or [vt] line in the loop of [__init__]. *)
Lemma parse_attribute_line self stdout line code xs :
  code_of line = Some code ->
  (code = "v" \/ code = "vn" \/ code = "vt")%string ->
  OBJLoader.floats (attribute_tokens line) = Ok xs ->
  OBJLoader.parse_line (self, stdout) line
  = Ok (extended self [line]
          (if bool_decide (code = "v"%string) then xs else [])
          (if bool_decide (code = "vn"%string) then xs else [])
          (if bool_decide (code = "vt"%string) then xs else []) [], stdout)
  /\ len xs = Z.min (if bool_decide (code = "vt"%string) then 2 else 3)
                (len (split line) - 1).
Proof.
  intros Hcode Hc Hxs.
  assert (1 <= len (split line)) as Hparts.
  { unfold code_of in Hcode. destruct (skipped line); [discriminate|].
    destruct (split line); [discriminate|]. unfold len. simpl. lia. }
  pose proof (floats_Ok _ _ Hxs) as Hlen.
  rewrite attribute_tokens_split in Hxs, Hlen.
  rewrite parse_line_exact.
  unfold position_tokens, normal_tokens, texcoord_tokens, face_tokens, is_face_line,
    diagnostics in *.
  rewrite !(has_code_of line code) in * by exact Hcode. rewrite Hcode.
  destruct Hc as [-> | [-> | ->]]; code_bool; code_bool_in Hxs; code_bool_in Hlen;
    cbn [app] in Hxs, Hlen; rewrite ?app_nil_r in Hxs, Hlen;
    cbn [mbind outcome_bind OBJLoader.floats OBJLoader.face_refs];
    rewrite Hxs; cbn [mbind outcome_bind]; rewrite app_nil_r;
    (split; [reflexivity|]);
    apply (f_equal Z.of_nat) in Hlen;
    match type of Hlen with
    | _ = Z.of_nat (length (slice ?l 1 ?b)) =>
        pose proof (length_slice_1 l b ltac:(lia)) as Hs; unfold len in *
    end; lia.
Qed.








(** C5, amended. A [v], [vn] or [vt] line with a token that [float]
    rejects among those it converts ([parts[1:4]], or [parts[1:3]] for
    [vt]) makes [__init__] raise [ValueError], so that no loader is
    returned. The number of tokens never does: a [v], [vn] or [vt] line
    whose converted tokens are all accepted, be they three, fewer or none,
    passes the loop, appending as many floats as it has such tokens to its
    own table and leaving the other tables alone. And when [__init__]
    raises, it is [ValueError], for a rejected token of such a line or for
    a rejected face reference. *)
Theorem attribute_lines :
  (forall lines line tok,
     line ∈ lines -> tok ∈ attribute_tokens line -> float tok = None ->
     OBJLoader.init lines = Raise ValueError)
  /\ (forall self stdout line code xs,
        code_of line = Some code ->
        (code = "v" \/ code = "vn" \/ code = "vt")%string ->
        OBJLoader.floats (attribute_tokens line) = Ok xs ->
        exists self',
          OBJLoader.parse_line (self, stdout) line = Ok (self', stdout)
          /\ len xs = len (attribute_tokens line)
          /\ len xs = Z.min (if bool_decide (code = "vt"%string) then 2 else 3)
                        (len (split line) - 1)
          /\ OBJLoader.vertices self'
             = OBJLoader.vertices self ++ (if bool_decide (code = "v"%string) then xs else [])
          /\ OBJLoader.normals self'
             = OBJLoader.normals self ++ (if bool_decide (code = "vn"%string) then xs else [])
          /\ OBJLoader.texcoords self'
             = OBJLoader.texcoords self
               ++ (if bool_decide (code = "vt"%string) then xs else [])
          /\ OBJLoader.indices self' = OBJLoader.indices self)
  /\ (forall lines e,
        OBJLoader.init lines = Raise e ->
        e = ValueError
        /\ ((exists line tok,
               line ∈ lines /\ tok ∈ attribute_tokens line /\ float tok = None)
            \/ OBJLoader.face_refs (lines ≫= face_tokens) = Raise ValueError)).
Proof.
  split; [|split].
  - intros lines line tok Hline Htok Hfloat.
    destruct (OBJLoader.init lines) as [[self stdout]|e] eqn:Hinit.
    + exfalso.
      apply init_Ok in Hinit as (vs & ns & ts & cs & Hv & Hn & Ht & _).
      destruct (elem_of_attribute_tokens lines line tok Hline Htok) as [Hin | [Hin | Hin]].
      * rewrite (floats_raises _ tok Hin Hfloat) in Hv. discriminate.
      * rewrite (floats_raises _ tok Hin Hfloat) in Hn. discriminate.
      * rewrite (floats_raises _ tok Hin Hfloat) in Ht. discriminate.
    + now rewrite (init_raises lines e Hinit).
  - intros self stdout line code xs Hcode Hc Hxs.
    destruct (parse_attribute_line self stdout line code xs Hcode Hc Hxs) as [Hline Hlen].
    eexists. split; [exact Hline|].
    split; [apply floats_Ok in Hxs; unfold len; lia|].
    split; [exact Hlen|].
    simpl. rewrite app_nil_r. auto.
  - intros lines e Hinit. split; [exact (init_raises lines e Hinit)|].
    destruct (OBJLoader.floats (lines ≫= position_tokens)) as [vs|e1] eqn:Hv;
      [|left; apply floats_rejected in Hv as (tok & Htok & Hnone);
        destruct (attribute_tokens_elem lines tok) as (line & Hline & Hin); eauto 6].
    destruct (OBJLoader.floats (lines ≫= normal_tokens)) as [ns|e2] eqn:Hn;
      [|left; apply floats_rejected in Hn as (tok & Htok & Hnone);
        destruct (attribute_tokens_elem lines tok) as (line & Hline & Hin); eauto 6].
    destruct (OBJLoader.floats (lines ≫= texcoord_tokens)) as [ts|e3] eqn:Ht;
      [|left; apply floats_rejected in Ht as (tok & Htok & Hnone);
        destruct (attribute_tokens_elem lines tok) as (line & Hline & Hin); eauto 6].
    right.
    destruct (OBJLoader.face_refs (lines ≫= face_tokens)) as [cs|e4] eqn:Hc.
    + exfalso.
      assert (OBJLoader.init lines
              = Ok (extended OBJLoader.empty lines vs ns ts cs, lines ≫= diagnostics))
        as Hok by (apply init_Ok; exists vs, ns, ts, cs; auto 10).
      congruence.
    + now rewrite (face_refs_raises _ _ Hc).
Qed.

End LineByLine.



(** Lines [v] and [vt] without a coordinate are accepted and add nothing. *)
Example bare_attribute_lines_accepted :
  OBJLoader.init [eol "v"; eol "vt"; eol "vn"]
  = Ok (OBJLoader.empty : OBJLoader.t spec_float, []).
Proof. vm_compute. reflexivity. Qed.
